(** * Schedulo: shift schedules and peer-to-peer shift swaps

    A shallow embedding of the TypeScript sources of Schedulo and the
    properties of its swap protocol, shift queries, shift generator,
    diagnostics, swap-request subscription and sign-up/login pages.

    Conventions of the embedding:
    - a JavaScript string is a [string] (a sequence of bytes); [===] on
      strings is [String.eqb];
    - a Firestore collection is a finite map from document ids to the
      documents' fields ([gmap string _]); reading a document yields
      [{ id: doc.id, ...doc.data() }];
    - asynchronous code is sequenced at its [await]s: a handler is a
      function from the store before to the store after, together with
      what it shows to the user;
    - an exception thrown by the store client is the [Fail] outcome of
      the store monad [M]. *)

From Stdlib Require Import ZArith Lia Bool Ascii String List Permutation Sorted OrdersEx.
From stdpp Require Import gmap strings list fin_maps pretty.

Local Open Scope string_scope.

(** ** JavaScript string helpers *)

Module Js.

(** [c.toLowerCase()] on one code unit: the ASCII capitals are shifted to
    the small letters; every other byte is kept. *)
Definition lowerAscii (c : ascii) : ascii :=
  let n := nat_of_ascii c in
  if (65 <=? n)%nat && (n <=? 90)%nat then ascii_of_nat (n + 32) else c.

(** [s.toLowerCase()].  A string is held as its bytes.  On text of the
    ASCII range ([isAscii]) the bytes are the characters, and the
    conversion is the one of the language: A to Z become a to z and
    every other character is kept.  The letters beyond that range are
    left as they are here, whereas the language lowers them as well;
    what is stated about the case of letters is therefore stated for
    ASCII text. *)
Fixpoint toLowerCase (s : string) : string :=
  match s with
  | EmptyString => EmptyString
  | String c r => String (lowerAscii c) (toLowerCase r)
  end.

(** The text is of the ASCII range: every byte is below 128. *)
Fixpoint isAscii (s : string) : bool :=
  match s with
  | EmptyString => true
  | String c r => (nat_of_ascii c <? 128)%nat && isAscii r
  end.

(** The property names that every plain object inherits from
    [Object.prototype]. *)
Definition objectPrototypeKeys : list string :=
  [ "constructor"; "hasOwnProperty"; "isPrototypeOf"; "propertyIsEnumerable";
    "toLocaleString"; "toString"; "valueOf"; "__proto__";
    "__defineGetter__"; "__defineSetter__"; "__lookupGetter__"; "__lookupSetter__" ].

(** [k] names no inherited property: on a plain object, [obj[k]] is an
    own property of [obj] or [undefined]. *)
Definition plainKey (k : string) : bool :=
  negb (existsb (String.eqb k) objectPrototypeKeys).

(** [s.split(sep)] for a one-character separator: the pieces between
    the separators, never an empty array. *)
Fixpoint split (sep : ascii) (s : string) : list string :=
  match s with
  | EmptyString => [EmptyString]
  | String c r =>
      if Ascii.eqb c sep then EmptyString :: split sep r
      else match split sep r with
           | [] => [String c EmptyString]
           | p :: ps => String c p :: ps
           end
  end.

(** [xs[0]] on an array of strings; [split] never returns [[]]. *)
Definition first (xs : list string) : string :=
  match xs with [] => EmptyString | x :: _ => x end.

(** [xs.join(sep)] *)
Fixpoint join (sep : string) (xs : list string) : string :=
  match xs with
  | [] => EmptyString
  | [x] => x
  | x :: rest => x ++ sep ++ join sep rest
  end.

(** [xs.sort(compareFn)].  The language requires the sort to be stable
    and, for a consistent comparator, leaves no other freedom: the
    result is the stable insertion of every element. [compareFn x y > 0]
    asks for [y] before [x]. *)
Section Sort.
Context {A : Type} (compareFn : A -> A -> Z).

Fixpoint insertSorted (x : A) (l : list A) : list A :=
  match l with
  | [] => [x]
  | y :: r => if (0 <? compareFn x y)%Z then y :: insertSorted x r else x :: y :: r
  end.

Definition sort (l : list A) : list A := foldr insertSorted [] l.
End Sort.

(** [xs.find(p)] *)
Definition find {A} (p : A -> bool) (xs : list A) : option A := List.find p xs.

(** JavaScript truthiness of a string: only the empty string is falsy. *)
Definition truthy (s : string) : bool :=
  match s with EmptyString => false | _ => true end.

End Js.

(** ** Identity: the short identifier *)

(** [name.split(' ')[0].toLowerCase()], written out at every call site
    of the sources (EmployeeDashboard.tsx 70, 93, 118, 119; Signup.tsx
    26; the diagnostics). *)
Definition shortId (name : string) : string :=
  Js.toLowerCase (Js.first (Js.split " "%char name)).

(** ** Data model (src/types/shift.ts) *)

Inductive ShiftType := day | afternoon | night.

Inductive SwapStatus := pending | accepted | declined.

Inductive Role := employee | manager.

Inductive ActivityType :=
  | shift_created | shift_updated | shift_deleted
  | swap_requested | swap_accepted | swap_declined.

Record Shift := mkShift {
  shift_id : string;
  employeeId : string;
  employeeName : string;
  date : string;
  type : ShiftType;
  startTime : string;
  endTime : string;
}.

(** The fields of a shift document ([Omit<Shift, 'id'>]). *)
Record ShiftData := mkShiftData {
  d_employeeId : string;
  d_employeeName : string;
  d_date : string;
  d_type : ShiftType;
  d_startTime : string;
  d_endTime : string;
}.

(** [{ id: doc.id, ...doc.data() } as Shift] *)
Definition shiftOfDoc (docId : string) (d : ShiftData) : Shift :=
  {| shift_id := docId;
     employeeId := d_employeeId d;
     employeeName := d_employeeName d;
     date := d_date d;
     type := d_type d;
     startTime := d_startTime d;
     endTime := d_endTime d |}.

(** [Partial<Shift>], without the [id] that no caller passes. *)
Record PartialShift := mkPartialShift {
  p_employeeId : option string;
  p_employeeName : option string;
  p_date : option string;
  p_type : option ShiftType;
  p_startTime : option string;
  p_endTime : option string;
}.

(** The fields of a swap-request document ([Omit<SwapRequest, 'id'>]).
    The embedded snapshot [shift] may be absent in stored data. *)
Record SwapRequestData := mkSwapRequestData {
  fromEmployeeId : string;
  fromEmployeeName : string;
  toEmployeeId : string;
  toEmployeeName : string;
  shiftId : string;
  shift : option Shift;
  status : SwapStatus;
  createdAt : string;
}.

Record SwapRequest := mkSwapRequest {
  request_id : string;
  request_data :> SwapRequestData;
}.

(** A user as the pages hold it.  [password] is not part of the [User]
    interface; Auth's [handleLogin] reads it all the same from whatever
    the user document carries. *)
Record User := mkUser {
  user_id : string;
  user_email : string;
  user_name : string;
  user_role : Role;
  user_password : option string;
}.

(** The fields of a user document. *)
Record UserData := mkUserData {
  u_email : string;
  u_name : string;
  u_role : Role;
  u_password : option string;
}.

(** [{ id: doc.id, ...doc.data() } as User] *)
Definition userOfDoc (docId : string) (d : UserData) : User :=
  {| user_id := docId; user_email := u_email d; user_name := u_name d;
     user_role := u_role d; user_password := u_password d |}.

Record ActivityLogData := mkActivityLogData {
  log_type : ActivityType;
  description : string;
  userId : string;
  userName : string;
  timestamp : string;
}.

Record Toast := mkToast {
  title : string;
  toast_description : string;
  destructive : bool;
}.

#[global] Instance ShiftType_eq_dec : EqDecision ShiftType.
Proof. solve_decision. Defined.
#[global] Instance SwapStatus_eq_dec : EqDecision SwapStatus.
Proof. solve_decision. Defined.
#[global] Instance Role_eq_dec : EqDecision Role.
Proof. solve_decision. Defined.

(** ** The document store (src/lib/firebaseService.ts) *)

Record Store := mkStore {
  users : gmap string UserData;
  shifts : gmap string ShiftData;
  swapRequests : gmap string SwapRequestData;
  (* activityLogs is only ever appended to; its generated ids are not
     read by the code under study *)
  activityLogs : list ActivityLogData;
}.

(** The store orders strings byte by byte. *)
Definition byteCompare : string -> string -> comparison := String_as_OT.compare.

Definition byteLe (a b : string) : Prop := byteCompare a b <> Gt.

Definition signOf (c : comparison) : Z :=
  match c with Lt => (-1)%Z | Eq => 0%Z | Gt => 1%Z end.

(** The store returns the documents of a query in the order of a
    total comparison; which sorting procedure yields it is immaterial. *)
Definition inOrder {A} (compare : A -> A -> comparison) (docs : list A) : list A :=
  Js.sort (fun a b => signOf (compare a b)) docs.

(** The documents of a collection as a query without [orderBy] returns
    them: by ascending document id. *)
Definition docsById {D} (c : gmap string D) : list (string * D) :=
  inOrder (fun a b => byteCompare a.1 b.1) (map_to_list c).

(** A computation over the store that returns or throws.  Writes made
    before a throw stay in the store.  Of the failures of the store
    client the embedding has two: [updateDoc] on a document that does
    not exist, and a query that lacks its index. *)
Inductive Outcome (A : Type) :=
  | Done (a : A)
  | Fail.
Arguments Done {A} a.
Arguments Fail {A}.

Definition M (A : Type) : Type := Store -> Store * Outcome A.

Definition ret {A} (a : A) : M A := fun st => (st, Done a).

Definition bind {A B} (m : M A) (k : A -> M B) : M B :=
  fun st =>
    match m st with
    | (st', Done a) => k a st'
    | (st', Fail) => (st', Fail)
    end.

(** [try { body } catch (error) { handler }] *)
Definition tryCatch {A} (body : M A) (handler : M A) : M A :=
  fun st =>
    match body st with
    | (st', Done a) => (st', Done a)
    | (st', Fail) => handler st'
    end.

Declare Scope store_scope.
Delimit Scope store_scope with store.
Notation "'await' x <- c1 ; c2" := (bind c1 (fun x => c2))
  (at level 10, x name, c1 at level 100, c2 at level 200) : store_scope.

Definition getUsers : M (list User) :=
  fun st => (st, Done (List.map (fun d => userOfDoc d.1 d.2) (docsById (users st)))).

Definition getShifts : M (list Shift) :=
  fun st => (st, Done (List.map (fun d => shiftOfDoc d.1 d.2) (docsById (shifts st)))).

Definition getSwapRequests : M (list SwapRequest) :=
  fun st => (st, Done (List.map (fun d => mkSwapRequest d.1 d.2) (docsById (swapRequests st)))).

(** [addUser]: [addDoc] stores the document under the id the client
    generated for it and returns that id. *)
Definition addUser (newId : string) (d : UserData) : M string :=
  fun st =>
    ({| users := <[newId := d]> (users st);
        shifts := shifts st;
        swapRequests := swapRequests st;
        activityLogs := activityLogs st |}, Done newId).

Definition addShift (newId : string) (d : ShiftData) : M string :=
  fun st =>
    ({| users := users st;
        shifts := <[newId := d]> (shifts st);
        swapRequests := swapRequests st;
        activityLogs := activityLogs st |}, Done newId).

Definition applyPartialShift (p : PartialShift) (d : ShiftData) : ShiftData :=
  {| d_employeeId := default (d_employeeId d) (p_employeeId p);
     d_employeeName := default (d_employeeName d) (p_employeeName p);
     d_date := default (d_date d) (p_date p);
     d_type := default (d_type d) (p_type p);
     d_startTime := default (d_startTime d) (p_startTime p);
     d_endTime := default (d_endTime d) (p_endTime p) |}.

(** [updateShift]: [updateDoc] merges the given fields into an existing
    document and rejects when the document does not exist. *)
Definition updateShift (shiftId : string) (data : PartialShift) : M unit :=
  fun st =>
    match shifts st !! shiftId with
    | Some d =>
        ({| users := users st;
            shifts := <[shiftId := applyPartialShift data d]> (shifts st);
            swapRequests := swapRequests st;
            activityLogs := activityLogs st |}, Done tt)
    | None => (st, Fail)
    end.

Definition setStatus (s : SwapStatus) (r : SwapRequestData) : SwapRequestData :=
  {| fromEmployeeId := fromEmployeeId r;
     fromEmployeeName := fromEmployeeName r;
     toEmployeeId := toEmployeeId r;
     toEmployeeName := toEmployeeName r;
     shiftId := shiftId r;
     shift := shift r;
     status := s;
     createdAt := createdAt r |}.

(** [updateSwapRequest(requestId, { status })]: the one partial update
    the pages make to a swap request. *)
Definition updateSwapRequest (requestId : string) (newStatus : SwapStatus) : M unit :=
  fun st =>
    match swapRequests st !! requestId with
    | Some r =>
        ({| users := users st;
            shifts := shifts st;
            swapRequests := <[requestId := setStatus newStatus r]> (swapRequests st);
            activityLogs := activityLogs st |}, Done tt)
    | None => (st, Fail)
    end.

Definition addSwapRequest (newId : string) (request : SwapRequestData) : M string :=
  fun st =>
    ({| users := users st;
        shifts := shifts st;
        swapRequests := <[newId := request]> (swapRequests st);
        activityLogs := activityLogs st |}, Done newId).

Definition addActivityLog (log : ActivityLogData) : M unit :=
  fun st =>
    ({| users := users st;
        shifts := shifts st;
        swapRequests := swapRequests st;
        activityLogs := (activityLogs st ++ [log])%list |}, Done tt).

(** ** Shifts of one employee ([getShiftsByEmployee], lines 59-82) *)

Module ShiftQuery.

(** How the ordered and filtered query ended: served by the composite
    index, or rejected with an error code. *)
Inductive IndexedQuery :=
  | Served
  | Rejected (code : string).

(** [where('employeeId', '==', employeeId)]: the matching documents by
    ascending document id. *)
Definition queryWhere (c : gmap string ShiftData) (employeeId : string)
    : list (string * ShiftData) :=
  List.filter (fun d => String.eqb (d_employeeId d.2) employeeId) (docsById c).

(** The order of [orderBy('date', 'asc')]: by date, and by ascending
    document id among equal dates. *)
Definition dateThenId (a b : string * ShiftData) : comparison :=
  match byteCompare (d_date a.2) (d_date b.2) with
  | Eq => byteCompare a.1 b.1
  | c => c
  end.

(** [where('employeeId', '==', employeeId), orderBy('date', 'asc')] *)
Definition queryWhereOrderByDate (c : gmap string ShiftData) (employeeId : string)
    : list (string * ShiftData) :=
  inOrder dateThenId
    (List.filter (fun d => String.eqb (d_employeeId d.2) employeeId) (map_to_list c)).

Section WithLocale.
(** [a.localeCompare(b)] of the host's locale. *)
Variable localeCompare : string -> string -> Z.

Definition getShiftsByEmployee (q : IndexedQuery) (employeeId : string) : M (list Shift) :=
  fun st =>
    match q with
    | Served =>
        (st, Done (List.map (fun d => shiftOfDoc d.1 d.2)
                     (queryWhereOrderByDate (shifts st) employeeId)))
    | Rejected code =>
        if String.eqb code "failed-precondition" then
          let shifts := List.map (fun d => shiftOfDoc d.1 d.2)
                          (queryWhere (shifts st) employeeId) in
          (st, Done (Js.sort (fun a b => localeCompare (date a) (date b)) shifts))
        else (st, Fail)
    end.
End WithLocale.

(** The shifts of the owner, in the order of the collection's map. *)
Definition matching (c : gmap string ShiftData) (owner : string) : list Shift :=
  List.map (fun d => shiftOfDoc d.1 d.2)
    (List.filter (fun d => String.eqb (d_employeeId d.2) owner) (map_to_list c)).

(** What the two paths of [getShiftsByEmployee] return. *)
Definition indexedPath (c : gmap string ShiftData) (owner : string) : list Shift :=
  List.map (fun d => shiftOfDoc d.1 d.2) (queryWhereOrderByDate c owner).

Definition fallbackPath (localeCompare : string -> string -> Z)
    (c : gmap string ShiftData) (owner : string) : list Shift :=
  Js.sort (fun a b => localeCompare (date a) (date b))
    (List.map (fun d => shiftOfDoc d.1 d.2) (queryWhere c owner)).

Definition isDigit (c : ascii) : bool :=
  let n := nat_of_ascii c in (48 <=? n)%nat && (n <=? 57)%nat.

(** A calendar date as the application writes it, [YYYY-MM-DD]. *)
Definition isCalendarDate (s : string) : bool :=
  match list_ascii_of_string s with
  | [y1; y2; y3; y4; h1; m1; m2; h2; d1; d2] =>
      forallb isDigit [y1; y2; y3; y4; m1; m2; d1; d2]
      && Ascii.eqb h1 "-" && Ascii.eqb h2 "-"
  | _ => false
  end.

(** On calendar dates the locale's collation is the byte order: digits
    and hyphens only, all of one length. *)
Definition collatesDates (localeCompare : string -> string -> Z) : Prop :=
  forall a b, isCalendarDate a = true -> isCalendarDate b = true ->
    (localeCompare a b ?= 0)%Z = byteCompare a b.

(** The order of the ordered query, read on the shifts it returns. *)
Definition shiftDateThenId (a b : Shift) : comparison :=
  match byteCompare (date a) (date b) with
  | Eq => byteCompare (shift_id a) (shift_id b)
  | c => c
  end.

Definition byDateThenId (a b : Shift) : Prop := shiftDateThenId a b <> Gt.

Definition dateAscending (l : list Shift) : Prop :=
  StronglySorted (fun a b => byteCompare (date a) (date b) <> Gt) l.

(** How often the shift document [docId] occurs in a query result. *)
Definition occurrences (docId : string) (l : list Shift) : nat :=
  length (List.filter (fun s => String.eqb (shift_id s) docId) l).

End ShiftQuery.

(** ** Swap requests: creating and responding
    (src/pages/EmployeeDashboard.tsx, src/components/ShiftSwapModal.tsx,
    src/components/ConflictsSidebar.tsx) *)

Module SwapEngine.

Local Open Scope store_scope.

Definition shiftTypeName (t : ShiftType) : string :=
  match t with day => "day" | afternoon => "afternoon" | night => "night" end.

(** What the page reads from its surroundings: the clock
    ([new Date().toISOString()]), the id the store client generates for
    the next document, and the locale's rendering of a date
    ([new Date(d).toLocaleDateString()]). *)
Record Env := mkEnv {
  now : string;
  newId : string;
  toLocaleDateString : string -> string;
}.


Definition errorToast (msg : string) : Toast :=
  {| title := "Error"; toast_description := msg; destructive := true |}.

(** EmployeeDashboard.tsx lines 113-152.  The result is the store after
    the handler and the toast it showed, if any. *)
Definition handleSwapConfirm (env : Env) (user : User) (selectedShift : option Shift)
    (targetEmployeeId targetEmployeeName : string) (st : Store) : Store * option Toast :=
  match selectedShift with
  | None => (st, None)
  | Some selectedShift =>
      let fromShortId := shortId (user_name user) in
      let toShortId := shortId targetEmployeeName in
      let body : M Toast :=
        await _ <- addSwapRequest (newId env)
          {| fromEmployeeId := fromShortId;
             fromEmployeeName := user_name user;
             toEmployeeId := toShortId;
             toEmployeeName := targetEmployeeName;
             shiftId := shift_id selectedShift;
             shift := Some selectedShift;
             status := pending;
             createdAt := now env |} ;
        await _ <- addActivityLog
          {| log_type := swap_requested;
             description :=
               user_name user ++ " requested to swap " ++ shiftTypeName (type selectedShift)
               ++ " shift on " ++ toLocaleDateString env (date selectedShift);
             userId := user_id user;
             userName := user_name user;
             timestamp := now env |} ;
        ret {| title := "Swap Request Sent";
               toast_description :=
                 "Your swap request has been sent to " ++ targetEmployeeName ++ ".";
               destructive := false |} in
      match tryCatch body
              (ret (errorToast "Failed to send swap request. Please try again.")) st with
      | (st', Done t) => (st', Some t)
      | (st', Fail) => (st', None)
      end
  end.


(** EmployeeDashboard.tsx lines 154-196.  [swapRequests] is the page's
    state, as last delivered by the subscription. *)
Definition handleSwapResponse (env : Env) (user : User) (swapRequests : list SwapRequest)
    (requestId : string) (accept : bool) (st : Store) : Store * option Toast :=
  match Js.find (fun r => String.eqb (request_id r) requestId) swapRequests with
  | None => (st, None)
  | Some request =>
      let body : M Toast :=
        await _ <-
          match accept, shift request with
          | true, Some s =>
              updateShift (shift_id s)
                {| p_employeeId := Some (toEmployeeId request);
                   p_employeeName := Some (toEmployeeName request);
                   p_date := None; p_type := None;
                   p_startTime := None; p_endTime := None |}
          | _, _ => ret tt
          end ;
        await _ <- updateSwapRequest requestId (if accept then accepted else declined) ;
        await _ <- addActivityLog
          {| log_type := if accept then swap_accepted else swap_declined;
             description :=
               user_name user ++ " " ++ (if accept then "accepted" else "declined")
               ++ " swap request from " ++ fromEmployeeName request;
             userId := user_id user;
             userName := user_name user;
             timestamp := now env |} ;
        ret {| title := if accept then "Swap Accepted" else "Swap Declined";
               toast_description :=
                 if accept then "Shifts have been swapped successfully!"
                 else "The swap request has been declined.";
               destructive := false |} in
      match tryCatch body (ret (errorToast "Failed to respond to swap request.")) st with
      | (st', Done t) => (st', Some t)
      | (st', Fail) => (st', None)
      end
  end.

(** The handler completed its three writes and announced the outcome. *)
Definition succeeded (accept : bool) (t : option Toast) : Prop :=
  option_map title t = Some (if accept then "Swap Accepted" else "Swap Declined").


End SwapEngine.

(** ** Dates of the host language, as far as the generator uses them *)

Module JsDate.

Local Open Scope Z_scope.

Definition msPerDay : Z := 86400000.
Definition msPerHour : Z := 3600000.

(** A time value is a number of milliseconds since the epoch, in UTC. *)
Definition Day (t : Z) : Z := t / msPerDay.
Definition TimeWithinDay (t : Z) : Z := t mod msPerDay.

Definition isLeapYear (y : Z) : bool :=
  (y mod 4 =? 0) && (negb (y mod 100 =? 0) || (y mod 400 =? 0)).

Definition daysInMonth (y m : Z) : Z :=
  if m =? 2 then (if isLeapYear y then 29 else 28)
  else if (m =? 4) || (m =? 6) || (m =? 9) || (m =? 11) then 30
  else 31.

(** Day number of the civil date [y]-[m]-[d], months counted from 1. *)
Definition daysFromCivil (y m d : Z) : Z :=
  let y' := if m <=? 2 then y - 1 else y in
  let era := y' / 400 in
  let yoe := y' - era * 400 in
  let mp := (m + 9) mod 12 in
  let doy := (153 * mp + 2) / 5 + d - 1 in
  let doe := yoe * 365 + yoe / 4 - yoe / 100 + doy in
  era * 146097 + doe - 719468.

(** Year, month (from 1) and day of month of a day number. *)
Definition civilFromDays (z : Z) : Z * Z * Z :=
  let z := z + 719468 in
  let era := z / 146097 in
  let doe := z - era * 146097 in
  let yoe := (doe - doe / 1460 + doe / 36524 - doe / 146096) / 365 in
  let y := yoe + era * 400 in
  let doy := doe - (365 * yoe + yoe / 4 - yoe / 100) in
  let mp := (5 * doy + 2) / 153 in
  let d := doy - (153 * mp + 2) / 5 + 1 in
  let m := if mp <? 10 then mp + 3 else mp - 9 in
  (if m <=? 2 then y + 1 else y, m, d).

(** The host's time zone: its offset from UTC in milliseconds, at a
    time value given in UTC ([isUTC = true]) or in local time. *)
Record Zone := mkZone {
  localTZA : Z -> bool -> Z;
}.

Definition LocalTime (z : Zone) (t : Z) : Z := t + localTZA z t true.
Definition UTC (z : Zone) (t : Z) : Z := t - localTZA z t false.

(** A [Date] holds a time value or NaN ([None], an Invalid Date). *)
Definition TimeClip (t : Z) : option Z :=
  if 8640000000000000 <? Z.abs t then None else Some t.

(** [d.getDate()]: the day of the month in local time. *)
Definition getDate (z : Zone) (t : Z) : Z :=
  (civilFromDays (Day (LocalTime z t))).2.

(** [d.setDate(dt)]: the day [dt] of the current local month, at the
    same local time of day. *)
Definition setDate (z : Zone) (dt : Z) (t : Z) : option Z :=
  let lt := LocalTime z t in
  let '(y, m, _) := civilFromDays (Day lt) in
  let newDate := (daysFromCivil y m 1 + dt - 1) * msPerDay + TimeWithinDay lt in
  TimeClip (UTC z newDate).

(** Decimal digits of a natural number, padded with zeros on the left. *)
Definition pad (width : nat) (n : Z) : string :=
  let s := pretty (Z.to_N n) in
  string_of_list_ascii (List.repeat "0"%char (width - String.length s)) ++ s.

(** [d.toISOString()] of a valid date: always in UTC. *)
Definition toISOString (t : Z) : string :=
  let '(y, m, d) := civilFromDays (Day t) in
  let ms := TimeWithinDay t in
  let year :=
    if (0 <=? y) && (y <=? 9999) then pad 4 y
    else ((if (y <? 0)%Z then "-" else "+") ++ pad 6 (Z.abs y))%string in
  (year ++ "-" ++ pad 2 m ++ "-" ++ pad 2 d ++ "T"
   ++ pad 2 (ms / msPerHour)%Z ++ ":" ++ pad 2 (ms / 60000 mod 60)%Z ++ ":"
   ++ pad 2 (ms / 1000 mod 60)%Z ++ "." ++ pad 3 (ms mod 1000)%Z ++ "Z")%string.

Definition digitValue (c : ascii) : Z := Z.of_nat (nat_of_ascii c) - 48.

(** [new Date(s)] for the date-only form [YYYY-MM-DD] that the callers
    pass, with a month and a day that exist (midnight UTC of that day).
    Any other string, be it of another form or a day that the month does
    not have, is read by each engine in its own way; such strings are
    outside the model and count as Invalid Date here. *)
Definition parseDateOnly (s : string) : option Z :=
  if ShiftQuery.isCalendarDate s then
    match list_ascii_of_string s with
    | [y1; y2; y3; y4; _; m1; m2; _; d1; d2] =>
        let y := digitValue y1 * 1000 + digitValue y2 * 100
                 + digitValue y3 * 10 + digitValue y4 in
        let m := digitValue m1 * 10 + digitValue m2 in
        let d := digitValue d1 * 10 + digitValue d2 in
        if (1 <=? m) && (m <=? 12) && (1 <=? d) && (d <=? daysInMonth y m)
        then Some (daysFromCivil y m d * msPerDay)
        else None
    | _ => None
    end
  else None.

(** The zone of a host that keeps UTC. *)
Definition utcZone : Zone := {| localTZA := fun _ _ => 0 |}.

(** A host in the zone America/New_York during 2024: five hours behind
    UTC, four between 2024-03-10 02:00 and 2024-11-03 02:00 local
    time.  A local time that the clock skips or repeats is read with
    the offset in force before the change. *)
Definition newYork2024 : Zone :=
  {| localTZA := fun t isUTC =>
       if isUTC then
         if (1710054000000 <=? t) && (t <? 1730613600000)
         then -4 * msPerHour else -5 * msPerHour
       else
         if (1710039600000 <=? t) && (t <? 1730599200000)
         then -4 * msPerHour else -5 * msPerHour |}.

End JsDate.

(** ** The shift generator (src/lib/shiftGenerator.ts) *)

Module Generator.

Record Employee := mkEmployee {
  emp_id : string;
  emp_name : string;
}.

Definition EMPLOYEES : list Employee :=
  [ mkEmployee "jessica" "Jessica Martinez";
    mkEmployee "sarah" "Sarah Johnson";
    mkEmployee "emma" "Emma Wilson";
    mkEmployee "mike" "Mike Davis";
    mkEmployee "john" "John Smith";
    mkEmployee "rachel" "Rachel Taylor";
    mkEmployee "david" "David Lee";
    mkEmployee "alex" "Alex Brown" ].

(** [SHIFT_TIMES[t]] as (start, end) *)
Definition SHIFT_TIMES (t : ShiftType) : string * string :=
  match t with
  | day => ("08:00", "16:00")
  | afternoon => ("16:00", "00:00")
  | night => ("00:00", "08:00")
  end.

Record ShiftAssignment := mkShiftAssignment {
  a_employeeId : string;
  a_employeeName : string;
  a_type : ShiftType;
}.

(** The source of randomness: [rnd k] stands for the [k]-th call of
    [Math.random()] of the run.  [Math.floor(Math.random() * (i + 1))]
    is an integer from 0 to [i]; it is read off the stream modulo
    [i + 1], so that every such integer can come up. *)
Definition Random := nat -> nat.

(** [[arr[i], arr[j]] = [arr[j], arr[i]]] *)
Definition swap {A} (arr : list A) (i j : nat) : list A :=
  match arr !! i, arr !! j with
  | Some ai, Some aj => <[j := ai]> (<[i := aj]> arr)
  | _, _ => arr
  end.

(** The loop of [shuffleArray], from index [i] down to 1; [calls]
    counts the random numbers drawn so far. *)
Fixpoint shuffleLoop {A} (rnd : Random) (calls : nat) (i : nat) (arr : list A)
    : list A * nat :=
  match i with
  | O => (arr, calls)
  | S i' =>
      let j := (rnd calls mod (i + 1))%nat in
      shuffleLoop rnd (S calls) i' (swap arr i j)
  end.

Definition shuffleArray {A} (rnd : Random) (calls : nat) (array : list A)
    : list A * nat :=
  shuffleLoop rnd calls (length array - 1) array.

Definition assign (t : ShiftType) (e : Employee) : ShiftAssignment :=
  {| a_employeeId := emp_id e; a_employeeName := emp_name e; a_type := t |}.

(** [generateDayAssignments]: positions 0 and 1 of the shuffled list
    work the day shift, 2 and 3 the afternoon, 4 the night.  The staff
    list has eight entries, so each of these positions is filled. *)
Definition generateDayAssignments (rnd : Random) (calls : nat)
    : list ShiftAssignment * nat :=
  let '(shuffled, calls') := shuffleArray rnd calls EMPLOYEES in
  ((List.map (assign day) (take 2 shuffled)
    ++ List.map (assign afternoon) (take 2 (drop 2 shuffled))
    ++ List.map (assign night) (take 1 (drop 4 shuffled)))%list,
   calls').

Definition shiftOfAssignment (dateString : string) (a : ShiftAssignment) : Shift :=
  let shiftTimes := SHIFT_TIMES (a_type a) in
  {| shift_id := "";
     date := dateString;
     employeeId := a_employeeId a;
     employeeName := a_employeeName a;
     type := a_type a;
     startTime := shiftTimes.1;
     endTime := shiftTimes.2 |}.

(** The [while (currentDate <= end)] loop of [generateBalancedShifts].
    A comparison with an Invalid Date is false.  [fuel] bounds the
    number of tests of the loop condition; [None] means it ran out. *)
Fixpoint generateLoop (zone : JsDate.Zone) (rnd : Random) (fuel : nat) (calls : nat)
    (currentDate : option Z) (endDate : option Z) (shifts : list Shift)
    : option (list Shift) :=
  match fuel with
  | O => None
  | S fuel' =>
      match currentDate, endDate with
      | Some cur, Some e =>
          if (cur <=? e)%Z then
            let dateString := Js.first (Js.split "T"%char (JsDate.toISOString cur)) in
            let '(dayAssignments, calls') := generateDayAssignments rnd calls in
            let shifts' := (shifts ++ List.map (shiftOfAssignment dateString) dayAssignments)%list in
            let next := JsDate.setDate zone (JsDate.getDate zone cur + 1) cur in
            generateLoop zone rnd fuel' calls' next endDate shifts'
          else Some shifts
      | _, _ => Some shifts
      end
  end.

Definition generateBalancedShifts (zone : JsDate.Zone) (rnd : Random) (fuel : nat)
    (startDate endDate : string) : option (list Shift) :=
  let start := JsDate.parseDateOnly startDate in
  let e := JsDate.parseDateOnly endDate in
  generateLoop zone rnd fuel 0 start e [].

(** The invariant the generator is written for: no employee has two
    shifts on one date. *)
Definition oneShiftPerEmployeePerDay (l : list Shift) : Prop :=
  NoDup (List.map (fun s => (employeeId s, date s)) l).


End Generator.

(** ** The diagnostics page: duplicate scan and swap-request analysis *)

Module Diagnostics.

Definition nl : string := String (ascii_of_nat 10) EmptyString.
Definition dq : string := String (ascii_of_nat 34) EmptyString.

(** [`${n}`] for a count or an index *)
Definition num (n : nat) : string := pretty n.

(** A [Map<string, V>]: its entries in insertion order. *)
Section JsMap.
Context {V : Type}.

Definition mapHas (k : string) (m : list (string * V)) : bool :=
  existsb (fun e => String.eqb e.1 k) m.

Definition mapGet (k : string) (m : list (string * V)) : option V :=
  option_map snd (List.find (fun e => String.eqb e.1 k) m).

(** [m.set(k, v)] *)
Definition mapSet (k : string) (v : V) (m : list (string * V)) : list (string * V) :=
  if mapHas k m
  then List.map (fun e => if String.eqb e.1 k then (k, v) else e) m
  else (m ++ [(k, v)])%list.

(** [Array.from(m.values())] *)
Definition mapValues (m : list (string * V)) : list V := List.map snd m.
End JsMap.

(** [new Set(xs)], as [Array.from] lists it: the first occurrences, in
    order. *)
Fixpoint newSet (seen : list string) (xs : list string) : list string :=
  match xs with
  | [] => []
  | x :: r =>
      if existsb (String.eqb x) seen then newSet seen r
      else x :: newSet (x :: seen) r
  end.

Definition setHas (s : list string) (x : string) : bool := existsb (String.eqb x) s.

(** *** [handleCheckShiftsByEmployee], lines 691-708 *)

Definition dupeKey (shift : Shift) : string :=
  date shift +:+ "-" +:+ SwapEngine.shiftTypeName (type shift) +:+ "-" +:+ employeeId shift.

(** One round of [shifts.forEach]: make the key's entry if it is new,
    then push the shift onto the entry's array. *)
Definition recordShift (dupes : list (string * list Shift)) (shift : Shift)
    : list (string * list Shift) :=
  let key := dupeKey shift in
  let dupes1 := if negb (mapHas key dupes) then mapSet key [] dupes else dupes in
  match mapGet key dupes1 with
  | Some arr => mapSet key (arr ++ [shift])%list dupes1
  | None => dupes1
  end.

Definition buildDupes (shifts : list Shift) : list (string * list Shift) :=
  fold_left recordShift shifts [].

Definition dupesFound (shifts : list Shift) : list (list Shift) :=
  List.filter (fun arr => (1 <? length arr)%nat) (mapValues (buildDupes shifts)).

Definition dupeLine (dupe : list Shift) : string :=
  match dupe with
  | d0 :: _ =>
      "     " +:+ employeeName d0 +:+ " on " +:+ date d0 +:+ ": "
      +:+ num (length dupe) +:+ " entries"
  | [] => EmptyString
  end.

(** The lines the duplicate check pushes onto the log.  With no shift
    stored the handler has returned before it comes to the check (lines
    598-604), and the check pushes nothing. *)
Definition duplicateReport (shifts : list Shift) : list string :=
  if (length shifts =? 0)%nat then []
  else
    let found := dupesFound shifts in
    if (0 <? length found)%nat then
      ((nl +:+ "❌ Duplicate Shifts Found: " +:+ num (length found))
       :: List.map dupeLine found)%list
    else ["✅ No duplicate shifts found"].



(** *** [handleTestSwapRequests], lines 182-273 *)

Definition roleName (r : Role) : string :=
  match r with employee => "employee" | manager => "manager" end.

Definition statusName (s : SwapStatus) : string :=
  match s with pending => "pending" | accepted => "accepted" | declined => "declined" end.

(** [xs.forEach((x, idx) => ...)] where each round pushes some lines *)
Fixpoint forEachIdx {A} (f : A -> nat -> list string) (idx : nat) (xs : list A)
    : list string :=
  match xs with
  | [] => []
  | x :: r => (f x idx ++ forEachIdx f (S idx) r)%list
  end.

Definition userLines (user : User) (idx : nat) : list string :=
  [ num (idx + 1) +:+ ". " +:+ user_name user;
    "   ID (from Firebase): " +:+ user_id user;
    "   Short ID (extracted): " +:+ shortId (user_name user);
    "   Role: " +:+ roleName (user_role user);
    "" ].

Definition shiftLines (shift : Shift) (idx : nat) : list string :=
  [ num (idx + 1) +:+ ". Shift ID: " +:+ shift_id shift;
    "   employeeId (stored): " +:+ dq +:+ employeeId shift +:+ dq;
    "   employeeName: " +:+ employeeName shift;
    "   date: " +:+ date shift;
    "" ].

(** [swap.shift?.employeeId || 'N/A'] *)
Definition snapshotOwner (swap : SwapRequest) : string :=
  match shift swap with
  | Some s => if Js.truthy (employeeId s) then employeeId s else "N/A"
  | None => "N/A"
  end.

Definition swapLines (swap : SwapRequest) (idx : nat) : list string :=
  [ num (idx + 1) +:+ ". Swap Request ID: " +:+ request_id swap;
    "   fromEmployeeId (stored): " +:+ dq +:+ fromEmployeeId swap +:+ dq;
    "   fromEmployeeName: " +:+ fromEmployeeName swap;
    "   toEmployeeId (stored): " +:+ dq +:+ toEmployeeId swap +:+ dq;
    "   toEmployeeName: " +:+ toEmployeeName swap;
    "   shiftId: " +:+ shiftId swap;
    "   status: " +:+ statusName (status swap);
    "   shift.employeeId: " +:+ snapshotOwner swap;
    "" ].

Definition shiftEmployeeIds (shifts : list Shift) : list string :=
  newSet [] (List.map employeeId shifts).

Definition mismatchedFrom (shifts : list Shift) (swaps : list SwapRequest) : list string :=
  List.filter (fun id => negb (setHas (shiftEmployeeIds shifts) id))
    (newSet [] (List.map (fun s : SwapRequest => fromEmployeeId s) swaps)).

Definition mismatchedTo (shifts : list Shift) (swaps : list SwapRequest) : list string :=
  List.filter (fun id => negb (setHas (shiftEmployeeIds shifts) id))
    (newSet [] (List.map (fun s : SwapRequest => toEmployeeId s) swaps)).

Definition fromWarning (ids : list string) : string :=
  "⚠️  MISMATCH: fromEmployeeIds not in Shifts: " +:+ Js.join ", " ids.

Definition toWarning (ids : list string) : string :=
  "⚠️  MISMATCH: toEmployeeIds not in Shifts: " +:+ Js.join ", " ids.

(** Lines 236-263 *)
Definition analysisLines (shifts : list Shift) (swaps : list SwapRequest) : list string :=
  ([ nl +:+ "========== ANALYSIS ==========" +:+ nl;
     "Unique employeeIds in Shifts: " +:+ Js.join ", " (shiftEmployeeIds shifts);
     "" ]
   ++ (if (0 <? length swaps)%nat then
         let swapFromIds := newSet [] (List.map (fun s : SwapRequest => fromEmployeeId s) swaps) in
         let swapToIds := newSet [] (List.map (fun s : SwapRequest => toEmployeeId s) swaps) in
         [ "Unique fromEmployeeIds in Swaps: " +:+ Js.join ", " swapFromIds;
           "Unique toEmployeeIds in Swaps: " +:+ Js.join ", " swapToIds;
           "" ]
         ++ (if (0 <? length (mismatchedFrom shifts swaps))%nat
             then [fromWarning (mismatchedFrom shifts swaps)] else [])
         ++ (if (0 <? length (mismatchedTo shifts swaps))%nat
             then [toWarning (mismatchedTo shifts swaps)] else [])
         ++ (if (length (mismatchedFrom shifts swaps) =? 0)%nat
                && (length (mismatchedTo shifts swaps) =? 0)%nat
             then ["✅ All employee IDs in swap requests match shift employee IDs"]
             else [])
       else []))%list.

Local Open Scope store_scope.

(** The log that [handleTestSwapRequests] hands to [setConsoleOutput]. *)
Definition handleTestSwapRequests : M (list string) :=
  await users <- getUsers ;
  await shifts <- getShifts ;
  await swaps <- getSwapRequests ;
  ret ([ "🔍 Testing Swap Request Data Structure..." +:+ nl;
         "========== USER DATA ==========" +:+ nl;
         "Total Users: " +:+ num (length users) +:+ nl ]
       ++ forEachIdx userLines 0 users
       ++ [ nl +:+ "========== SHIFTS DATA SAMPLE ==========" +:+ nl;
            "Total Shifts: " +:+ num (length shifts) +:+ nl;
            "First 5 shifts structure:" +:+ nl ]
       ++ forEachIdx shiftLines 0 (take 5 shifts)
       ++ [ nl +:+ "========== SWAP REQUESTS DATA ==========" +:+ nl;
            "Total Swap Requests: " +:+ num (length swaps) +:+ nl ]
       ++ (if (length swaps =? 0)%nat
           then ["⚠️  No swap requests found in database"]
           else ("All swap requests structure:" +:+ nl) :: forEachIdx swapLines 0 swaps)
       ++ analysisLines shifts swaps
       ++ [ nl +:+ "✅ Swap request diagnostics complete!" ])%list.

(** The head of a printed number is a digit. *)
Definition startsWithDigit (s : string) : bool :=
  match s with
  | String c _ => ShiftQuery.isDigit c
  | EmptyString => false
  end.

(** A correlation-failure warning of the log. *)
Definition isMismatchWarning (line : string) : bool :=
  String.prefix "⚠️  MISMATCH: " line.

Definition mismatchWarnings (logs : list string) : list string :=
  List.filter isMismatchWarning logs.

(** The text [id] occurs in the line. *)
Definition mentions (line id : string) : Prop :=
  exists pre post, line = pre +:+ id +:+ post.

End Diagnostics.

(** ** The swap-request subscription ([subscribeToSwapRequests], lines 142-170) *)

Module Subscription.

(** How one [getDoc] of a shift ended. *)
Inductive Lookup :=
  | Found (d : ShiftData)
  | Missing
  | Threw.

(** What the listener does that can be seen from outside, in order. *)
Inductive Event :=
  | GetDoc (shiftId : string)
  | ConsoleError
  | Callback (requests : list SwapRequest).

Definition withShift (req : SwapRequest) (s : Shift) : SwapRequest :=
  {| request_id := request_id req;
     request_data :=
       {| fromEmployeeId := fromEmployeeId req;
          fromEmployeeName := fromEmployeeName req;
          toEmployeeId := toEmployeeId req;
          toEmployeeName := toEmployeeName req;
          shiftId := shiftId req;
          shift := Some s;
          status := status req;
          createdAt := createdAt req |} |}.

(** The body of [requests.map(async (req) => ...)] for one request: the
    request it resolves to and what it did on the way. *)
Definition enrich (getDoc : string -> Lookup) (req : SwapRequest)
    : SwapRequest * list Event :=
  match shift req with
  | None =>
      if Js.truthy (shiftId req) then
        match getDoc (shiftId req) with
        | Found d => (withShift req (shiftOfDoc (shiftId req) d), [GetDoc (shiftId req)])
        | Missing => (req, [GetDoc (shiftId req)])
        | Threw => (req, [GetDoc (shiftId req); ConsoleError])
        end
      else (req, [])
  | Some _ => (req, [])
  end.

(** The listener on one snapshot: [Promise.all] settles once every
    mapped promise has, and only then is [callback] called.  The mapped
    promises run side by side; their events are listed here request by
    request, and nothing is meant by the order among the events of
    different requests, only by their place before the callback. *)
Definition onSnapshot (getDoc : string -> Lookup) (docs : list (string * SwapRequestData))
    : list Event :=
  let requests := List.map (fun d => mkSwapRequest d.1 d.2) docs in
  let settled := List.map (enrich getDoc) requests in
  (concat (List.map snd settled) ++ [Callback (List.map fst settled)])%list.

(** [where('toEmployeeId', '==', employeeId)]: the documents of a
    snapshot. *)
Definition snapshotDocs (c : gmap string SwapRequestData) (employeeId : string)
    : list (string * SwapRequestData) :=
  List.filter (fun d => String.eqb (toEmployeeId d.2) employeeId) (docsById c).

(** [subscribeToSwapRequests(employeeId, callback)], on one state [c] of
    the collection: what the listener does with the snapshot of it. *)
Definition subscribeToSwapRequests (getDoc : string -> Lookup) (employeeId : string)
    (c : gmap string SwapRequestData) : list Event :=
  onSnapshot getDoc (snapshotDocs c employeeId).


(** The delivered request [out] is the fetched request [req] in all but
    the shift. *)
Definition sameButShift (req out : SwapRequest) : Prop :=
  request_id out = request_id req
  /\ fromEmployeeId out = fromEmployeeId req
  /\ fromEmployeeName out = fromEmployeeName req
  /\ toEmployeeId out = toEmployeeId req
  /\ toEmployeeName out = toEmployeeName req
  /\ shiftId out = shiftId req
  /\ status out = status req
  /\ createdAt out = createdAt req.

(** What the delivered request [out] must be for the fetched [req]: a
    snapshot that came along is kept; a missing one is filled in from the
    stored shift if the lookup finds it, and stays missing otherwise. *)
Definition enriched (getDoc : string -> Lookup) (req out : SwapRequest) : Prop :=
  sameButShift req out
  /\ (forall s, shift req = Some s -> shift out = Some s)
  /\ (forall d, shift req = None -> Js.truthy (shiftId req) = true ->
                getDoc (shiftId req) = Found d ->
                shift out = Some (shiftOfDoc (shiftId req) d))
  /\ (shift req = None ->
      Js.truthy (shiftId req) = false \/ getDoc (shiftId req) = Missing
      \/ getDoc (shiftId req) = Threw ->
      shift out = None).

End Subscription.

(** ** Sign-up and login (src/pages/Signup.tsx, Auth) *)

Module Auth.

Record Credential := mkCredential {
  c_email : string;
  c_name : string;
  c_password : string;
}.

(** [testCredentials] of src/data/mockData.ts: a module-level object,
    alive as long as the page is loaded. *)
Record TestCredentials := mkTestCredentials {
  tc_employees : list Credential;
  tc_manager : Credential;
}.

Definition initialTestCredentials : TestCredentials :=
  {| tc_employees :=
       [ mkCredential "john@schedulo.com" "John Smith" "password123";
         mkCredential "sarah@schedulo.com" "Sarah Johnson" "password123";
         mkCredential "mike@schedulo.com" "Mike Davis" "password123";
         mkCredential "emma@schedulo.com" "Emma Wilson" "password123";
         mkCredential "alex@schedulo.com" "Alex Brown" "password123";
         mkCredential "jessica@schedulo.com" "Jessica Martinez" "password123";
         mkCredential "david@schedulo.com" "David Lee" "password123";
         mkCredential "rachel@schedulo.com" "Rachel Taylor" "password123" ];
     tc_manager := mkCredential "manager@schedulo.com" "Alex Manager" "admin123" |}.

Inductive SignupResult :=
  | EmailTaken      (* 'Email already registered. Please login instead.' *)
  | AccountCreated  (* toast.success('Account created successfully!') *)
  | SignupFailed.   (* 'Failed to create account. Please try again.' *)

Local Open Scope store_scope.

(** [handleSignup], Signup.tsx lines 12-56.  [newId] is the id the
    store client generates for the new user document. *)
Definition handleSignup (newId : string) (name email password : string)
    (creds : TestCredentials) (st : Store) : Store * TestCredentials * SignupResult :=
  let body : M (TestCredentials * SignupResult) :=
    await existingUsers <- getUsers ;
    match Js.find (fun u : User => String.eqb (Js.toLowerCase (user_email u))
                                     (Js.toLowerCase email)) existingUsers with
    | Some _ => ret (creds, EmailTaken)
    | None =>
        await _ <- addUser newId
          {| u_email := email; u_name := name; u_role := employee; u_password := None |} ;
        ret ({| tc_employees := (tc_employees creds ++ [mkCredential email name password])%list;
                tc_manager := tc_manager creds |}, AccountCreated)
    end in
  match tryCatch body (ret (creds, SignupFailed)) st with
  | (st', Done (creds', r)) => (st', creds', r)
  | (st', Fail) => (st', creds, SignupFailed)
  end.

Inductive LoginResult :=
  | Navigate (user : User)  (* navigate('/dashboard', { state: { user } }) *)
  | AuthError.              (* 'Invalid email or password. ...' *)

(** [u.password === password] *)
Definition passwordIs (u : User) (password : string) : bool :=
  match user_password u with
  | Some p => String.eqb p password
  | None => false
  end.

(** The third branch of [handleLogin] (line 120): a stored user with
    this email and this password. *)
Definition dbUserMatch (email password : string) (u : User) : bool :=
  String.eqb (user_email u) email && passwordIs u password.

(** [handleLogin], lines 90-127.  [users] is the page's state, loaded
    with [getUsers] when the page was mounted. *)
Definition handleLogin (creds : TestCredentials) (users : list User)
    (email password : string) : LoginResult :=
  let viaManager :=
    if String.eqb email (c_email (tc_manager creds))
       && String.eqb password (c_password (tc_manager creds))
    then Js.find (fun u : User => bool_decide (user_role u = manager)) users
    else None in
  match viaManager with
  | Some m => Navigate m
  | None =>
      let employeeCredential :=
        Js.find (fun cred => String.eqb (c_email cred) email
                             && String.eqb (c_password cred) password)
                (tc_employees creds) in
      let viaCredential :=
        match employeeCredential with
        | Some _ => Js.find (fun u : User => String.eqb (user_email u) email) users
        | None => None
        end in
      match viaCredential with
      | Some e => Navigate e
      | None =>
          match Js.find (dbUserMatch email password) users with
          | Some dbUser => Navigate dbUser
          | None => AuthError
          end
      end
  end.

(** The users a freshly mounted login page holds. *)
Definition loadUsers (st : Store) : list User :=
  match getUsers st with
  | (_, Done us) => us
  | (_, Fail) => []
  end.

End Auth.

(** ** The summary of a generated schedule
    ([summarizeShiftDistribution], src/lib/shiftGenerator.ts lines 129-203) *)

Module Summary.

Import Generator Diagnostics.

(** ['='.repeat(50)] *)
Definition rule : string := string_of_list_ascii (List.repeat "="%char 50).

(** [{ day, afternoon, night }] of [employeeShiftsByType] *)
Record TypeCount := mkTypeCount {
  n_day : nat;
  n_afternoon : nat;
  n_night : nat;
}.

(** [byType[t]++] *)
Definition bump (t : ShiftType) (c : TypeCount) : TypeCount :=
  match t with
  | day => {| n_day := n_day c + 1; n_afternoon := n_afternoon c; n_night := n_night c |}
  | afternoon => {| n_day := n_day c; n_afternoon := n_afternoon c + 1; n_night := n_night c |}
  | night => {| n_day := n_day c; n_afternoon := n_afternoon c; n_night := n_night c + 1 |}
  end.

(** [employeeShiftCount] and [employeeShiftsByType] are plain objects
    used as maps from names, filled and updated side by side; they are
    kept here as one list of their own entries in insertion order, the
    order in which [Object.entries] lists keys such as names and dates.
    A plain object also answers for the names it inherits
    ([Js.objectPrototypeKeys]); the list of own entries is the object as
    far as its keys are none of these ([Js.plainKey]), and that is how
    far the summary is modelled.  Lines 138-141. *)
Definition initialCounts : list (string * (nat * TypeCount)) :=
  fold_left (fun m emp => mapSet (emp_name emp) (0%nat, mkTypeCount 0 0 0) m) EMPLOYEES [].

(** One round of lines 143-146.  For a name without entry, and not an
    inherited one, the first statement stores NaN and the second reads a
    property of [undefined] and throws. *)
Definition countShift (counts : option (list (string * (nat * TypeCount)))) (shift : Shift)
    : option (list (string * (nat * TypeCount))) :=
  match counts with
  | Some m =>
      match mapGet (employeeName shift) m with
      | Some (count, byType) =>
          Some (mapSet (employeeName shift) ((count + 1)%nat, bump (type shift) byType) m)
      | None => None
      end
  | None => None
  end.

(** Lines 150-155: one line per employee. *)
Definition employeeLine (entry : string * (nat * TypeCount)) : string :=
  "  " +:+ entry.1 +:+ ": " +:+ num entry.2.1 +:+ " total (Day: "
  +:+ num (n_day entry.2.2) +:+ ", Afternoon: " +:+ num (n_afternoon entry.2.2)
  +:+ ", Night: " +:+ num (n_night entry.2.2) +:+ ")" +:+ nl.

(** Lines 158-166 *)
Definition typeCount (t : ShiftType) (shifts : list Shift) : nat :=
  length (List.filter (fun s => bool_decide (type s = t)) shifts).

(** One round of lines 175-182, for a date that is no inherited name
    of the object [dateGroups]. *)
Definition groupShift (dateGroups : list (string * list ShiftAssignment)) (shift : Shift)
    : list (string * list ShiftAssignment) :=
  let dateGroups1 :=
    if negb (mapHas (date shift) dateGroups) then mapSet (date shift) [] dateGroups
    else dateGroups in
  match mapGet (date shift) dateGroups1 with
  | Some arr =>
      mapSet (date shift)
        (arr ++ [ {| a_employeeId := employeeId shift;
                     a_employeeName := employeeName shift;
                     a_type := type shift |} ])%list
        dateGroups1
  | None => dateGroups1
  end.

Definition dateGroups (shifts : list Shift) : list (string * list ShiftAssignment) :=
  fold_left groupShift shifts [].

Definition ofType (t : ShiftType) (assignments : list ShiftAssignment) : nat :=
  length (List.filter (fun a => bool_decide (a_type a = t)) assignments).

(** Lines 186-195, for one date: the line added to the summary, if the
    day breaks the rule. *)
Definition violation (entry : string * list ShiftAssignment) : option string :=
  let dayShifts := ofType day entry.2 in
  let afternoonShifts := ofType afternoon entry.2 in
  let nightShifts := ofType night entry.2 in
  if negb (dayShifts =? 2)%nat || negb (afternoonShifts =? 2)%nat
     || negb (nightShifts =? 1)%nat
  then Some ("  ⚠️  " +:+ entry.1 +:+ ": Day=" +:+ num dayShifts
             +:+ " (expected 2), Afternoon=" +:+ num afternoonShifts
             +:+ " (expected 2), Night=" +:+ num nightShifts +:+ " (expected 1)" +:+ nl)
  else None.

(** The lines of the violations; [constraintViolations] is their
    number. *)
Definition violations (shifts : list Shift) : list string :=
  omap violation (dateGroups shifts).

Definition allSatisfied : string :=
  "  ✅ All daily constraints satisfied (2 day, 2 afternoon, 1 night per day)" +:+ nl.

(** [None]: the function threw. *)
Definition summarizeShiftDistribution (shifts : list Shift) : option string :=
  match fold_left countShift shifts (Some initialCounts) with
  | None => None
  | Some counts =>
      Some (nl +:+ "📊 SHIFT DISTRIBUTION SUMMARY" +:+ nl
            +:+ rule +:+ nl
            +:+ "Total shifts generated: " +:+ num (length shifts) +:+ nl
            +:+ nl +:+ "Shifts per employee:" +:+ nl
            +:+ String.concat ""
                  (List.map employeeLine
                     (Js.sort (fun a b => (Z.of_nat b.2.1 - Z.of_nat a.2.1)%Z) counts))
            +:+ nl +:+ "Shifts by type:" +:+ nl
            +:+ "  Day shifts: " +:+ num (typeCount day shifts) +:+ nl
            +:+ "  Afternoon shifts: " +:+ num (typeCount afternoon shifts) +:+ nl
            +:+ "  Night shifts: " +:+ num (typeCount night shifts) +:+ nl
            +:+ nl +:+ "Constraint validation:" +:+ nl
            +:+ String.concat "" (violations shifts)
            +:+ (if (length (violations shifts) =? 0)%nat then allSatisfied else "")
            +:+ rule +:+ nl)
  end.

End Summary.

(** ** The rest of the service (src/lib/firebaseService.ts) *)

Module Service.

Local Open Scope store_scope.

(** [getUserById], lines 38-41 *)
Definition getUserById (userId : string) : M (option User) :=
  await users <- getUsers ;
  ret (Js.find (fun u : User => String.eqb (user_id u) userId) users).

(** [getUserByEmail], lines 43-46 *)
Definition getUserByEmail (email : string) : M (option User) :=
  await users <- getUsers ;
  ret (Js.find (fun u : User => String.eqb (Js.toLowerCase (user_email u))
                                  (Js.toLowerCase email)) users).

(** [deleteShift], lines 89-91: [deleteDoc] resolves whether or not the
    document exists. *)
Definition deleteShift (shiftId : string) : M unit :=
  fun st =>
    ({| users := users st;
        shifts := delete shiftId (shifts st);
        swapRequests := swapRequests st;
        activityLogs := activityLogs st |}, Done tt).

(** [getSwapRequestsByEmployee], lines 104-111 *)
Definition getSwapRequestsByEmployee (employeeId : string) : M (list SwapRequest) :=
  fun st =>
    (st, Done (List.map (fun d => mkSwapRequest d.1 d.2)
                 (List.filter (fun d => String.eqb (toEmployeeId d.2) employeeId)
                    (docsById (swapRequests st))))).

(** [subscribeToShifts], lines 134-140: what the listener hands to
    [callback] for one state of the collection, the documents in the
    order of [orderBy('date', 'asc')]. *)
Definition subscribeToShifts (c : gmap string ShiftData) : list Shift :=
  List.map (fun d => shiftOfDoc d.1 d.2) (inOrder ShiftQuery.dateThenId (map_to_list c)).

End Service.

(** ** The employee's page, its listeners
    (src/pages/EmployeeDashboard.tsx, lines 92-100) *)

Module EmployeePage.

(** The callback given to [subscribeToShifts] (lines 94-96): the value
    it passes to [setShifts]. *)
Definition onShifts (user : User) (allShifts : list Shift) : list Shift :=
  List.filter (fun s => String.eqb (employeeId s) (shortId (user_name user))) allShifts.

(** The page's [swapRequests] state after the listener of
    [subscribeToSwapRequests] has run (lines 98-100): every call of the
    callback replaces it. *)
Definition onSwapRequests (events : list Subscription.Event) (state : list SwapRequest)
    : list SwapRequest :=
  fold_left (fun st e => match e with Subscription.Callback requests => requests | _ => st end)
    events state.

End EmployeePage.

(** ** The manager's page (src/pages/ManagerDashboard.tsx,
    src/components/CreateShiftModal.tsx) *)

Module ManagerPage.

Import SwapEngine.
Local Open Scope store_scope.

(** [handleCreateShift], lines 113-144 *)
Definition handleCreateShift (env : Env) (user : User) (shiftData : ShiftData) (st : Store)
    : Store * option Toast :=
  let body : M Toast :=
    await _ <- addShift (newId env) shiftData ;
    await _ <- addActivityLog
      {| log_type := shift_created;
         description :=
           "New " ++ shiftTypeName (d_type shiftData) ++ " shift assigned to "
           ++ d_employeeName shiftData ++ " on "
           ++ toLocaleDateString env (d_date shiftData);
         userId := user_id user;
         userName := user_name user;
         timestamp := now env |} ;
    ret {| title := "Shift Created";
           toast_description :=
             "Successfully assigned shift to " ++ d_employeeName shiftData;
           destructive := false |} in
  match tryCatch body (ret (errorToast "Failed to create shift.")) st with
  | (st', Done t) => (st', Some t)
  | (st', Fail) => (st', None)
  end.

(** [handleDeleteShift], lines 146-173.  [shifts] is the page's state,
    as last delivered by the subscription. *)
Definition handleDeleteShift (env : Env) (user : User) (shifts : list Shift)
    (shiftId : string) (st : Store) : Store * option Toast :=
  let found := Js.find (fun s => String.eqb (shift_id s) shiftId) shifts in
  let body : M Toast :=
    await _ <- Service.deleteShift shiftId ;
    await _ <-
      match found with
      | Some sh =>
          addActivityLog
            {| log_type := shift_deleted;
               description :=
                 "Deleted " ++ shiftTypeName (type sh) ++ " shift for "
                 ++ employeeName sh ++ " on " ++ toLocaleDateString env (date sh);
               userId := user_id user;
               userName := user_name user;
               timestamp := now env |}
      | None => ret tt
      end ;
    ret {| title := "Shift Deleted";
           toast_description := "Shift has been removed from the schedule.";
           destructive := false |} in
  match tryCatch body (ret (errorToast "Failed to delete shift.")) st with
  | (st', Done t) => (st', Some t)
  | (st', Fail) => (st', None)
  end.

(** [handleDrop], lines 185-225.  [employees] and [draggedShift] are the
    page's state; the result is the store after the handler, the toast
    it showed, if any, and [draggedShift] as the handler leaves it. *)
Definition handleDrop (env : Env) (user : User) (employees : list User)
    (draggedShift : option Shift) (employeeId date : string) (st : Store)
    : Store * option Toast * option Shift :=
  match draggedShift with
  | None => (st, None, None)
  | Some dragged =>
      match Js.find (fun e : User => String.eqb (user_id e) employeeId) employees with
      | None => (st, None, Some dragged)
      | Some emp =>
          let short := shortId (user_name emp) in
          let body : M Toast :=
            await _ <- updateShift (shift_id dragged)
              {| p_employeeId := Some short;
                 p_employeeName := Some (user_name emp);
                 p_date := Some date;
                 p_type := None; p_startTime := None; p_endTime := None |} ;
            await _ <- addActivityLog
              {| log_type := shift_updated;
                 description :=
                   "Moved " ++ shiftTypeName (type dragged) ++ " shift from "
                   ++ employeeName dragged ++ " to " ++ user_name emp ++ " on "
                   ++ toLocaleDateString env date;
                 userId := user_id user;
                 userName := user_name user;
                 timestamp := now env |} ;
            ret {| title := "Shift Moved";
                   toast_description := "Shift successfully moved to " ++ user_name emp;
                   destructive := false |} in
          match tryCatch body (ret (errorToast "Failed to move shift.")) st with
          | (st', Done t) => (st', Some t, None)
          | (st', Fail) => (st', None, None)
          end
      end
  end.

(** [getEmployeeShiftCount], lines 229-231 *)
Definition getEmployeeShiftCount (shifts : list Shift) (ofEmployee : string) : nat :=
  length (List.filter (fun s => String.eqb (employeeId s) ofEmployee) shifts).

(** CreateShiftModal.tsx [handleTypeChange], lines 75-88: the start and
    end time the form is set to. *)
Definition handleTypeChange (newType : ShiftType) : string * string :=
  match newType with
  | day => ("08:00", "16:00")
  | afternoon => ("16:00", "00:00")
  | night => ("00:00", "08:00")
  end.

(** CreateShiftModal.tsx [handleSubmit], lines 47-65: what the form
    passes to [onConfirm], if anything. *)
Definition handleSubmit (employees : list User) (employeeId date : string)
    (type : ShiftType) (startTime endTime : string) : option ShiftData :=
  match Js.find (fun e : User => String.eqb (user_id e) employeeId) employees with
  | Some emp =>
      if Js.truthy date then
        Some {| d_employeeId := shortId (user_name emp);
                d_employeeName := user_name emp;
                d_date := date;
                d_type := type;
                d_startTime := startTime;
                d_endTime := endTime |}
      else None
  | None => None
  end.

End ManagerPage.

(** ** Seeding a generated schedule ([handleGenerateAndSeed], lines
    52-122 of the diagnostics page) *)

Module Seeding.

Import Diagnostics.
Local Open Scope store_scope.

(** What the handler reads from its surroundings: the host's zone, the
    random numbers, the ids the store client generates ([ids i] for the
    [i]-th document added), and the text a caught error is printed
    with. *)
Record Env := mkEnv {
  zone : JsDate.Zone;
  rnd : Generator.Random;
  ids : nat -> string;
  errorText : string;
}.






End Seeding.

(** ** Concrete data used by the examples below *)

Module Fixture.

Definition johnsShift : ShiftData :=
  {| d_employeeId := "john"; d_employeeName := "John Smith";
     d_date := "2024-11-27"; d_type := day;
     d_startTime := "08:00"; d_endTime := "16:00" |}.

Definition john : User :=
  {| user_id := "Qm3xJohnAccount00001"; user_email := "john@schedulo.com";
     user_name := "John Smith"; user_role := employee; user_password := None |}.

Definition sarah : User :=
  {| user_id := "Zk8pSarahAccount0002"; user_email := "sarah@schedulo.com";
     user_name := "Sarah Johnson"; user_role := employee; user_password := None |}.


Definition env : SwapEngine.Env :=
  {| SwapEngine.now := "2024-11-20T09:00:00.000Z";
     SwapEngine.newId := "swap1";
     SwapEngine.toLocaleDateString := fun d => d |}.

Definition request (st : SwapStatus) (snapshot : option Shift) : SwapRequestData :=
  {| fromEmployeeId := "john"; fromEmployeeName := "John Smith";
     toEmployeeId := "sarah"; toEmployeeName := "Sarah Johnson";
     shiftId := "shift1"; shift := snapshot;
     status := st; createdAt := "2024-11-20T09:00:00.000Z" |}.

(** John owns the day shift of 2024-11-27 and has asked Sarah to take
    it; the request is in state [st]. *)
Definition storeWith (owner : ShiftData) (st : SwapStatus) (snapshot : option Shift) : Store :=
  {| users := ∅;
     shifts := {[ "shift1" := owner ]};
     swapRequests := {[ "swap1" := request st snapshot ]};
     activityLogs := [] |}.

Definition snapshot : Shift := shiftOfDoc "shift1" johnsShift.

Definition pendingRequest : SwapRequest :=
  mkSwapRequest "swap1" (request pending (Some snapshot)).

Definition pendingStore : Store := storeWith johnsShift pending (Some snapshot).

(** The same request as the store delivers it without a snapshot. *)
Definition bareRequest : SwapRequest := mkSwapRequest "swap1" (request pending None).

Definition bareStore : Store := storeWith johnsShift pending None.




(** John is booked twice on 2024-11-27, for the day and for the night. *)
Definition johnsDay : Shift := shiftOfDoc "shift1" johnsShift.

Definition johnsNight : Shift :=
  {| shift_id := "shift2"; employeeId := "john"; employeeName := "John Smith";
     date := "2024-11-27"; type := night; startTime := "00:00"; endTime := "08:00" |}.


(** Scenario C: shifts of John and Sarah, and one request whose
    recipient field holds an account id. *)
Definition sarahsShift : ShiftData :=
  {| d_employeeId := "sarah"; d_employeeName := "Sarah Johnson";
     d_date := "2024-11-28"; d_type := afternoon;
     d_startTime := "16:00"; d_endTime := "00:00" |}.

Definition strayRequest : SwapRequestData :=
  {| fromEmployeeId := "john"; fromEmployeeName := "John Smith";
     toEmployeeId := "U8qG4fNEydUbNFcw4QxE"; toEmployeeName := "Sarah Johnson";
     shiftId := "shift1"; shift := Some snapshot;
     status := pending; createdAt := "2024-11-20T09:00:00.000Z" |}.

Definition scenarioC : Store :=
  {| users := ∅;
     shifts := <[ "shift1" := johnsShift ]> {[ "shift2" := sarahsShift ]};
     swapRequests := {[ "swap1" := strayRequest ]};
     activityLogs := [] |}.

(** Scenario C with a request whose requester field holds [from]. *)
Definition scenarioCFrom (from : string) : Store :=
  {| users := ∅;
     shifts := <[ "shift1" := johnsShift ]> {[ "shift2" := sarahsShift ]};
     swapRequests :=
       {[ "swap1" :=
            {| fromEmployeeId := from; fromEmployeeName := "John Smith";
               toEmployeeId := "U8qG4fNEydUbNFcw4QxE"; toEmployeeName := "Sarah Johnson";
               shiftId := "shift1"; shift := Some snapshot;
               status := pending; createdAt := "2024-11-20T09:00:00.000Z" |} ]};
     activityLogs := [] |}.

(** Three stored shifts; John's later shift has the smaller id. *)
Definition johnsLaterShift : ShiftData :=
  {| d_employeeId := "john"; d_employeeName := "John Smith";
     d_date := "2024-11-29"; d_type := night;
     d_startTime := "00:00"; d_endTime := "08:00" |}.

Definition threeShifts : Store :=
  {| users := ∅;
     shifts := <[ "a7" := johnsLaterShift ]>
                 (<[ "b1" := johnsShift ]> {[ "c3" := sarahsShift ]});
     swapRequests := ∅;
     activityLogs := [] |}.

(** A locale that compares strings byte by byte. *)
Definition bytewiseLocale (a b : string) : Z := signOf (byteCompare a b).

(** The collation of an English host locale, on text of ASCII letters,
    digits and hyphens: the strings are compared without regard to the
    case of their letters first; strings that differ in case only are
    ordered by their first difference, the small letter before the
    capital. *)
Definition englishLocale (a b : string) : Z :=
  match byteCompare (Js.toLowerCase a) (Js.toLowerCase b) with
  | Eq => signOf (byteCompare b a)
  | c => signOf c
  end.

(** Two shifts of John whose date fields hold free text. *)
Definition freeText (d : string) : ShiftData :=
  {| d_employeeId := "john"; d_employeeName := "John Smith";
     d_date := d; d_type := day; d_startTime := "08:00"; d_endTime := "16:00" |}.

Definition freeDates : Store :=
  {| users := ∅;
     shifts := <[ "s1" := freeText "a" ]> {[ "s2" := freeText "B" ]};
     swapRequests := ∅;
     activityLogs := [] |}.

(** Nora signs up on an empty database. *)
Definition noraSignup : Store * Auth.TestCredentials * Auth.SignupResult :=
  Auth.handleSignup "Nr7wNoraAccount00004" "Nora Quinn" "nora@schedulo.com" "s3cret"
    Auth.initialTestCredentials
    {| users := ∅; shifts := ∅; swapRequests := ∅; activityLogs := [] |}.


(** A schedule for three days on a host in UTC. *)
Definition utcSchedule : list Shift :=
  default [] (Generator.generateBalancedShifts JsDate.utcZone (fun n => n) 10
                "2024-02-28" "2024-03-01").


(** The accounts of John and Sarah are stored. *)
Definition twoUsers : Store :=
  {| users := <[ "Qm3xJohnAccount00001" := mkUserData "john@schedulo.com" "John Smith" employee None ]>
                {[ "Zk8pSarahAccount0002" :=
                     mkUserData "Sarah@Schedulo.com" "Sarah Johnson" employee None ]};
     shifts := ∅; swapRequests := ∅; activityLogs := [] |}.

(** John's shift is stored; no swap request is. *)
Definition orphanStore : Store :=
  {| users := ∅; shifts := {[ "shift1" := johnsShift ]};
     swapRequests := ∅; activityLogs := [] |}.

(** A host that keeps Indian Standard Time, five and a half hours ahead
    of UTC all year. *)
Definition kolkata : JsDate.Zone := {| JsDate.localTZA := fun _ _ => 19800000%Z |}.


(** The clock and the next document id when the manager adds a shift. *)
Definition managerEnv : SwapEngine.Env :=
  {| SwapEngine.now := "2024-11-19T08:15:00.000Z";
     SwapEngine.newId := "shift9";
     SwapEngine.toLocaleDateString := fun d => d |}.

(** The clock and the next document id when Sarah answers. *)
Definition laterEnv : SwapEngine.Env :=
  {| SwapEngine.now := "2024-11-21T10:30:00.000Z";
     SwapEngine.newId := "log7";
     SwapEngine.toLocaleDateString := fun d => d |}.

End Fixture.

(** ** Notions used to state further properties *)

Module Notions.

(** The string has no blank. *)
Fixpoint noSpace (s : string) : bool :=
  match s with
  | EmptyString => true
  | String c r => negb (Ascii.eqb c " ") && noSpace r
  end.

Definition isCapital (c : ascii) : bool :=
  let n := nat_of_ascii c in (65 <=? n)%nat && (n <=? 90)%nat.

(** The string has no ASCII capital letter. *)
Fixpoint noCapital (s : string) : bool :=
  match s with
  | EmptyString => true
  | String c r => negb (isCapital c) && noCapital r
  end.

(** Two characters that are equal, or the capital and the small form of
    one ASCII letter. *)
Definition eqCharNoCase (a b : ascii) : bool :=
  Ascii.eqb a b
  || (isCapital a && (nat_of_ascii b =? nat_of_ascii a + 32)%nat)
  || (isCapital b && (nat_of_ascii a =? nat_of_ascii b + 32)%nat).

(** Two strings of one length that agree, character by character, up to
    the case of ASCII letters. *)
Fixpoint eqNoCase (s t : string) : bool :=
  match s, t with
  | EmptyString, EmptyString => true
  | String a s', String b t' => eqCharNoCase a b && eqNoCase s' t'
  | _, _ => false
  end.

(** How many of the shifts carry the date [d]. *)
Definition shiftsOn (d : string) (l : list Shift) : nat :=
  length (List.filter (fun s => String.eqb (date s) d) l).

(** The shift is one the generator can make: no id yet, the times of
    its type, and a member of the staff list as its owner. *)
Definition staffShift (s : Shift) : Prop :=
  shift_id s = ""
  /\ (startTime s, endTime s) = Generator.SHIFT_TIMES (type s)
  /\ In (Generator.mkEmployee (employeeId s) (employeeName s)) Generator.EMPLOYEES.

(** The (owner, date) pairs of rounds given as (date, owners). *)
Definition pairsOf (B : list (string * list string)) : list (string * string) :=
  concat (List.map (fun b => List.map (fun i => (i, b.1)) b.2) B).

(** The assignment [summarizeShiftDistribution] files a shift under. *)
Definition toAssignment (s : Shift) : Generator.ShiftAssignment :=
  {| Generator.a_employeeId := employeeId s;
     Generator.a_employeeName := employeeName s;
     Generator.a_type := type s |}.

(** How many shifts a day's assignments give to each type. *)
Definition perDay (t : ShiftType) : nat :=
  match t with day => 2 | afternoon => 2 | night => 1 end.

(** [currentDate.toISOString().split('T')[0]], the date string of a
    round of the generator's loop. *)
Definition isoDate (t : Z) : string :=
  Js.first (Js.split "T"%char (JsDate.toISOString t)).

(** The host's zone has one offset from UTC at all times. *)
Definition fixedOffset (zone : JsDate.Zone) (c : Z) : Prop :=
  forall t isUTC, JsDate.localTZA zone t isUTC = c.

(** The year of the era that starts on 1 March: [yoe] counts from the
    March of a year divisible by 400, so that the leap day is the last
    day, number 365, of the years [yoe] with [yoe + 1] a leap year. *)
Definition leapBefore (yoe : Z) : Prop :=
  (yoe mod 4 = 3 /\ (yoe mod 100 <> 99 \/ yoe = 399))%Z.

(** The last [k] decimal digits of [x], as a string. *)
Fixpoint digitsOf (k : nat) (x : N) : string :=
  match k with
  | O => ""
  | S k' => digitsOf k' (x / 10)%N +:+ String (pretty_N_char (x mod 10)%N) ""
  end.

(** The decimal digit [k] as a character. *)
Definition digitChar (k : Z) : ascii := pretty_N_char (Z.to_N k).

(** The calendar date [YYYY-MM-DD] of a year, a month and a day. *)
Definition ymd (y m d : Z) : string :=
  String (digitChar (y / 1000)) (String (digitChar (y / 100 mod 10))
    (String (digitChar (y / 10 mod 10)) (String (digitChar (y mod 10))
      (String "-" (String (digitChar (m / 10)) (String (digitChar (m mod 10))
        (String "-" (String (digitChar (d / 10)) (String (digitChar (d mod 10)) ""))))))))).

(** The addresses of the stored users are ASCII text. *)
Definition asciiEmails (st : Store) : Prop :=
  forall k d, users st !! k = Some d -> Js.isAscii (u_email d) = true.

(** No two stored users have the same address, up to the case of
    ASCII letters. *)
Definition distinctEmails (st : Store) : Prop :=
  forall k1 k2 d1 d2,
    users st !! k1 = Some d1 -> users st !! k2 = Some d2 ->
    Js.toLowerCase (u_email d1) = Js.toLowerCase (u_email d2) -> k1 = k2.

End Notions.

(** * Properties *)

(** ** Identity *)

Example shortId_john : shortId "John Smith" = "john".
Proof. reflexivity. Qed.

Example shortId_single_token : shortId "Madonna" = "madonna".
Proof. reflexivity. Qed.

Example shortId_empty : shortId "" = "".
Proof. reflexivity. Qed.

(** Two employees with one first name have one short identifier. *)
Example shortId_collision : shortId "John Smith" = shortId "John Doe".
Proof. reflexivity. Qed.

(** ** Swap requests *)

Module SwapEngineProps.

Import SwapEngine.

(** What the handler does once the request is found, step by step. *)
Lemma handleSwapResponse_found env user reqs requestId accept st r :
  Js.find (fun r => String.eqb (request_id r) requestId) reqs = Some r ->
  forall st' t, handleSwapResponse env user reqs requestId accept st = (st', t) ->
  succeeded accept t ->
  exists st1 rd,
    (match accept, shift r with
     | true, Some s =>
         exists d, shifts st !! shift_id s = Some d
           /\ shifts st1 = <[shift_id s :=
                 mkShiftData (toEmployeeId r) (toEmployeeName r)
                   (d_date d) (d_type d) (d_startTime d) (d_endTime d)]> (shifts st)
     | _, _ => shifts st1 = shifts st
     end)
    /\ swapRequests st1 = swapRequests st
    /\ activityLogs st1 = activityLogs st
    /\ swapRequests st !! requestId = Some rd
    /\ shifts st' = shifts st1
    /\ swapRequests st' =
         <[requestId := setStatus (if accept then accepted else declined) rd]> (swapRequests st)
    /\ activityLogs st' =
         (activityLogs st ++
          [ {| log_type := if accept then swap_accepted else swap_declined;
               description :=
                 user_name user ++ " " ++ (if accept then "accepted" else "declined")
                 ++ " swap request from " ++ fromEmployeeName r;
               userId := user_id user;
               userName := user_name user;
               timestamp := now env |} ])%list.
Proof.
  intros Hfind st' t Hrun Hok.
  unfold handleSwapResponse in Hrun. rewrite Hfind in Hrun.
  unfold succeeded in Hok.
  unfold tryCatch, bind, updateShift, updateSwapRequest, addActivityLog, ret in Hrun.
  destruct accept; [destruct (shift r) as [s|] eqn:Hs|].
  - destruct (shifts st !! shift_id s) as [d|] eqn:Hd; simpl in Hrun;
      [|inversion Hrun; subst; discriminate].
    destruct (swapRequests st !! requestId) as [rd|] eqn:Hrd; simpl in Hrun;
      inversion Hrun; subst; [|discriminate].
    exists {| users := users st;
              shifts := <[shift_id s :=
                 mkShiftData (toEmployeeId r) (toEmployeeName r)
                   (d_date d) (d_type d) (d_startTime d) (d_endTime d)]> (shifts st);
              swapRequests := swapRequests st;
              activityLogs := activityLogs st |}, rd. simpl.
    split; [exists d; split; reflexivity|]. done.
  - simpl in Hrun.
    destruct (swapRequests st !! requestId) as [rd|] eqn:Hrd; simpl in Hrun;
      inversion Hrun; subst; [|discriminate].
    exists st, rd. done.
  - simpl in Hrun.
    destruct (swapRequests st !! requestId) as [rd|] eqn:Hrd; simpl in Hrun;
      inversion Hrun; subst; [|discriminate].
    exists st, rd. done.
Qed.

(** C1.  Accept-transfer: when [handleSwapResponse(requestId, true)] finds
    the request with its shift snapshot and completes (it announces
    "Swap Accepted"), the stored shift the snapshot points to is owned by
    the request's recipient, short identifier and display name, and its
    date, type, start and end times are what they were before.  The
    subscription hands the page the requests addressed to the short
    identifier of its user, and for such a request the new owner is that
    identifier. *)
Theorem accept_transfers_ownership env user reqs requestId st st' t r s :
  Js.find (fun r => String.eqb (request_id r) requestId) reqs = Some r ->
  status r = pending ->
  shift r = Some s ->
  handleSwapResponse env user reqs requestId true st = (st', t) ->
  succeeded true t ->
  exists before after,
    shifts st !! shift_id s = Some before
    /\ shifts st' !! shift_id s = Some after
    /\ d_employeeId after = toEmployeeId r
    /\ d_employeeName after = toEmployeeName r
    /\ d_date after = d_date before
    /\ d_type after = d_type before
    /\ d_startTime after = d_startTime before
    /\ d_endTime after = d_endTime before
    /\ (toEmployeeId r = shortId (user_name user) ->
        d_employeeId after = shortId (user_name user)).
Proof.
  intros Hfind _ Hs Hrun Hok.
  destruct (handleSwapResponse_found _ _ _ _ _ _ _ Hfind _ _ Hrun Hok)
    as (st1 & rd & Hsh & _ & _ & _ & Hsh' & _).
  rewrite Hs in Hsh. destruct Hsh as (d & Hd & Hsh).
  exists d. eexists. split; [exact Hd|].
  rewrite Hsh', Hsh, lookup_insert_eq. repeat split. done.
Qed.

Lemma accept_transfers_ownership_witness :
  exists before after,
    shifts Fixture.pendingStore !! "shift1" = Some before
    /\ shifts (handleSwapResponse Fixture.env Fixture.sarah [Fixture.pendingRequest]
                 "swap1" true Fixture.pendingStore).1 !! "shift1" = Some after
    /\ d_employeeId after = "sarah"
    /\ d_employeeName after = "Sarah Johnson"
    /\ d_date after = d_date before
    /\ d_type after = d_type before
    /\ d_startTime after = d_startTime before
    /\ d_endTime after = d_endTime before
    /\ (toEmployeeId Fixture.pendingRequest = shortId (user_name Fixture.sarah) ->
        d_employeeId after = shortId (user_name Fixture.sarah)).
Proof.
  apply (accept_transfers_ownership Fixture.env Fixture.sarah [Fixture.pendingRequest]
           "swap1" Fixture.pendingStore
           (handleSwapResponse Fixture.env Fixture.sarah [Fixture.pendingRequest]
              "swap1" true Fixture.pendingStore).1
           (handleSwapResponse Fixture.env Fixture.sarah [Fixture.pendingRequest]
              "swap1" true Fixture.pendingStore).2
           Fixture.pendingRequest Fixture.snapshot).
  - reflexivity.
  - reflexivity.
  - reflexivity.
  - apply surjective_pairing.
  - vm_compute. reflexivity.
Defined.

(** C9.  Accepting a request that reached the page without its shift
    snapshot: no shift document is written, yet the status of the stored
    request becomes [accepted] (its other fields stay), a [swap_accepted]
    entry is appended to the activity log, and the user is told the swap
    succeeded. *)
Theorem accept_without_snapshot env user reqs requestId st r rd :
  Js.find (fun r => String.eqb (request_id r) requestId) reqs = Some r ->
  status r = pending ->
  shift r = None ->
  swapRequests st !! requestId = Some rd ->
  exists st' t entry,
    handleSwapResponse env user reqs requestId true st = (st', t)
    /\ succeeded true t
    /\ shifts st' = shifts st
    /\ swapRequests st' !! requestId
       = Some {| fromEmployeeId := fromEmployeeId rd;
                 fromEmployeeName := fromEmployeeName rd;
                 toEmployeeId := toEmployeeId rd;
                 toEmployeeName := toEmployeeName rd;
                 shiftId := shiftId rd;
                 shift := shift rd;
                 status := accepted;
                 createdAt := createdAt rd |}
    /\ option_map status (swapRequests st' !! requestId) = Some accepted
    /\ activityLogs st' = (activityLogs st ++ [entry])%list
    /\ log_type entry = swap_accepted.
Proof.
  intros Hfind _ Hs Hrd.
  unfold handleSwapResponse. rewrite Hfind, Hs.
  unfold tryCatch, bind, updateSwapRequest, addActivityLog, ret. simpl.
  rewrite Hrd. simpl.
  eexists _, _, _. split; [reflexivity|]. simpl.
  rewrite lookup_insert_eq. repeat split.
Qed.

Lemma accept_without_snapshot_witness :
  exists st' t entry,
    handleSwapResponse Fixture.env Fixture.sarah [Fixture.bareRequest]
      "swap1" true Fixture.bareStore = (st', t)
    /\ succeeded true t
    /\ shifts st' = shifts Fixture.bareStore
    /\ swapRequests st' !! "swap1" = Some (Fixture.request accepted None)
    /\ option_map status (swapRequests st' !! "swap1") = Some accepted
    /\ activityLogs st' = (activityLogs Fixture.bareStore ++ [entry])%list
    /\ log_type entry = swap_accepted.
Proof.
  apply (accept_without_snapshot Fixture.env Fixture.sarah [Fixture.bareRequest]
           "swap1" Fixture.bareStore Fixture.bareRequest (Fixture.request pending None)).
  - reflexivity.
  - reflexivity.
  - reflexivity.
  - reflexivity.
Defined.







End SwapEngineProps.

(** ** Sorting *)

Module SortProps.

Section InsertionSort.
Context {A : Type} (compareFn : A -> A -> Z).

Lemma insertSorted_perm x l : Permutation (Js.insertSorted compareFn x l) (x :: l).
Proof.
  induction l as [|y r IH]; simpl; [reflexivity|].
  destruct (0 <? compareFn x y)%Z; [|reflexivity].
  rewrite IH. apply perm_swap.
Qed.

Lemma sort_perm l : Permutation (Js.sort compareFn l) l.
Proof.
  induction l as [|x r IH]; simpl; [reflexivity|].
  rewrite insertSorted_perm. by constructor.
Qed.

(** Inserting keeps a list sorted for [R] when the comparator sends
    [x] behind [y] only if [R y x], and lets [x] stay in front of [y]
    only if [R x y], for the elements [y] of the list. *)
Lemma insertSorted_sorted (R : A -> A -> Prop) x l :
  Transitive R ->
  (forall y, In y l -> (0 <? compareFn x y)%Z = true -> R y x) ->
  (forall y, In y l -> (0 <? compareFn x y)%Z = false -> R x y) ->
  StronglySorted R l ->
  StronglySorted R (Js.insertSorted compareFn x l).
Proof.
  intros HT. induction l as [|y r IH]; intros Hgt Hle Hs; simpl.
  - constructor; constructor.
  - apply StronglySorted_inv in Hs as [Hr Hy].
    destruct (0 <? compareFn x y)%Z eqn:Hc.
    + constructor.
      * apply IH; [intros; apply Hgt|intros; apply Hle|]; simpl; auto.
      * rewrite List.Forall_forall. intros z Hz.
        apply (Permutation_in _ (insertSorted_perm x r)) in Hz as [<-|Hz].
        -- apply Hgt; simpl; auto.
        -- rewrite List.Forall_forall in Hy. by apply Hy.
    + constructor; [by constructor|].
      assert (Hxy : R x y) by (apply Hle; simpl; auto).
      constructor; [exact Hxy|].
      rewrite List.Forall_forall in Hy. rewrite List.Forall_forall. intros z Hz.
      transitivity y; auto.
Qed.
End InsertionSort.

(** Sorting commutes with a map that respects the comparator. *)
Lemma sort_map {A B} (f : A -> B) (ca : A -> A -> Z) (cb : B -> B -> Z) l :
  (forall a b, cb (f a) (f b) = ca a b) ->
  List.map f (Js.sort ca l) = Js.sort cb (List.map f l).
Proof.
  intros Hc. induction l as [|x r IH]; simpl; [reflexivity|].
  rewrite <- IH. generalize (Js.sort ca r). intros l'.
  induction l' as [|y r' IH']; simpl; [reflexivity|].
  rewrite Hc. destruct (0 <? ca x y)%Z; simpl; [by rewrite IH'|reflexivity].
Qed.

(** Two sorted lists with the same elements are the same list, if [R]
    tells the elements apart. *)
Lemma sorted_perm_eq {A} (R : A -> A -> Prop) (l1 l2 : list A) :
  (forall a b, In a l1 -> In b l1 -> R a b -> R b a -> a = b) ->
  StronglySorted R l1 -> StronglySorted R l2 -> Permutation l1 l2 -> l1 = l2.
Proof.
  revert l2. induction l1 as [|x t1 IH]; intros l2 Hanti H1 H2 Hp.
  - apply Permutation_nil in Hp. by subst.
  - destruct l2 as [|y t2].
    { apply Permutation_sym, Permutation_nil in Hp. discriminate. }
    apply StronglySorted_inv in H1 as [Ht1 Hx].
    apply StronglySorted_inv in H2 as [Ht2 Hy].
    rewrite List.Forall_forall in Hx, Hy.
    assert (Hxy : x = y).
    { assert (Hyin : In y (x :: t1))
        by (apply (Permutation_in _ (Permutation_sym Hp)); simpl; auto).
      assert (Hxin : In x (y :: t2))
        by (apply (Permutation_in _ Hp); simpl; auto).
      destruct Hyin as [Heq|Hyin]; [done|].
      destruct Hxin as [Heq|Hxin]; [done|].
      apply Hanti; simpl; auto. }
    subst y. f_equal.
    apply IH; auto.
    + intros a b Ha Hb. apply Hanti; simpl; auto.
    + by apply Permutation_cons_inv in Hp.
Qed.

(** *** The byte order of strings *)

Lemma byteCompare_refl a : byteCompare a a = Eq.
Proof.
  unfold byteCompare.
  destruct (String_as_OT.compare_spec a a) as [_|H|H]; [reflexivity| |];
    by apply (StrictOrder_Irreflexive (R := String_as_OT.lt)) in H.
Qed.

Lemma byteCompare_eq a b : byteCompare a b = Eq -> a = b.
Proof.
  unfold byteCompare. intros H.
  destruct (String_as_OT.compare_spec a b) as [E|_|_]; [exact E|discriminate..].
Qed.

Lemma byteCompare_gt_lt a b : byteCompare a b = Gt -> byteCompare b a = Lt.
Proof.
  unfold byteCompare. intros H.
  destruct (String_as_OT.compare_spec a b) as [_|_|L]; [discriminate..|exact L].
Qed.

Lemma byteCompare_lt_gt a b : byteCompare a b = Lt -> byteCompare b a = Gt.
Proof.
  unfold byteCompare. intros H.
  destruct (String_as_OT.compare_spec b a) as [E|L|_]; [| |reflexivity].
  - subst. pose proof (byteCompare_refl a) as R. unfold byteCompare in R. congruence.
  - exfalso. apply (StrictOrder_Irreflexive (R := String_as_OT.lt) a).
    by transitivity b.
Qed.

Lemma byteCompare_lt_trans a b c :
  byteCompare a b = Lt -> byteCompare b c = Lt -> byteCompare a c = Lt.
Proof.
  unfold byteCompare. intros H1 H2.
  exact (StrictOrder_Transitive (R := String_as_OT.lt) a b c H1 H2).
Qed.

#[export] Instance byteLe_trans : Transitive byteLe.
Proof.
  intros a b c Hab Hbc. unfold byteLe in *.
  destruct (byteCompare a b) eqn:E1; [|  |done].
  - apply byteCompare_eq in E1. by subst.
  - destruct (byteCompare b c) eqn:E2; [| |done].
    + apply byteCompare_eq in E2. subst. by rewrite E1.
    + by rewrite (byteCompare_lt_trans _ _ _ E1 E2).
Qed.

Lemma signOf_pos c : (0 <? signOf c)%Z = true <-> c = Gt.
Proof. destruct c; vm_compute; split; intros H; congruence. Qed.

Lemma signOf_nonpos c : (0 <? signOf c)%Z = false <-> c <> Gt.
Proof. destruct c; vm_compute; split; intros H; congruence. Qed.

(** A collection read without [orderBy] comes by ascending id. *)
Lemma docsById_perm {D} (c : gmap string D) : Permutation (docsById c) (map_to_list c).
Proof. apply sort_perm. Qed.

Lemma docsById_sorted {D} (c : gmap string D) :
  StronglySorted (fun a b => byteLe a.1 b.1) (docsById c).
Proof.
  unfold docsById, inOrder. induction (map_to_list c) as [|x r IH]; simpl; [constructor|].
  apply insertSorted_sorted; auto.
  - intros a b d Hab Hbd. by transitivity b.1.
  - intros y _ Hc. apply signOf_pos in Hc. unfold byteLe.
    by rewrite (byteCompare_gt_lt _ _ Hc).
  - intros y _ Hc. by apply signOf_nonpos in Hc.
Qed.

Lemma docsById_NoDup {D} (c : gmap string D) : NoDup (List.map fst (docsById c)).
Proof.
  assert (H : Permutation (List.map fst (docsById c)) (List.map fst (map_to_list c)))
    by apply Permutation_map, docsById_perm.
  rewrite H. exact (NoDup_fst_map_to_list c).
Qed.

Lemma docsById_In {D} (c : gmap string D) k d :
  In (k, d) (docsById c) <-> c !! k = Some d.
Proof.
  rewrite <- elem_of_map_to_list, <- list_elem_of_In.
  split; intros H.
  - by rewrite <- (docsById_perm c).
  - by rewrite (docsById_perm c).
Qed.

End SortProps.

(** ** Shifts of one employee *)

Module ShiftQueryProps.

Import ShiftQuery SortProps.

Lemma byDateThenId_cases a b :
  byDateThenId a b <->
  byteCompare (date a) (date b) = Lt
  \/ (date a = date b /\ byteLe (shift_id a) (shift_id b)).
Proof.
  unfold byDateThenId, shiftDateThenId, byteLe.
  destruct (byteCompare (date a) (date b)) eqn:E; split.
  - intros H. right. split; [by apply byteCompare_eq|exact H].
  - intros [H|[_ H]]; [discriminate|exact H].
  - intros _. by left.
  - done.
  - done.
  - intros [H|[H _]]; [discriminate|].
    rewrite H, byteCompare_refl in E. discriminate.
Qed.

#[local] Instance byDateThenId_trans : Transitive byDateThenId.
Proof.
  intros a b c. rewrite !byDateThenId_cases.
  intros [H1|[H1 H1']] [H2|[H2 H2']].
  - left. by eapply byteCompare_lt_trans.
  - left. by rewrite <- H2.
  - left. by rewrite H1.
  - right. split; [congruence|]. by transitivity (shift_id b).
Qed.

Lemma byDateThenId_total a b : shiftDateThenId a b = Gt -> byDateThenId b a.
Proof.
  unfold shiftDateThenId. intros H. apply byDateThenId_cases.
  destruct (byteCompare (date a) (date b)) eqn:E.
  - right. apply byteCompare_eq in E. split; [done|].
    unfold byteLe. by rewrite (byteCompare_gt_lt _ _ H).
  - discriminate.
  - left. by apply byteCompare_gt_lt.
Qed.

Lemma byDateThenId_antisym a b :
  byDateThenId a b -> byDateThenId b a -> shift_id a = shift_id b.
Proof.
  rewrite !byDateThenId_cases. intros [H1|[H1 H1']] [H2|[H2 H2']].
  - apply byteCompare_lt_gt in H1. congruence.
  - rewrite H2, byteCompare_refl in H1. discriminate.
  - rewrite H1, byteCompare_refl in H2. discriminate.
  - unfold byteLe in *. destruct (byteCompare (shift_id a) (shift_id b)) eqn:E.
    + by apply byteCompare_eq.
    + apply byteCompare_lt_gt in E. done.
    + done.
Qed.

Lemma ordered_sort_sorted (l : list Shift) :
  StronglySorted byDateThenId (Js.sort (fun a b => signOf (shiftDateThenId a b)) l).
Proof.
  induction l as [|x r IH]; simpl; [constructor|].
  apply insertSorted_sorted; auto using byDateThenId_trans.
  - intros y _ Hc. apply signOf_pos in Hc. by apply byDateThenId_total.
  - intros y _ Hc. by apply signOf_nonpos in Hc.
Qed.

Lemma filter_perm {A} (f : A -> bool) (l l' : list A) :
  Permutation l l' -> Permutation (List.filter f l) (List.filter f l').
Proof.
  induction 1 as [|x l l' _ IH|x y l|l l' l'' _ IH1 _ IH2]; simpl.
  - reflexivity.
  - destruct (f x); [by constructor|done].
  - destruct (f x), (f y); try reflexivity. apply perm_swap.
  - by transitivity (List.filter f l').
Qed.

Lemma filter_sorted {A} (R : A -> A -> Prop) (f : A -> bool) (l : list A) :
  StronglySorted R l -> StronglySorted R (List.filter f l).
Proof.
  induction 1 as [|x l Hl IH Hx]; simpl; [constructor|].
  destruct (f x); [|exact IH].
  constructor; [exact IH|].
  rewrite List.Forall_forall in Hx. rewrite List.Forall_forall.
  intros y Hy. apply List.filter_In in Hy as [Hy _]. by apply Hx.
Qed.

Lemma map_sorted {A B} (R : B -> B -> Prop) (g : A -> B) (l : list A) :
  StronglySorted (fun a b => R (g a) (g b)) l -> StronglySorted R (List.map g l).
Proof.
  induction 1 as [|x l Hl IH Hx]; simpl; constructor; [exact IH|].
  rewrite List.Forall_forall in Hx. rewrite List.Forall_forall.
  intros y Hy. apply List.in_map_iff in Hy as (a & <- & Ha). by apply Hx.
Qed.

Section Fallback.
Variable localeCompare : string -> string -> Z.
Hypothesis collates : collatesDates localeCompare.

(** The client-side sort of a list that comes by ascending id puts it
    in the order of the ordered query. *)
Lemma locale_sort_sorted (l : list Shift) :
  StronglySorted (fun a b => byteLe (shift_id a) (shift_id b)) l ->
  (forall s, In s l -> isCalendarDate (date s) = true) ->
  StronglySorted byDateThenId
    (Js.sort (fun a b => localeCompare (date a) (date b)) l).
Proof.
  induction 1 as [|x r Hr IH Hx]; intros Hiso; simpl; [constructor|].
  assert (Hperm := sort_perm (fun a b => localeCompare (date a) (date b)) r).
  apply insertSorted_sorted; auto using byDateThenId_trans.
  - intros y Hy Hc. apply Z.ltb_lt in Hc.
    apply byDateThenId_cases. left. apply byteCompare_gt_lt.
    rewrite <- collates.
    + by apply Z.compare_gt_iff.
    + apply Hiso. simpl. auto.
    + apply Hiso. right. by apply (Permutation_in _ Hperm).
  - intros y Hy Hc. apply Z.ltb_ge in Hc.
    apply (Permutation_in _ Hperm) in Hy.
    apply byDateThenId_cases.
    assert (Hd : byteCompare (date x) (date y) <> Gt).
    { rewrite <- collates; [|apply Hiso; simpl; auto..].
      intros Hgt. apply Z.compare_gt_iff in Hgt. lia. }
    destruct (byteCompare (date x) (date y)) eqn:E; [|by left|done].
    right. split; [by apply byteCompare_eq|].
    rewrite List.Forall_forall in Hx. by apply Hx.
  - apply IH. intros s Hs. apply Hiso. simpl. auto.
Qed.
End Fallback.

Lemma NoDup_ids_filter (f : string * ShiftData -> bool) (l : list (string * ShiftData)) :
  NoDup (List.map fst l) ->
  NoDup (List.map shift_id (List.map (fun d => shiftOfDoc d.1 d.2) (List.filter f l))).
Proof.
  induction l as [|[k d] r IH]; simpl; [constructor|].
  rewrite NoDup_cons. intros [Hk Hr].
  destruct (f (k, d)); simpl; [|by apply IH].
  apply NoDup_cons. split; [|by apply IH].
  rewrite list_elem_of_In in *. intros Hin. apply Hk.
  rewrite List.map_map in Hin. simpl in Hin.
  apply List.in_map_iff in Hin as ([k' d'] & <- & Hin).
  apply List.filter_In in Hin as [Hin _].
  apply List.in_map_iff. by exists (k', d').
Qed.

Lemma NoDup_ids_inj (l : list Shift) a b :
  NoDup (List.map shift_id l) -> In a l -> In b l -> shift_id a = shift_id b -> a = b.
Proof.
  induction l as [|x r IH]; simpl; [done|].
  rewrite NoDup_cons, list_elem_of_In. intros [Hx Hr] [->|Ha] [->|Hb] Hid; auto.
  - exfalso. apply Hx. rewrite Hid. by apply List.in_map.
  - exfalso. apply Hx. rewrite <- Hid. by apply List.in_map.
Qed.

Lemma occurrences_one (l : list Shift) x :
  NoDup (List.map shift_id l) -> In x l -> occurrences (shift_id x) l = 1%nat.
Proof.
  unfold occurrences. induction l as [|y r IH]; simpl; [done|].
  rewrite NoDup_cons, list_elem_of_In. intros [Hy Hr] [->|Hx].
  - rewrite String.eqb_refl. simpl. f_equal.
    destruct (List.filter (fun s => String.eqb (shift_id s) (shift_id x)) r)
      as [|z q] eqn:E; [done|].
    assert (Hz : In z (z :: q)) by (simpl; auto).
    rewrite <- E in Hz. apply List.filter_In in Hz as [Hz Hid].
    apply String.eqb_eq in Hid. exfalso. apply Hy. rewrite <- Hid.
    by apply List.in_map.
  - destruct (String.eqb (shift_id y) (shift_id x)) eqn:E; [|by apply IH].
    apply String.eqb_eq in E. exfalso. apply Hy. rewrite E. by apply List.in_map.
Qed.

Section Paths.
Variable localeCompare : string -> string -> Z.

Lemma indexedPath_perm c owner : Permutation (indexedPath c owner) (matching c owner).
Proof. apply Permutation_map, sort_perm. Qed.

Lemma fallbackPath_perm c owner : Permutation (fallbackPath localeCompare c owner) (matching c owner).
Proof.
  unfold fallbackPath. rewrite sort_perm.
  apply Permutation_map, filter_perm, docsById_perm.
Qed.

Lemma matching_NoDup c owner : NoDup (List.map shift_id (matching c owner)).
Proof. apply NoDup_ids_filter, (NoDup_fst_map_to_list c). Qed.

Lemma matching_In c owner s :
  In s (matching c owner) <->
  exists d, c !! shift_id s = Some d /\ s = shiftOfDoc (shift_id s) d
            /\ d_employeeId d = owner.
Proof.
  unfold matching. rewrite List.in_map_iff. split.
  - intros ([k d] & <- & Hin). apply List.filter_In in Hin as [Hin Ho].
    apply list_elem_of_In, elem_of_map_to_list in Hin.
    apply String.eqb_eq in Ho. exists d. auto.
  - intros (d & Hd & Hs & Ho). exists (shift_id s, d). split; [by rewrite Hs|].
    apply List.filter_In. split.
    + by apply list_elem_of_In, elem_of_map_to_list.
    + by apply String.eqb_eq.
Qed.

Lemma indexedPath_sorted c owner : StronglySorted byDateThenId (indexedPath c owner).
Proof.
  unfold indexedPath, queryWhereOrderByDate, inOrder.
  rewrite (sort_map (fun d => shiftOfDoc d.1 d.2) _
             (fun a b => signOf (shiftDateThenId a b))); [|done].
  apply ordered_sort_sorted.
Qed.

Lemma fallbackPath_sorted c owner :
  collatesDates localeCompare ->
  (forall docId d, c !! docId = Some d -> isCalendarDate (d_date d) = true) ->
  StronglySorted byDateThenId (fallbackPath localeCompare c owner).
Proof.
  intros Hlc Hiso. apply locale_sort_sorted; [done| |].
  - apply (map_sorted (fun a b => byteLe (shift_id a) (shift_id b))
             (fun d => shiftOfDoc d.1 d.2)).
    apply filter_sorted, docsById_sorted.
  - intros s Hs. apply List.in_map_iff in Hs as ([k d] & <- & Hin).
    apply List.filter_In in Hin as [Hin _]. apply docsById_In in Hin.
    simpl. by eapply Hiso.
Qed.

Lemma byDateThenId_dateAscending l : StronglySorted byDateThenId l -> dateAscending l.
Proof.
  unfold dateAscending.
  induction 1 as [|x r Hr IH Hx]; constructor; [exact IH|].
  rewrite List.Forall_forall in Hx. rewrite List.Forall_forall.
  intros y Hy. apply Hx, byDateThenId_cases in Hy as [Hy|[Hy _]].
  - by rewrite Hy.
  - by rewrite Hy, byteCompare_refl.
Qed.

(** C4, as the specification has it, fails: the date of a shift is any
    string, and on two shifts of John dated "a" and "B" the two paths
    disagree.  The store orders "B" before "a", by bytes; the host's
    [localeCompare] orders "a" before "B", by letters. *)
Lemma fallback_order_counterexample :
  Fixture.englishLocale "a" "B" = (-1)%Z
  /\ getShiftsByEmployee Fixture.englishLocale Served "john" Fixture.freeDates
     = (Fixture.freeDates,
        Done [shiftOfDoc "s2" (Fixture.freeText "B"); shiftOfDoc "s1" (Fixture.freeText "a")])
  /\ getShiftsByEmployee Fixture.englishLocale (Rejected "failed-precondition") "john"
       Fixture.freeDates
     = (Fixture.freeDates,
        Done [shiftOfDoc "s1" (Fixture.freeText "a"); shiftOfDoc "s2" (Fixture.freeText "B")]).
Proof. vm_compute. repeat split. Qed.

(** C4, amended.  With a store whose shifts carry calendar dates
    ([YYYY-MM-DD]), which the host's locale collates as the store orders
    them: whether the ordered and filtered query is served or rejected
    with 'failed-precondition', [getShiftsByEmployee] returns the same
    list, in ascending order of date.  Whatever the dates and the locale,
    a shift added for the owner is in the result of either path exactly
    once. *)
Theorem fallback_matches_indexed_query owner st :
  (collatesDates localeCompare ->
   (forall docId d, shifts st !! docId = Some d -> isCalendarDate (d_date d) = true) ->
   exists l,
     getShiftsByEmployee localeCompare Served owner st = (st, Done l)
     /\ getShiftsByEmployee localeCompare (Rejected "failed-precondition") owner st
        = (st, Done l)
     /\ dateAscending l)
  /\ forall newId d q,
       d_employeeId d = owner ->
       q = Served \/ q = Rejected "failed-precondition" ->
       exists st2 l2,
         addShift newId d st = (st2, Done newId)
         /\ getShiftsByEmployee localeCompare q owner st2 = (st2, Done l2)
         /\ In (shiftOfDoc newId d) l2
         /\ occurrences newId l2 = 1%nat.
Proof.
  split.
  - intros Hlc Hiso. exists (indexedPath (shifts st) owner).
    split; [reflexivity|]. split.
    + unfold getShiftsByEmployee. simpl. do 2 f_equal.
      change (fallbackPath localeCompare (shifts st) owner = indexedPath (shifts st) owner).
      apply (sorted_perm_eq byDateThenId).
      * intros a b Ha Hb Hab Hba.
        apply (Permutation_in _ (fallbackPath_perm _ _)) in Ha, Hb.
        eapply NoDup_ids_inj; eauto using matching_NoDup, byDateThenId_antisym.
      * by apply fallbackPath_sorted.
      * apply indexedPath_sorted.
      * rewrite fallbackPath_perm. symmetry. apply indexedPath_perm.
    + apply byDateThenId_dateAscending, indexedPath_sorted.
  - intros newId d q Ho Hq.
    set (c2 := <[newId := d]> (shifts st)).
    assert (Hin : In (shiftOfDoc newId d) (matching c2 owner)).
    { apply matching_In. exists d. simpl. split; [apply lookup_insert_eq|done]. }
    destruct Hq as [-> | ->]; (eexists _, _; split; [reflexivity|]);
      (split; [reflexivity|]); simpl; fold c2.
    + change (In (shiftOfDoc newId d) (indexedPath c2 owner)
              /\ occurrences newId (indexedPath c2 owner) = 1%nat).
      assert (Hin' : In (shiftOfDoc newId d) (indexedPath c2 owner))
        by (by apply (Permutation_in _ (Permutation_sym (indexedPath_perm _ _)))).
      split; [exact Hin'|].
      apply (occurrences_one _ (shiftOfDoc newId d)); [|exact Hin'].
      rewrite (Permutation_map shift_id (indexedPath_perm c2 owner)).
      apply matching_NoDup.
    + change (In (shiftOfDoc newId d) (fallbackPath localeCompare c2 owner)
              /\ occurrences newId (fallbackPath localeCompare c2 owner) = 1%nat).
      assert (Hin' : In (shiftOfDoc newId d) (fallbackPath localeCompare c2 owner))
        by (by apply (Permutation_in _ (Permutation_sym (fallbackPath_perm _ _)))).
      split; [exact Hin'|].
      apply (occurrences_one _ (shiftOfDoc newId d)); [|exact Hin'].
      rewrite (Permutation_map shift_id (fallbackPath_perm c2 owner)).
      apply matching_NoDup.
Qed.
End Paths.

Lemma bytewiseLocale_collates : collatesDates Fixture.bytewiseLocale.
Proof.
  intros a b _ _. unfold Fixture.bytewiseLocale.
  by destruct (byteCompare a b).
Qed.

Lemma digit_lower c : isDigit c = true -> Js.lowerAscii c = c.
Proof.
  unfold isDigit, Js.lowerAscii. intros H. apply andb_true_iff in H as [_ H].
  apply Nat.leb_le in H.
  replace (65 <=? nat_of_ascii c)%nat with false; [done|].
  symmetry. apply Nat.leb_gt. lia.
Qed.

(** A calendar date has no letter, so lowering it changes nothing. *)
Lemma calendarDate_lower s : isCalendarDate s = true -> Js.toLowerCase s = s.
Proof.
  unfold isCalendarDate. intros H.
  do 11 (destruct s as [|? s]; try discriminate H). simpl in H.
  repeat match goal with
         | H : _ && _ = true |- _ => apply andb_true_iff in H as [? ?]
         end.
  repeat match goal with
         | H : Ascii.eqb _ _ = true |- _ => apply Ascii.eqb_eq in H; subst
         end.
  cbn [Js.toLowerCase].
  repeat match goal with
         | H : isDigit ?c = true |- _ => rewrite (digit_lower c H); clear H
         end.
  reflexivity.
Qed.

(** On calendar dates the English collation is the order of the store. *)
Lemma englishLocale_collates : collatesDates Fixture.englishLocale.
Proof.
  intros a b Ha Hb. unfold Fixture.englishLocale.
  rewrite (calendarDate_lower a Ha), (calendarDate_lower b Hb).
  destruct (byteCompare a b) eqn:E; [|done..].
  apply byteCompare_eq in E. subst. by rewrite byteCompare_refl.
Qed.

Lemma fallback_matches_indexed_query_witness :
  exists l,
    getShiftsByEmployee Fixture.englishLocale Served "john" Fixture.threeShifts
    = (Fixture.threeShifts, Done l)
    /\ getShiftsByEmployee Fixture.englishLocale (Rejected "failed-precondition")
         "john" Fixture.threeShifts
       = (Fixture.threeShifts, Done l)
    /\ dateAscending l.
Proof.
  apply (proj1 (fallback_matches_indexed_query Fixture.englishLocale "john"
                  Fixture.threeShifts)).
  - exact englishLocale_collates.
  - intros docId d Hd. simpl in Hd.
    apply lookup_insert_Some in Hd as [[_ <-]|[_ Hd]]; [reflexivity|].
    apply lookup_insert_Some in Hd as [[_ <-]|[_ Hd]]; [reflexivity|].
    apply lookup_singleton_Some in Hd as [_ <-]. reflexivity.
Defined.

(** What the two paths return for the three stored shifts. *)
Example three_shifts_of_john :
  List.map shift_id (indexedPath (shifts Fixture.threeShifts) "john") = ["b1"; "a7"]
  /\ List.map shift_id
       (fallbackPath Fixture.bytewiseLocale (shifts Fixture.threeShifts) "john")
     = ["b1"; "a7"].
Proof. vm_compute. split; reflexivity. Qed.

End ShiftQueryProps.

(** ** The shift generator *)

Module GeneratorProps.

Import Generator.

Lemma swap_perm {A} (arr : list A) i j : Permutation (swap arr i j) arr.
Proof.
  unfold swap. destruct (arr !! i) as [ai|] eqn:Hi; [|reflexivity].
  destruct (arr !! j) as [aj|] eqn:Hj; [|reflexivity].
  by apply Permutation_insert_swap.
Qed.

Lemma shuffleLoop_perm {A} rnd i : forall calls (arr : list A),
  Permutation (shuffleLoop rnd calls i arr).1 arr.
Proof.
  induction i as [|i IH]; intros calls arr; simpl; [reflexivity|].
  rewrite IH. apply swap_perm.
Qed.

(** [shuffleArray] returns a permutation of its argument. *)
Lemma shuffleArray_perm {A} rnd calls (array : list A) :
  Permutation (shuffleArray rnd calls array).1 array.
Proof. apply shuffleLoop_perm. Qed.

Lemma first_five {A} (l : list A) :
  (take 2 l ++ take 2 (drop 2 l) ++ take 1 (drop 4 l))%list = take 5 l.
Proof. destruct l as [|a [|b [|c [|d [|e r]]]]]; reflexivity. Qed.

Lemma EMPLOYEES_NoDup : NoDup (List.map emp_id EMPLOYEES).
Proof. apply (bool_decide_unpack _). vm_compute. exact I. Qed.

Lemma day_assignments_ids rnd calls :
  List.map a_employeeId (generateDayAssignments rnd calls).1
  = List.map emp_id (take 5 (shuffleArray rnd calls EMPLOYEES).1).
Proof.
  unfold generateDayAssignments.
  destruct (shuffleArray rnd calls EMPLOYEES) as [shuffled calls'] eqn:E. simpl.
  rewrite <- first_five, !List.map_app, !List.map_map. reflexivity.
Qed.

(** One day: five assignments, to five different employees of the
    staff list. *)
Lemma day_assignments_distinct rnd calls :
  length (generateDayAssignments rnd calls).1 = 5%nat
  /\ NoDup (List.map a_employeeId (generateDayAssignments rnd calls).1)
  /\ incl (List.map a_employeeId (generateDayAssignments rnd calls).1)
          (List.map emp_id EMPLOYEES).
Proof.
  pose proof (shuffleArray_perm rnd calls EMPLOYEES) as Hp.
  assert (Hlen : length (shuffleArray rnd calls EMPLOYEES).1 = 8%nat)
    by (by rewrite Hp).
  split; [|split].
  - rewrite <- (List.length_map a_employeeId), day_assignments_ids, List.length_map.
    rewrite length_take. lia.
  - rewrite day_assignments_ids.
    assert (Hs : sublist (List.map emp_id (take 5 (shuffleArray rnd calls EMPLOYEES).1))
                         (List.map emp_id (shuffleArray rnd calls EMPLOYEES).1))
      by (apply (fmap_sublist emp_id); apply sublist_take).
    eapply sublist_NoDup; [|exact Hs].
    rewrite Hp. apply EMPLOYEES_NoDup.
  - rewrite day_assignments_ids. intros x Hx.
    apply List.in_map_iff in Hx as (e & <- & He).
    apply List.in_map. apply (Permutation_in _ Hp).
    apply list_elem_of_In. apply list_elem_of_In in He.
    by apply elem_of_take in He as (i & He & _); apply list_elem_of_lookup_2 in He.
Qed.

Lemma generateLoop_continue zone rnd fuel calls cur e acc :
  (cur <=? e)%Z = true ->
  generateLoop zone rnd (S fuel) calls (Some cur) (Some e) acc
  = generateLoop zone rnd fuel (generateDayAssignments rnd calls).2
      (JsDate.setDate zone (JsDate.getDate zone cur + 1) cur) (Some e)
      (acc ++ List.map
                (shiftOfAssignment (Js.first (Js.split "T"%char (JsDate.toISOString cur))))
                (generateDayAssignments rnd calls).1)%list.
Proof.
  intros H. cbn [generateLoop]. rewrite H.
  by destruct (generateDayAssignments rnd calls).
Qed.

Lemma generateLoop_stop zone rnd fuel calls cur e acc :
  (cur <=? e)%Z = false ->
  generateLoop zone rnd (S fuel) calls (Some cur) (Some e) acc = Some acc.
Proof. intros H. cbn [generateLoop]. by rewrite H. Qed.

Lemma assigned_owner_and_date dateString (l : list ShiftAssignment) :
  List.map (fun s => (employeeId s, date s)) (List.map (shiftOfAssignment dateString) l)
  = List.map (fun i => (i, dateString)) (List.map a_employeeId l).
Proof. rewrite !List.map_map. reflexivity. Qed.

(** C5 fails on a host whose clock changes in the range.  In the zone
    America/New_York the clock goes forward on 2024-03-10: the loop
    advances the date in local time and prints it in UTC, so its first
    two rounds both print 2024-03-10.  Whatever the random numbers,
    [generateBalancedShifts('2024-03-10', '2024-03-11')] returns ten
    shifts, all dated 2024-03-10, for a staff of eight: some employee has
    two shifts on that date. *)
Theorem generator_repeats_a_date (rnd : Random) (fuel : nat) :
  (3 <= fuel)%nat ->
  exists l,
    generateBalancedShifts JsDate.newYork2024 rnd fuel "2024-03-10" "2024-03-11" = Some l
    /\ length l = 10%nat
    /\ (forall s, In s l -> date s = "2024-03-10")
    /\ ~ oneShiftPerEmployeePerDay l.
Proof.
  intros Hfuel.
  destruct fuel as [|[|[|fuel]]]; [lia..|].
  unfold generateBalancedShifts.
  replace (JsDate.parseDateOnly "2024-03-10") with (Some 1710028800000%Z)
    by (vm_compute; reflexivity).
  replace (JsDate.parseDateOnly "2024-03-11") with (Some 1710115200000%Z)
    by (vm_compute; reflexivity).
  rewrite generateLoop_continue by (vm_compute; reflexivity).
  replace (JsDate.setDate JsDate.newYork2024
             (JsDate.getDate JsDate.newYork2024 1710028800000 + 1) 1710028800000)
    with (Some 1710111600000%Z) by (vm_compute; reflexivity).
  replace (Js.first (Js.split "T"%char (JsDate.toISOString 1710028800000)))
    with "2024-03-10" by (vm_compute; reflexivity).
  rewrite generateLoop_continue by (vm_compute; reflexivity).
  replace (JsDate.setDate JsDate.newYork2024
             (JsDate.getDate JsDate.newYork2024 1710111600000 + 1) 1710111600000)
    with (Some 1710198000000%Z) by (vm_compute; reflexivity).
  replace (Js.first (Js.split "T"%char (JsDate.toISOString 1710111600000)))
    with "2024-03-10" by (vm_compute; reflexivity).
  rewrite generateLoop_stop by (vm_compute; reflexivity).
  set (a1 := (generateDayAssignments rnd 0).1).
  set (a2 := (generateDayAssignments rnd (generateDayAssignments rnd 0).2).1).
  destruct (day_assignments_distinct rnd 0) as (Hl1 & _ & Hi1).
  destruct (day_assignments_distinct rnd (generateDayAssignments rnd 0).2) as (Hl2 & _ & Hi2).
  fold a1 in Hl1, Hi1. fold a2 in Hl2, Hi2.
  eexists. split; [reflexivity|]. simpl. split; [|split].
  - rewrite List.length_app, !List.length_map. lia.
  - intros s Hs. apply List.in_app_iff in Hs as [Hs|Hs];
      apply List.in_map_iff in Hs as (a & <- & _); reflexivity.
  - unfold oneShiftPerEmployeePerDay.
    rewrite List.map_app, !assigned_owner_and_date, <- List.map_app.
    intros Hnd. apply NoDup_fmap_1 in Hnd. apply NoDup_ListNoDup in Hnd.
    apply (List.NoDup_incl_length (l' := List.map emp_id EMPLOYEES)) in Hnd.
    + rewrite List.length_app, !List.length_map, Hl1, Hl2 in Hnd. simpl in Hnd. lia.
    + intros x Hx. apply List.in_app_iff in Hx as [Hx|Hx]; auto.
Qed.

Lemma generator_repeats_a_date_witness :
  exists l,
    generateBalancedShifts JsDate.newYork2024 (fun _ => 3%nat) 10
      "2024-03-10" "2024-03-11" = Some l
    /\ length l = 10%nat
    /\ (forall s, In s l -> date s = "2024-03-10")
    /\ ~ oneShiftPerEmployeePerDay l.
Proof. apply (generator_repeats_a_date (fun _ => 3%nat) 10). lia. Defined.

(** *** The range the diagnostics page asks for *)






End GeneratorProps.

(** ** Diagnostics *)

Module DiagnosticsProps.

Import Diagnostics.

(** *** The map of the duplicate scan *)

Section MapLemmas.
Context {V : Type}.
Implicit Types m : list (string * V).

Lemma mapHas_get m k : mapHas k m = false -> mapGet k m = None.
Proof.
unfold mapHas, mapGet. induction m as [|e r IH]; simpl; [done|].
destruct (String.eqb e.1 k); [done|]. exact IH.
Qed.

Lemma mapGet_In m k v : mapGet k m = Some v -> exists k', In (k', v) m.
Proof.
unfold mapGet. destruct (List.find _ m) as [[k' v']|] eqn:E; [|done].
simpl. intros [= <-]. apply List.find_some in E as [E _]. eauto.
Qed.

Lemma mapGet_app m m' k :
mapGet k (m ++ m') = match mapGet k m with Some v => Some v | None => mapGet k m' end.
Proof.
unfold mapGet. induction m as [|e r IH]; simpl; [done|].
destruct (String.eqb e.1 k); [done|]. exact IH.
Qed.

Lemma mapGet_replace m k v k' :
mapGet k' (List.map (fun e => if String.eqb e.1 k then (k, v) else e) m)
= if String.eqb k k' then (if mapHas k m then Some v else None) else mapGet k' m.
Proof.
unfold mapGet, mapHas. induction m as [|e r IH]; simpl.
- by destruct (String.eqb k k').
- destruct (String.eqb e.1 k) eqn:E1; simpl.
  + destruct (String.eqb k k') eqn:E2; [done|].
    apply String.eqb_eq in E1. rewrite E1, E2. exact IH.
  + destruct (String.eqb e.1 k') eqn:E3.
    * destruct (String.eqb k k') eqn:E2; [|done].
      apply String.eqb_eq in E2. subst. congruence.
    * exact IH.
Qed.

Lemma mapGet_set m k v k' :
mapGet k' (mapSet k v m) = if String.eqb k k' then Some v else mapGet k' m.
Proof.
unfold mapSet. destruct (mapHas k m) eqn:H.
- by rewrite mapGet_replace, H.
- rewrite mapGet_app. unfold mapGet at 2. simpl.
  destruct (String.eqb k k') eqn:E; simpl.
  + apply String.eqb_eq in E. subst. by rewrite (mapHas_get _ _ H).
  + by destruct (mapGet k' m).
Qed.
End MapLemmas.

Lemma recordShift_get dupes s k :
  mapGet k (recordShift dupes s)
  = if String.eqb (dupeKey s) k
    then Some (default [] (mapGet k dupes) ++ [s])%list
    else mapGet k dupes.
Proof.
  unfold recordShift.
  destruct (mapHas (dupeKey s) dupes) eqn:H; simpl.
  - destruct (mapGet (dupeKey s) dupes) as [arr|] eqn:G.
    + rewrite mapGet_set. destruct (String.eqb (dupeKey s) k) eqn:E; [|done].
      apply String.eqb_eq in E. subst. by rewrite G.
    + destruct (String.eqb (dupeKey s) k) eqn:E; [|done].
      exfalso. clear E. unfold mapHas, mapGet in *.
      induction dupes as [|e r IH]; simpl in *; [done|].
      destruct (String.eqb e.1 (dupeKey s)); [done|]. auto.
  - rewrite mapGet_set, String.eqb_refl, !mapGet_set.
    destruct (String.eqb (dupeKey s) k) eqn:E; [|done].
    apply String.eqb_eq in E. subst. by rewrite (mapHas_get _ _ H).
Qed.

Lemma fold_recordShift_get l : forall dupes k,
  mapGet k (fold_left recordShift l dupes)
  = match List.filter (fun s => String.eqb (dupeKey s) k) l with
    | [] => mapGet k dupes
    | g => Some (default [] (mapGet k dupes) ++ g)%list
    end.
Proof.
  induction l as [|s r IH]; intros dupes k; simpl; [done|].
  rewrite IH, recordShift_get.
  destruct (String.eqb (dupeKey s) k); simpl; [|done].
  destruct (List.filter _ r); simpl; [done|].
  by rewrite <- List.app_assoc.
Qed.

(** The scan groups the shifts by key: the entry of a key is the list of
    the shifts that have it, in order. *)
Lemma buildDupes_get shifts k :
  mapGet k (buildDupes shifts)
  = match List.filter (fun s => String.eqb (dupeKey s) k) shifts with
    | [] => None
    | g => Some g
    end.
Proof. unfold buildDupes. rewrite fold_recordShift_get. by destruct (List.filter _ _). Qed.


Lemma mapSet_keys {V} (k : string) (v : V) (m : list (string * V)) :
  List.map fst (mapSet k v m)
  = if mapHas k m then List.map fst m else (List.map fst m ++ [k])%list.
Proof.
  unfold mapSet. destruct (mapHas k m).
  - induction m as [|e r IH]; simpl; [done|].
    rewrite IH. destruct (String.eqb e.1 k) eqn:E; [|done].
    apply String.eqb_eq in E. by rewrite E.
  - by rewrite List.map_app.
Qed.

Lemma mapHas_In {V} (k : string) (m : list (string * V)) :
  mapHas k m = true <-> In k (List.map fst m).
Proof.
  unfold mapHas. rewrite List.existsb_exists, List.in_map_iff. split.
  - intros (e & He & E). apply String.eqb_eq in E. by exists e.
  - intros (e & E & He). exists e. split; [done|]. by apply String.eqb_eq.
Qed.

Lemma mapSet_keys_NoDup {V} (k : string) (v : V) (m : list (string * V)) :
  NoDup (List.map fst m) -> NoDup (List.map fst (mapSet k v m)).
Proof.
  intros H. rewrite mapSet_keys. destruct (mapHas k m) eqn:E; [done|].
  apply NoDup_app. split; [done|]. split; [|apply NoDup_singleton].
  intros x Hx Hk. apply list_elem_of_In in Hk. simpl in Hk.
  destruct Hk as [<-|[]].
  apply list_elem_of_In, mapHas_In in Hx. congruence.
Qed.

Lemma recordShift_keys_NoDup dupes s :
  NoDup (List.map fst dupes) -> NoDup (List.map fst (recordShift dupes s)).
Proof.
  intros H. unfold recordShift.
  set (dupes1 := if negb (mapHas (dupeKey s) dupes)
                 then mapSet (dupeKey s) [] dupes else dupes).
  assert (H1 : NoDup (List.map fst dupes1)).
  { subst dupes1. destruct (negb _); [by apply mapSet_keys_NoDup|done]. }
  destruct (mapGet (dupeKey s) dupes1); [by apply mapSet_keys_NoDup|done].
Qed.

Lemma buildDupes_keys_NoDup shifts : NoDup (List.map fst (buildDupes shifts)).
Proof.
  unfold buildDupes.
  assert (H : forall dupes, NoDup (List.map fst dupes) ->
                NoDup (List.map fst (fold_left recordShift shifts dupes))).
  { induction shifts as [|s r IH]; intros dupes Hd; simpl; [done|].
    by apply IH, recordShift_keys_NoDup. }
  apply H. constructor.
Qed.

Lemma mapGet_of_In {V} (m : list (string * V)) k v :
  NoDup (List.map fst m) -> In (k, v) m -> mapGet k m = Some v.
Proof.
  unfold mapGet. induction m as [|e r IH]; simpl; [done|].
  rewrite NoDup_cons, list_elem_of_In. intros [He Hr] [->|Hin].
  - simpl. by rewrite String.eqb_refl.
  - destruct (String.eqb e.1 k) eqn:E; [|by apply IH].
    apply String.eqb_eq in E. exfalso. apply He. rewrite E.
    apply List.in_map_iff. by exists (k, v).
Qed.

Lemma count_keys (shifts : list Shift) k :
  length (List.filter (fun s => String.eqb (dupeKey s) k) shifts)
  = count_occ string_dec (List.map dupeKey shifts) k.
Proof.
  induction shifts as [|s r IH]; simpl; [done|].
  destruct (string_dec (dupeKey s) k) as [E|E].
  - apply String.eqb_eq in E. rewrite E. simpl. by rewrite IH.
  - apply String.eqb_neq in E. by rewrite E.
Qed.

(** The groups the scan finds are the groups of two or more shifts with
    one key. *)
Lemma dupesFound_In shifts dupe :
  In dupe (dupesFound shifts)
  <-> exists k, dupe = List.filter (fun s => String.eqb (dupeKey s) k) shifts
                /\ (1 < length dupe)%nat.
Proof.
  unfold dupesFound. rewrite List.filter_In, Nat.ltb_lt. unfold mapValues. split.
  - intros [Hin Hlen]. apply List.in_map_iff in Hin as ([k arr] & <- & Hin).
    exists k. split; [|done]. simpl.
    apply (mapGet_of_In _ _ _ (buildDupes_keys_NoDup shifts)) in Hin.
    rewrite buildDupes_get in Hin. destruct (List.filter _ shifts); by simplify_eq.
  - intros (k & -> & Hlen). split; [|done].
    assert (Hget : mapGet k (buildDupes shifts)
                   = Some (List.filter (fun s => String.eqb (dupeKey s) k) shifts)).
    { rewrite buildDupes_get. destruct (List.filter _ shifts); [simpl in Hlen; lia|done]. }
    apply mapGet_In in Hget as [k' Hin].
    apply List.in_map_iff. by eexists (k', _).
Qed.





(** *** The swap-request analysis *)

Lemma existsb_eqb_In x (l : list string) : existsb (String.eqb x) l = true <-> In x l.
Proof.
  rewrite List.existsb_exists. split.
  - intros (y & Hy & E). apply String.eqb_eq in E. by subst.
  - intros H. exists x. split; [done|apply String.eqb_refl].
Qed.

Lemma newSet_In x xs : forall seen, In x (newSet seen xs) <-> In x xs /\ ~ In x seen.
Proof.
  induction xs as [|y r IH]; intros seen; simpl; [tauto|].
  destruct (existsb (String.eqb y) seen) eqn:E.
  - apply existsb_eqb_In in E. rewrite IH. split.
    + tauto.
    + intros [[->|H] Hn]; tauto.
  - assert (Hy : ~ In y seen) by (rewrite <- existsb_eqb_In; congruence).
    simpl. rewrite IH. simpl. split.
    + intros [->|[H Hn]]; [tauto|]. split; [tauto|]. intros Hs. apply Hn. by right.
    + intros [[->|H] Hn]; [tauto|].
      destruct (string_dec y x) as [->|Hne]; [tauto|]. right. split; [done|].
      intros [?|?]; tauto.
Qed.

Lemma setHas_newSet xs x : setHas (newSet [] xs) x = true <-> In x xs.
Proof. unfold setHas. rewrite existsb_eqb_In, newSet_In. simpl. tauto. Qed.

(** An identifier of a request that owns no shift is among the
    mismatched ones. *)
Lemma mismatched_In (field : SwapRequest -> string) shifts (swaps : list SwapRequest) r :
  In r swaps ->
  ~ In (field r) (List.map employeeId shifts) ->
  In (field r)
     (List.filter (fun id => negb (setHas (shiftEmployeeIds shifts) id))
        (newSet [] (List.map field swaps))).
Proof.
  intros Hr Hno. apply List.filter_In. split.
  - apply newSet_In. split; [by apply List.in_map|simpl; tauto].
  - apply negb_true_iff. apply not_true_is_false.
    unfold shiftEmployeeIds. by rewrite setHas_newSet.
Qed.

Lemma nonempty_length {A} (l : list A) x : In x l -> (0 <? length l)%nat = true.
Proof. destruct l; [done|]. intros _. reflexivity. Qed.

Lemma getShifts_owner st id :
  In id (List.map employeeId (List.map (fun d => shiftOfDoc d.1 d.2) (docsById (shifts st))))
  <-> exists docId d, shifts st !! docId = Some d /\ d_employeeId d = id.
Proof.
  rewrite List.map_map, List.in_map_iff. split.
  - intros ([k d] & <- & Hin). apply SortProps.docsById_In in Hin. eauto.
  - intros (k & d & Hd & <-). exists (k, d). split; [done|].
    by apply SortProps.docsById_In.
Qed.

Lemma pretty_N_go_digit x : forall s,
  startsWithDigit s = true -> startsWithDigit (pretty_N_go x s) = true.
Proof.
  induction (N.lt_wf_0 x) as [x _ IH]; intros s Hs.
  assert (x = 0 \/ 0 < x)%N as [->|Hx] by lia.
  - by rewrite pretty_N_go_0.
  - rewrite pretty_N_go_step by done. apply IH.
    + by apply N.div_lt.
    + unfold pretty_N_char. by repeat case_match.
Qed.

Lemma num_digit n : startsWithDigit (num n) = true.
Proof.
  unfold num, pretty, pretty_nat, pretty, pretty_N.
  destruct (decide (N.of_nat n = 0%N)); [reflexivity|].
  rewrite pretty_N_go_step by lia. apply pretty_N_go_digit.
  unfold pretty_N_char. simpl. by repeat case_match.
Qed.

Lemma numbered_line_no_warning n rest : isMismatchWarning (num n +:+ rest) = false.
Proof.
  pose proof (num_digit n) as H. destruct (num n) as [|c r]; [done|].
  unfold isMismatchWarning. cbn [startsWithDigit] in H.
  change (String c r +:+ rest) with (String c (r +:+ rest)).
  cbn [String.prefix].
  match goal with
  | |- context [ascii_dec ?a c] => destruct (ascii_dec a c) as [<-|]
  end; [discriminate H|reflexivity].
Qed.

Lemma forEachIdx_no_warning {A} (f : A -> nat -> list string) (xs : list A) :
  (forall x idx, mismatchWarnings (f x idx) = []) ->
  forall idx, mismatchWarnings (forEachIdx f idx xs) = [].
Proof.
  intros Hf. unfold mismatchWarnings in *.
  induction xs as [|x r IH]; intros idx; simpl; [done|].
  by rewrite List.filter_app, Hf, IH.
Qed.

Lemma userLines_no_warning user idx : mismatchWarnings (userLines user idx) = [].
Proof.
  unfold mismatchWarnings, userLines. cbn [List.filter].
  by rewrite numbered_line_no_warning.
Qed.

Lemma shiftLines_no_warning shift idx : mismatchWarnings (shiftLines shift idx) = [].
Proof.
  unfold mismatchWarnings, shiftLines. cbn [List.filter].
  by rewrite numbered_line_no_warning.
Qed.

Lemma swapLines_no_warning swap idx : mismatchWarnings (swapLines swap idx) = [].
Proof.
  unfold mismatchWarnings, swapLines. cbn [List.filter].
  by rewrite numbered_line_no_warning.
Qed.

Lemma docsById_singleton {D} (k : string) (d : D) : docsById ({[ k := d ]} : gmap string D) = [(k, d)].
Proof. unfold docsById, inOrder. by rewrite map_to_list_singleton. Qed.

Lemma analysis_In shifts swaps line :
  In line (analysisLines shifts swaps) ->
  forall pre post, In line (pre ++ analysisLines shifts swaps ++ post)%list.
Proof. intros H pre post. apply List.in_app_iff. right. apply List.in_app_iff. by left. Qed.

(** The analysis names every mismatched requester and recipient. *)
Lemma analysis_reports shifts (swaps : list SwapRequest) r :
  In r swaps ->
  (~ In (fromEmployeeId r) (List.map employeeId shifts) ->
   In (fromWarning (mismatchedFrom shifts swaps)) (analysisLines shifts swaps)
   /\ In (fromEmployeeId r) (mismatchedFrom shifts swaps))
  /\ (~ In (toEmployeeId r) (List.map employeeId shifts) ->
      In (toWarning (mismatchedTo shifts swaps)) (analysisLines shifts swaps)
      /\ In (toEmployeeId r) (mismatchedTo shifts swaps)).
Proof.
  intros Hr. unfold analysisLines. rewrite (nonempty_length _ _ Hr).
  split; intros Hno.
  - pose proof (mismatched_In (fun s : SwapRequest => fromEmployeeId s) shifts swaps r Hr Hno)
      as Hin.
    fold (mismatchedFrom shifts swaps) in Hin. split; [|exact Hin].
    rewrite (nonempty_length _ _ Hin).
    rewrite !List.in_app_iff. right. right. left. simpl. auto.
  - pose proof (mismatched_In (fun s : SwapRequest => toEmployeeId s) shifts swaps r Hr Hno)
      as Hin.
    fold (mismatchedTo shifts swaps) in Hin. split; [|exact Hin].
    rewrite (nonempty_length _ _ Hin).
    rewrite !List.in_app_iff. right. right. right. left. simpl. auto.
Qed.

Lemma str_app_assoc (a b c : string) : (a +:+ b) +:+ c = a +:+ (b +:+ c).
Proof.
  induction a as [|x a IH]; [done|].
  change (String x ((a +:+ b) +:+ c) = String x (a +:+ (b +:+ c))). by f_equal.
Qed.

Lemma str_app_nil_r (a : string) : a +:+ "" = a.
Proof.
  induction a as [|x a IH]; [done|].
  change (String x (a +:+ "") = String x a). by f_equal.
Qed.

(** A joined list shows each of its members. *)
Lemma join_mentions sep ids id : In id ids -> mentions (Js.join sep ids) id.
Proof.
  induction ids as [|x r IH]; [done|]. intros [->|Hin].
  - destruct r as [|y r].
    + exists "", "". symmetry. apply str_app_nil_r.
    + exists "", (sep +:+ Js.join sep (y :: r)). done.
  - destruct r as [|y r]; [done|].
    destruct (IH Hin) as (pre & post & Hj).
    exists (x +:+ sep +:+ pre), post.
    change (Js.join sep (x :: y :: r)) with (x +:+ sep +:+ Js.join sep (y :: r)).
    by rewrite Hj, !str_app_assoc.
Qed.

Lemma mentions_after pre line id : mentions line id -> mentions (pre +:+ line) id.
Proof.
  intros (a & b & ->). exists (pre +:+ a), b. by rewrite str_app_assoc.
Qed.

(** C7, as the specification has it, fails: scenario C fixes the
    recipient of the one request and leaves its requester open.  With a
    request of the old format, whose requester field holds John's account
    id, the log has two warnings, one for the requester and one for the
    recipient; with the recipient's account id in both fields, each of the
    two warnings names that identifier. *)
Lemma swap_analysis_counterexample :
  (exists logs,
     handleTestSwapRequests (Fixture.scenarioCFrom "Qm3xJohnAccount00001")
     = (Fixture.scenarioCFrom "Qm3xJohnAccount00001", Done logs)
     /\ mismatchWarnings logs
        = [ "⚠️  MISMATCH: fromEmployeeIds not in Shifts: Qm3xJohnAccount00001";
            "⚠️  MISMATCH: toEmployeeIds not in Shifts: U8qG4fNEydUbNFcw4QxE" ])
  /\ (exists logs,
        handleTestSwapRequests (Fixture.scenarioCFrom "U8qG4fNEydUbNFcw4QxE")
        = (Fixture.scenarioCFrom "U8qG4fNEydUbNFcw4QxE", Done logs)
        /\ mismatchWarnings logs
           = [ "⚠️  MISMATCH: fromEmployeeIds not in Shifts: U8qG4fNEydUbNFcw4QxE";
               "⚠️  MISMATCH: toEmployeeIds not in Shifts: U8qG4fNEydUbNFcw4QxE" ]).
Proof.
  split; (eexists; split; [reflexivity|]); vm_compute; reflexivity.
Qed.

(** C7, amended.  [handleTestSwapRequests] leaves the store as it found
    it.  For every stored swap request, a requester (recipient)
    identifier that no stored shift has as its owner is shown in the log,
    in the line "MISMATCH: fromEmployeeIds (toEmployeeIds) not in Shifts:"
    followed by the identifiers of that kind.  In scenario C (the owners
    of the stored shifts are john and sarah, the one stored request has
    the account id U8qG4fNEydUbNFcw4QxE as its recipient) the log holds
    exactly one warning about recipients, the one that shows that
    identifier; it is the only MISMATCH line when the request comes from
    john or sarah, and comes after a warning that shows the requester
    otherwise. *)
Theorem swap_analysis_reports_mismatches (st : Store) :
  exists logs,
    handleTestSwapRequests st = (st, Done logs)
    /\ (forall k rd,
          swapRequests st !! k = Some rd ->
          (forall docId d, shifts st !! docId = Some d ->
                           d_employeeId d <> fromEmployeeId rd) ->
          exists ids line,
            In (fromEmployeeId rd) ids
            /\ line = "⚠️  MISMATCH: fromEmployeeIds not in Shifts: " +:+ Js.join ", " ids
            /\ In line logs
            /\ mentions line (fromEmployeeId rd))
    /\ (forall k rd,
          swapRequests st !! k = Some rd ->
          (forall docId d, shifts st !! docId = Some d ->
                           d_employeeId d <> toEmployeeId rd) ->
          exists ids line,
            In (toEmployeeId rd) ids
            /\ line = "⚠️  MISMATCH: toEmployeeIds not in Shifts: " +:+ Js.join ", " ids
            /\ In line logs
            /\ mentions line (toEmployeeId rd))
    /\ (forall k rd,
          swapRequests st = {[ k := rd ]} ->
          (forall id, (exists docId d, shifts st !! docId = Some d /\ d_employeeId d = id)
                      <-> id = "john" \/ id = "sarah") ->
          toEmployeeId rd = "U8qG4fNEydUbNFcw4QxE" ->
          mismatchWarnings logs
          = ((if String.eqb (fromEmployeeId rd) "john" || String.eqb (fromEmployeeId rd) "sarah"
              then []
              else ["⚠️  MISMATCH: fromEmployeeIds not in Shifts: " +:+ fromEmployeeId rd])
             ++ ["⚠️  MISMATCH: toEmployeeIds not in Shifts: U8qG4fNEydUbNFcw4QxE"])%list).
Proof.
  eexists. split; [reflexivity|].
  set (us := List.map (fun d => userOfDoc d.1 d.2) (docsById (users st))).
  set (shs := List.map (fun d => shiftOfDoc d.1 d.2) (docsById (shifts st))).
  set (sws := List.map (fun d => mkSwapRequest d.1 d.2) (docsById (swapRequests st))).
  assert (Hsw : forall k rd, swapRequests st !! k = Some rd -> In (mkSwapRequest k rd) sws).
  { intros k rd H. apply SortProps.docsById_In in H.
    subst sws. apply List.in_map_iff. by exists (k, rd). }
  assert (Hown : forall id,
            (forall docId d, shifts st !! docId = Some d -> d_employeeId d <> id) ->
            ~ In id (List.map employeeId shs)).
  { intros id H Hin. apply getShifts_owner in Hin as (docId & d & Hd & E). by eapply H. }
  split; [|split].
  - intros k rd Hk Hno. exists (mismatchedFrom shs sws). eexists.
    destruct (analysis_reports shs sws _ (Hsw k rd Hk)) as [Hf _].
    destruct (Hf (Hown _ Hno)) as [H1 H2]. split; [exact H2|]. split; [reflexivity|].
    split.
    + rewrite !List.app_assoc, <- (List.app_assoc _ (analysisLines shs sws)).
      by apply analysis_In.
    + by apply mentions_after, join_mentions.
  - intros k rd Hk Hno. exists (mismatchedTo shs sws). eexists.
    destruct (analysis_reports shs sws _ (Hsw k rd Hk)) as [_ Ht].
    destruct (Ht (Hown _ Hno)) as [H1 H2]. split; [exact H2|]. split; [reflexivity|].
    split.
    + rewrite !List.app_assoc, <- (List.app_assoc _ (analysisLines shs sws)).
      by apply analysis_In.
    + by apply mentions_after, join_mentions.
  - intros k rd Hone Howners Hto.
    assert (Hsws : sws = [mkSwapRequest k rd])
      by (subst sws; by rewrite Hone, docsById_singleton).
    assert (Hhas : forall id, setHas (shiftEmployeeIds shs) id = true
                              <-> id = "john" \/ id = "sarah").
    { intros id. unfold shiftEmployeeIds. rewrite setHas_newSet.
      subst shs. by rewrite getShifts_owner. }
    assert (Hknown : setHas (shiftEmployeeIds shs) (fromEmployeeId rd)
                     = String.eqb (fromEmployeeId rd) "john"
                       || String.eqb (fromEmployeeId rd) "sarah").
    { apply eq_true_iff_eq. rewrite Hhas, orb_true_iff, !String.eqb_eq. done. }
    assert (HmFrom : mismatchedFrom shs sws
                     = if String.eqb (fromEmployeeId rd) "john"
                          || String.eqb (fromEmployeeId rd) "sarah"
                       then [] else [fromEmployeeId rd]).
    { unfold mismatchedFrom. rewrite Hsws. simpl. rewrite Hknown.
      by destruct (_ || _). }
    assert (HmTo : mismatchedTo shs sws = ["U8qG4fNEydUbNFcw4QxE"]).
    { unfold mismatchedTo. rewrite Hsws. simpl. rewrite Hto.
      destruct (setHas (shiftEmployeeIds shs) "U8qG4fNEydUbNFcw4QxE") eqn:E; [|done].
      apply Hhas in E as [E|E]; discriminate E. }
    unfold mismatchWarnings.
    rewrite !List.filter_app.
    fold (mismatchWarnings (forEachIdx userLines 0 us)).
    fold (mismatchWarnings (forEachIdx shiftLines 0 (take 5 shs))).
    rewrite (forEachIdx_no_warning _ _ userLines_no_warning).
    rewrite (forEachIdx_no_warning _ _ shiftLines_no_warning).
    unfold analysisLines. rewrite HmFrom, HmTo, Hsws.
    cbn [length Nat.eqb Nat.ltb Nat.leb andb].
    cbn [List.filter List.app forEachIdx].
    fold (mismatchWarnings (swapLines (mkSwapRequest k rd) 0)).
    rewrite !List.filter_app.
    fold (mismatchWarnings (swapLines (mkSwapRequest k rd) 0)).
    rewrite swapLines_no_warning.
    destruct (String.eqb (fromEmployeeId rd) "john" || String.eqb (fromEmployeeId rd) "sarah");
      unfold isMismatchWarning, nl, toWarning, fromWarning;
      cbn [length Nat.eqb Nat.ltb Nat.leb andb String.prefix String.append Js.join
           List.app List.filter];
      reflexivity.
Qed.

Lemma swap_analysis_reports_mismatches_witness :
  exists logs,
    handleTestSwapRequests Fixture.scenarioC = (Fixture.scenarioC, Done logs)
    /\ mismatchWarnings logs
       = ["⚠️  MISMATCH: toEmployeeIds not in Shifts: U8qG4fNEydUbNFcw4QxE"].
Proof.
  destruct (swap_analysis_reports_mismatches Fixture.scenarioC)
    as (logs & Hrun & _ & _ & Hc).
  exists logs. split; [exact Hrun|].
  apply (Hc "swap1" Fixture.strayRequest).
  - reflexivity.
  - intros id. split.
    + intros (docId & d & Hd & <-). simpl in Hd.
      apply lookup_insert_Some in Hd as [[_ <-]|[_ Hd]]; [by left|].
      apply lookup_singleton_Some in Hd as [_ <-]. by right.
    + intros [-> | ->].
      * exists "shift1", Fixture.johnsShift. split; [apply lookup_insert_eq|done].
      * exists "shift2", Fixture.sarahsShift. split; [|done]. simpl.
        rewrite lookup_insert_ne by done. apply lookup_singleton_eq.
  - reflexivity.
Defined.

End DiagnosticsProps.

(** ** The swap-request subscription *)

Module SubscriptionProps.

Import Subscription.

Lemma enrich_enriched getDoc (req : SwapRequest) : enriched getDoc req (enrich getDoc req).1.
Proof.
  unfold enriched, sameButShift, enrich.
  destruct (shift req) as [s|] eqn:Hs.
  { simpl. rewrite Hs. repeat split; try done. }
  destruct (Js.truthy (shiftId req)) eqn:Ht.
  - destruct (getDoc (shiftId req)) as [d| |] eqn:Hg; simpl; rewrite ?Hs;
      repeat split; try done.
    + by intros d' _ _ [= <-].
    + intros _ [H|[H|H]]; discriminate H.
  - simpl. rewrite Hs. repeat split; done.
Qed.




End SubscriptionProps.

(** ** Sign-up and login *)

Module AuthProps.

Import Auth.

Lemma find_some_of {A} (p : A -> bool) (l : list A) x :
  Js.find p l = Some x -> In x l /\ p x = true.
Proof. apply List.find_some. Qed.

Lemma find_email_None st email :
  Js.find (fun u : User => String.eqb (Js.toLowerCase (user_email u)) (Js.toLowerCase email))
    (List.map (fun d => userOfDoc d.1 d.2) (docsById (users st))) = None
  <-> forall k d, users st !! k = Some d ->
        Js.toLowerCase (u_email d) <> Js.toLowerCase email.
Proof.
  unfold Js.find. split.
  - intros Hnone k d Hd Hmatch. apply SortProps.docsById_In in Hd.
    pose proof (List.find_none _ _ Hnone (userOfDoc k d)) as Hn.
    simpl in Hn. rewrite Hmatch, String.eqb_refl in Hn.
    assert (true = false); [|done]. apply Hn.
    apply List.in_map_iff. by exists (k, d).
  - intros Hno. destruct (List.find _ _) as [u|] eqn:E; [|done]. exfalso.
    apply List.find_some in E as [Hin Hp]. apply String.eqb_eq in Hp.
    apply List.in_map_iff in Hin as ([k d] & <- & Hin).
    apply SortProps.docsById_In in Hin. by eapply Hno.
Qed.




(** Once the page is loaded anew, [testCredentials] is the list of the
    source file again, and the same login is refused. *)
Example login_after_reload :
  Auth.handleLogin Auth.initialTestCredentials (loadUsers Fixture.noraSignup.1.1)
    "nora@schedulo.com" "s3cret" = AuthError.
Proof. vm_compute. reflexivity. Qed.

End AuthProps.


(** ** The short identifier *)

Module IdentityProps.

Import Notions.

Lemma lowerAscii_idem c : Js.lowerAscii (Js.lowerAscii c) = Js.lowerAscii c.
Proof. destruct c as [[] [] [] [] [] [] [] []]; reflexivity. Qed.

Lemma lowerAscii_space c : Ascii.eqb (Js.lowerAscii c) " " = Ascii.eqb c " ".
Proof. destruct c as [[] [] [] [] [] [] [] []]; reflexivity. Qed.

Lemma lowerAscii_noCapital c : isCapital (Js.lowerAscii c) = false.
Proof. destruct c as [[] [] [] [] [] [] [] []]; reflexivity. Qed.

Lemma toLowerCase_idem s : Js.toLowerCase (Js.toLowerCase s) = Js.toLowerCase s.
Proof. induction s as [|c r IH]; simpl; [done|]. by rewrite lowerAscii_idem, IH. Qed.

Lemma toLowerCase_noSpace s : noSpace (Js.toLowerCase s) = noSpace s.
Proof. induction s as [|c r IH]; simpl; [done|]. by rewrite lowerAscii_space, IH. Qed.

Lemma toLowerCase_noCapital s : noCapital (Js.toLowerCase s) = true.
Proof. induction s as [|c r IH]; simpl; [done|]. by rewrite lowerAscii_noCapital, IH. Qed.

Lemma toLowerCase_app a b :
  Js.toLowerCase (a +:+ b) = Js.toLowerCase a +:+ Js.toLowerCase b.
Proof. induction a as [|c r IH]; simpl; [done|]. by rewrite IH. Qed.

Lemma first_split_cons c r :
  Js.first (Js.split " " (String c r))
  = if Ascii.eqb c " " then EmptyString else String c (Js.first (Js.split " " r)).
Proof.
  cbn [Js.split]. destruct (Ascii.eqb c " "); [done|].
  by destruct (Js.split " " r).
Qed.

Lemma first_split_noSpace s : noSpace (Js.first (Js.split " " s)) = true.
Proof.
  induction s as [|c r IH]; [done|]. rewrite first_split_cons.
  destruct (Ascii.eqb c " ") eqn:E; [done|]. simpl. by rewrite E, IH.
Qed.

(** A string without a blank is its own first token. *)
Lemma first_split_id s : noSpace s = true -> Js.first (Js.split " " s) = s.
Proof.
  induction s as [|c r IH]; [done|]. simpl noSpace. intros H.
  apply andb_true_iff in H as [Hc Hr]. apply negb_true_iff in Hc.
  by rewrite first_split_cons, Hc, IH.
Qed.

(** The first token of [t rest] is [t]. *)
Lemma first_split_token t rest :
  noSpace t = true -> Js.first (Js.split " " (t +:+ " " +:+ rest)) = t.
Proof.
  induction t as [|c r IH]; [done|]. simpl noSpace. intros H.
  apply andb_true_iff in H as [Hc Hr]. apply negb_true_iff in Hc.
  change (String c r +:+ " " +:+ rest) with (String c (r +:+ " " +:+ rest)).
  by rewrite first_split_cons, Hc, IH.
Qed.

(** The short identifier is in normal form: it has no blank and no
    capital letter, and deriving a short identifier from it gives it
    back. *)
Theorem shortId_normal_form (name : string) :
  noSpace (shortId name) = true
  /\ noCapital (shortId name) = true
  /\ shortId (shortId name) = shortId name.
Proof.
  unfold shortId. split; [|split].
  - by rewrite toLowerCase_noSpace, first_split_noSpace.
  - apply toLowerCase_noCapital.
  - rewrite first_split_id, toLowerCase_idem; [done|].
    by rewrite toLowerCase_noSpace, first_split_noSpace.
Qed.

Lemma lowerAscii_code c :
  nat_of_ascii (Js.lowerAscii c)
  = if isCapital c then (nat_of_ascii c + 32)%nat else nat_of_ascii c.
Proof.
  unfold Js.lowerAscii, isCapital.
  destruct ((65 <=? nat_of_ascii c)%nat && (nat_of_ascii c <=? 90)%nat) eqn:E; [|done].
  apply andb_true_iff in E as [_ E]. apply Nat.leb_le in E.
  apply nat_ascii_embedding. lia.
Qed.

Lemma nat_of_ascii_inj a b : nat_of_ascii a = nat_of_ascii b -> a = b.
Proof. intros H. by rewrite <- (ascii_nat_embedding a), <- (ascii_nat_embedding b), H. Qed.

Lemma eqCharNoCase_lower a b :
  eqCharNoCase a b = true <-> Js.lowerAscii a = Js.lowerAscii b.
Proof.
  unfold eqCharNoCase.
  rewrite !orb_true_iff, !andb_true_iff, !Nat.eqb_eq, Ascii.eqb_eq.
  split.
  - intros [[->|[Ha Hb]]|[Hb Ha]]; [done| |]; apply nat_of_ascii_inj;
      rewrite !lowerAscii_code.
    + rewrite Ha. destruct (isCapital b) eqn:Eb; [|done].
      unfold isCapital in Ha, Eb. apply andb_true_iff in Ha as [Ha _], Eb as [_ Eb].
      apply Nat.leb_le in Ha, Eb. lia.
    + rewrite Hb. destruct (isCapital a) eqn:Ea; [|done].
      unfold isCapital in Hb, Ea. apply andb_true_iff in Hb as [Hb _], Ea as [_ Ea].
      apply Nat.leb_le in Hb, Ea. lia.
  - intros H. apply (f_equal nat_of_ascii) in H. rewrite !lowerAscii_code in H.
    destruct (isCapital a) eqn:Ea, (isCapital b) eqn:Eb.
    + left. left. apply nat_of_ascii_inj. lia.
    + left. right. split; [done|lia].
    + right. split; [done|lia].
    + left. left. by apply nat_of_ascii_inj.
Qed.

Lemma eqNoCase_lower s : forall t,
  eqNoCase s t = true <-> Js.toLowerCase s = Js.toLowerCase t.
Proof.
  induction s as [|a s IH]; intros [|b t]; simpl; try (split; discriminate); [done|].
  rewrite andb_true_iff, eqCharNoCase_lower, IH. split.
  - by intros [-> ->].
  - intros H. by injection H.
Qed.

(** Two display names [t rest] and [t' rest'], with first tokens [t] and
    [t'] of ASCII text, have the same short identifier exactly when [t]
    and [t'] have one length and agree, character by character, up to
    the case of the letters; what follows the first blank plays no
    part. *)
Theorem shortId_first_token (t rest t' rest' : string) :
  Js.isAscii t = true ->
  Js.isAscii t' = true ->
  noSpace t = true ->
  noSpace t' = true ->
  (shortId (t +:+ " " +:+ rest) = shortId (t' +:+ " " +:+ rest')
   <-> eqNoCase t t' = true)
  /\ shortId (t +:+ " " +:+ rest) = shortId t.
Proof.
  intros _ _ Ht Ht'. unfold shortId.
  rewrite !first_split_token, first_split_id, eqNoCase_lower by done. done.
Qed.

Lemma shortId_first_token_witness :
  (shortId ("John" +:+ " " +:+ "Smith") = shortId ("JOHN" +:+ " " +:+ "van Doe")
   <-> eqNoCase "John" "JOHN" = true)
  /\ shortId ("John" +:+ " " +:+ "Smith") = shortId "John".
Proof. apply (shortId_first_token "John" "Smith" "JOHN" "van Doe"); reflexivity. Defined.

End IdentityProps.

(** ** More on the shift generator *)

Module GeneratorMore.

Import Generator Notions GeneratorProps.

Lemma shuffleLoop_calls {A} rnd i : forall calls (arr : list A),
  (shuffleLoop rnd calls i arr).2 = (calls + i)%nat.
Proof.
  induction i as [|i IH]; intros calls arr; simpl; [lia|].
  rewrite IH. lia.
Qed.

(** [shuffleArray] rearranges: whatever the random numbers, the result
    has the elements of the argument, each as often as the argument has
    it, and one random number is drawn per position but the first. *)
Theorem shuffleArray_rearranges {A} (rnd : Random) (calls : nat) (array : list A) :
  Permutation (shuffleArray rnd calls array).1 array
  /\ length (shuffleArray rnd calls array).1 = length array
  /\ (shuffleArray rnd calls array).2 = (calls + (length array - 1))%nat.
Proof.
  pose proof (shuffleArray_perm rnd calls array) as Hp.
  split; [exact Hp|]. split; [by rewrite Hp|].
  apply shuffleLoop_calls.
Qed.

(** Those who are not among the first [n] of a list without repeated
    ids are the rest of the list. *)
Lemma not_among_first (l : list Employee) (n : nat) :
  NoDup (List.map emp_id l) ->
  List.filter (fun e => negb (existsb (String.eqb (emp_id e))
                                (List.map emp_id (take n l)))) l
  = drop n l.
Proof.
  intros Hnd.
  rewrite <- (take_drop n l), List.map_app in Hnd.
  apply NoDup_app in Hnd as (_ & Hdis & _).
  set (P := fun e => negb (existsb (String.eqb (emp_id e)) (List.map emp_id (take n l)))).
  rewrite <- (take_drop n l) at 1.
  rewrite List.filter_app.
  assert (H1 : List.filter P (take n l) = []).
  { destruct (List.filter P (take n l)) as [|x q] eqn:E; [done|].
    assert (Hx : In x (List.filter P (take n l))) by (rewrite E; simpl; auto).
    apply List.filter_In in Hx as [Hx HP]. unfold P in HP.
    apply negb_true_iff in HP.
    assert (existsb (String.eqb (emp_id x)) (List.map emp_id (take n l)) = true); [|congruence].
    apply DiagnosticsProps.existsb_eqb_In. by apply List.in_map. }
  assert (H2 : List.filter P (drop n l) = drop n l).
  { apply List.forallb_filter_id. apply List.forallb_forall. intros x Hx.
    unfold P. apply negb_true_iff. apply not_true_is_false. intros Hin.
    apply DiagnosticsProps.existsb_eqb_In, list_elem_of_In in Hin.
    apply (Hdis _ Hin). apply list_elem_of_In. by apply List.in_map. }
  by rewrite H1, H2.
Qed.

Lemma day_assignments_shape (rnd : Random) (calls : nat) :
  exists staff,
    Permutation staff EMPLOYEES
    /\ (generateDayAssignments rnd calls).1
       = List.map (fun p => assign p.1 p.2)
           (zip [day; day; afternoon; afternoon; night] (take 5 staff)).
Proof.
  pose proof (shuffleArray_perm rnd calls EMPLOYEES) as Hp.
  assert (Hlen : length (shuffleArray rnd calls EMPLOYEES).1 = 8%nat) by (by rewrite Hp).
  exists (shuffleArray rnd calls EMPLOYEES).1. split; [exact Hp|].
  unfold generateDayAssignments.
  destruct (shuffleArray rnd calls EMPLOYEES) as [shuffled calls']. cbn [fst snd] in *.
  destruct shuffled as [|e0 [|e1 [|e2 [|e3 [|e4 [|e5 [|e6 [|e7 [|]]]]]]]]];
    try discriminate Hlen. reflexivity.
Qed.

(** One day's assignments, for any random numbers: two day shifts, two
    afternoon shifts and one night shift in this order, given to five
    different members of the staff list; the other three are off. *)
Theorem day_assignments_composition (rnd : Random) (calls : nat) :
  exists staff,
    Permutation staff EMPLOYEES
    /\ (generateDayAssignments rnd calls).1
       = List.map (fun p => assign p.1 p.2)
           (zip [day; day; afternoon; afternoon; night] (take 5 staff))
    /\ List.map a_type (generateDayAssignments rnd calls).1
       = [day; day; afternoon; afternoon; night]
    /\ NoDup (List.map a_employeeId (generateDayAssignments rnd calls).1)
    /\ length (List.filter
                 (fun e => negb (existsb (String.eqb (emp_id e))
                                   (List.map a_employeeId
                                      (generateDayAssignments rnd calls).1)))
                 EMPLOYEES) = 3%nat.
Proof.
  destruct (day_assignments_distinct rnd calls) as (_ & Hnd & _).
  destruct (day_assignments_shape rnd calls) as (staff & Hp & Heq).
  assert (Hlen : length staff = 8%nat) by (by rewrite Hp).
  exists staff. split; [exact Hp|]. split; [exact Heq|].
  split; [|split; [exact Hnd|]].
  - rewrite Heq.
    destruct staff as [|e0 [|e1 [|e2 [|e3 [|e4 [|e5 [|e6 [|e7 [|]]]]]]]]];
      try discriminate Hlen. reflexivity.
  - assert (Hids : List.map a_employeeId (generateDayAssignments rnd calls).1
                   = List.map emp_id (take 5 staff)).
    { rewrite Heq.
      destruct staff as [|e0 [|e1 [|e2 [|e3 [|e4 [|e5 [|e6 [|e7 [|]]]]]]]]];
        try discriminate Hlen. reflexivity. }
    rewrite Hids.
    rewrite <- (Permutation_length (ShiftQueryProps.filter_perm _ _ _ Hp)).
    rewrite not_among_first.
    + rewrite length_drop. lia.
    + rewrite Hp. apply EMPLOYEES_NoDup.
Qed.

(** *** The shape of a generated schedule *)

(** The rounds of the loop: each has a date string and the assignments
    of one call of [generateDayAssignments]. *)
Lemma generateLoop_rounds zone rnd fuel : forall calls cur e acc l,
  generateLoop zone rnd fuel calls cur e acc = Some l ->
  exists rounds : list (string * list ShiftAssignment),
    l = (acc ++ concat (List.map (fun r => List.map (shiftOfAssignment r.1) r.2) rounds))%list
    /\ Forall (fun r => exists c, r.2 = (generateDayAssignments rnd c).1) rounds.
Proof.
  induction fuel as [|fuel IH]; intros calls cur e acc l H; [discriminate|].
  cbn [generateLoop] in H.
  destruct cur as [cur|]; [destruct e as [e|]|];
    [|injection H as <-; exists []; simpl; by rewrite List.app_nil_r..].
  destruct (cur <=? e)%Z;
    [|injection H as <-; exists []; simpl; by rewrite List.app_nil_r].
  destruct (generateDayAssignments rnd calls) as [a calls'] eqn:E.
  apply IH in H as (rounds & -> & Hr).
  exists ((Js.first (Js.split "T"%char (JsDate.toISOString cur)), a) :: rounds).
  split; [simpl; by rewrite <- List.app_assoc|].
  constructor; [|exact Hr]. exists calls. by rewrite E.
Qed.

Lemma EMPLOYEES_shortId :
  List.Forall (fun e => emp_id e = shortId (emp_name e)) EMPLOYEES.
Proof. repeat constructor. Qed.

Lemma day_assignment_staff rnd c a :
  In a (generateDayAssignments rnd c).1 ->
  exists t e, a = assign t e /\ In e EMPLOYEES.
Proof.
  destruct (day_assignments_shape rnd c) as (staff & Hp & ->).
  intros Ha. apply List.in_map_iff in Ha as ([t e] & <- & Hin).
  exists t, e. split; [done|].
  apply list_elem_of_In, elem_of_zip_r, elem_of_take in Hin as (i & Hi & _).
  apply (Permutation_in _ Hp), list_elem_of_In. by eapply list_elem_of_lookup_2.
Qed.

Lemma assigned_shift_staff (d : string) t e :
  In e EMPLOYEES ->
  staffShift (shiftOfAssignment d (assign t e))
  /\ employeeId (shiftOfAssignment d (assign t e))
     = shortId (employeeName (shiftOfAssignment d (assign t e))).
Proof.
  intros He. split.
  - unfold staffShift. simpl. split; [done|]. split; [by destruct (SHIFT_TIMES t)|].
    by destruct e.
  - simpl. pose proof EMPLOYEES_shortId as H.
    rewrite List.Forall_forall in H. by apply H.
Qed.

(** Every shift of a generated schedule, for any dates, zone and random
    numbers, has no id yet, carries the start and end time of its type,
    is owned by a member of the staff list, and its owner field is the
    short identifier derived from the owner's display name.  The
    schedule has five shifts per round of the loop. *)
Theorem generated_shifts_wellformed (zone : JsDate.Zone) (rnd : Random) (fuel : nat)
    (startDate endDate : string) (l : list Shift) :
  generateBalancedShifts zone rnd fuel startDate endDate = Some l ->
  (forall s, In s l -> staffShift s /\ employeeId s = shortId (employeeName s))
  /\ exists rounds : nat, length l = (5 * rounds)%nat.
Proof.
  unfold generateBalancedShifts. intros H.
  apply generateLoop_rounds in H as (rounds & -> & Hr). simpl.
  rewrite List.Forall_forall in Hr. split.
  - intros s Hs. apply List.in_concat in Hs as (blk & Hblk & Hs).
    apply List.in_map_iff in Hblk as (r & <- & Hin).
    apply List.in_map_iff in Hs as (a & <- & Ha).
    destruct (Hr r Hin) as (c & Hc). rewrite Hc in Ha.
    apply day_assignment_staff in Ha as (t & e & -> & He).
    by apply assigned_shift_staff.
  - exists (length rounds). clear -Hr.
    induction rounds as [|r rounds IH]; [reflexivity|].
    simpl. rewrite List.length_app, List.length_map, IH.
    + destruct (Hr r (or_introl eq_refl)) as (c & ->).
      destruct (day_assignments_distinct rnd c) as (-> & _). lia.
    + intros x Hx. apply Hr. by right.
Qed.

Lemma generated_shifts_wellformed_witness :
  (forall s, In s Fixture.utcSchedule ->
             staffShift s /\ employeeId s = shortId (employeeName s))
  /\ exists rounds : nat, length Fixture.utcSchedule = (5 * rounds)%nat.
Proof.
  apply (generated_shifts_wellformed JsDate.utcZone (fun n => n) 10
           "2024-02-28" "2024-03-01" Fixture.utcSchedule).
  vm_compute. reflexivity.
Defined.

(** *** When the schedule keeps one shift per employee and day *)

Section Rounds.
(** The rounds as (date, owners of the five shifts). *)
Implicit Types B : list (string * list string).

Lemma pairsOf_In B x :
  In x (pairsOf B) -> In x.2 (List.map fst B).
Proof.
  unfold pairsOf. intros H. apply List.in_concat in H as (blk & Hblk & Hx).
  apply List.in_map_iff in Hblk as (b & <- & Hb).
  apply List.in_map_iff in Hx as (i & <- & _). simpl. by apply List.in_map.
Qed.

Lemma block_NoDup (d : string) (ids : list string) :
  NoDup ids -> NoDup (List.map (fun i => (i, d)) ids).
Proof.
  intros H. apply (NoDup_fmap_2 (fun i => (i, d)));
    first [exact H | by intros a b [= ->]].
Qed.

Lemma distinct_dates_pairs B :
  Forall (fun b => NoDup b.2) B -> NoDup (List.map fst B) -> NoDup (pairsOf B).
Proof.
  induction B as [|b B IH]; intros Hg Hd; [constructor|].
  apply Forall_cons in Hg as [Hb Hg]. simpl in Hd.
  apply NoDup_cons in Hd as [Hnot Hd].
  unfold pairsOf. simpl. apply NoDup_app. split; [by apply block_NoDup|]. split.
  - intros x Hx Hx'. apply list_elem_of_In in Hx, Hx'.
    apply List.in_map_iff in Hx as (i & <- & _).
    apply pairsOf_In in Hx'. simpl in Hx'. apply Hnot. by apply list_elem_of_In.
  - by apply IH.
Qed.

Lemma pairs_distinct_dates B :
  Forall (fun b => NoDup b.2 /\ length b.2 = 5%nat
                   /\ incl b.2 (List.map emp_id EMPLOYEES)) B ->
  NoDup (pairsOf B) -> NoDup (List.map fst B).
Proof.
  induction B as [|b B IH]; intros Hg Hp; [constructor|].
  apply Forall_cons in Hg as [(Hb & Hlen & Hincl) Hg].
  unfold pairsOf in Hp. simpl in Hp. apply NoDup_app in Hp as (_ & Hdis & Hp).
  simpl. apply NoDup_cons. split; [|by apply IH].
  intros Hin. apply list_elem_of_In, List.in_map_iff in Hin as (b' & Hd & Hb').
  rewrite List.Forall_forall in Hg. destruct (Hg b' Hb') as (Hnd' & Hlen' & Hincl').
  assert (Hboth : NoDup (b.2 ++ b'.2)).
  { apply NoDup_app. split; [exact Hb|]. split; [|exact Hnd'].
    intros i Hi Hi'. apply (Hdis (i, b.1)).
    - apply list_elem_of_In, (List.in_map (fun j => (j, b.1))). by apply list_elem_of_In.
    - apply list_elem_of_In, List.in_concat.
      exists (List.map (fun j => (j, b'.1)) b'.2). split.
      + apply List.in_map_iff. by exists b'.
      + rewrite Hd. apply (List.in_map (fun j => (j, b.1))). by apply list_elem_of_In. }
  apply NoDup_ListNoDup in Hboth.
  apply (List.NoDup_incl_length (l' := List.map emp_id EMPLOYEES)) in Hboth.
  - rewrite List.length_app, Hlen, Hlen' in Hboth. simpl in Hboth. lia.
  - intros i Hi. apply List.in_app_iff in Hi as [Hi|Hi]; auto.
Qed.
End Rounds.

Lemma shiftsOn_app d l k : shiftsOn d (l ++ k) = (shiftsOn d l + shiftsOn d k)%nat.
Proof. unfold shiftsOn. by rewrite List.filter_app, List.length_app. Qed.

Lemma shiftsOn_block d D (a : list ShiftAssignment) :
  shiftsOn d (List.map (shiftOfAssignment D) a)
  = if String.eqb D d then length a else 0%nat.
Proof.
  unfold shiftsOn. induction a as [|x a IH]; simpl; [by destruct (String.eqb D d)|].
  destruct (String.eqb D d); simpl in *; by rewrite IH.
Qed.

Lemma shiftsOn_rounds rnd (rounds : list (string * list ShiftAssignment)) d :
  Forall (fun r => exists c, r.2 = (generateDayAssignments rnd c).1) rounds ->
  shiftsOn d (concat (List.map (fun r => List.map (shiftOfAssignment r.1) r.2) rounds))
  = (5 * count_occ string_dec (List.map fst rounds) d)%nat.
Proof.
  induction rounds as [|r rounds IH]; intros Hr; [reflexivity|].
  apply Forall_cons in Hr as [(c & Hc) Hr].
  simpl. rewrite shiftsOn_app, shiftsOn_block, IH by done.
  rewrite Hc. destruct (day_assignments_distinct rnd c) as (-> & _).
  destruct (string_dec r.1 d) as [->|Hne].
  - rewrite String.eqb_refl. lia.
  - apply String.eqb_neq in Hne. rewrite Hne. lia.
Qed.

Lemma pairs_of_rounds (rounds : list (string * list ShiftAssignment)) :
  List.map (fun s => (employeeId s, date s))
    (concat (List.map (fun r => List.map (shiftOfAssignment r.1) r.2) rounds))
  = pairsOf (List.map (fun r => (r.1, List.map a_employeeId r.2)) rounds).
Proof.
  unfold pairsOf. induction rounds as [|r rounds IH]; [reflexivity|].
  simpl. by rewrite List.map_app, assigned_owner_and_date, IH.
Qed.

(** A generated schedule gives no employee two shifts on one date
    exactly when no date is carried by more than five of its shifts,
    that is, when no two rounds of the loop print the same date. *)
Theorem one_shift_per_day_iff (zone : JsDate.Zone) (rnd : Random) (fuel : nat)
    (startDate endDate : string) (l : list Shift) :
  generateBalancedShifts zone rnd fuel startDate endDate = Some l ->
  (oneShiftPerEmployeePerDay l <-> forall d, (shiftsOn d l <= 5)%nat).
Proof.
  unfold generateBalancedShifts. intros H.
  apply generateLoop_rounds in H as (rounds & -> & Hr). simpl.
  unfold oneShiftPerEmployeePerDay. rewrite pairs_of_rounds.
  set (B := List.map (fun r => (r.1, List.map a_employeeId r.2)) rounds).
  assert (Hgood : Forall (fun b => NoDup b.2 /\ length b.2 = 5%nat
                                   /\ incl b.2 (List.map emp_id EMPLOYEES)) B).
  { subst B. apply Forall_fmap. eapply Forall_impl; [exact Hr|].
    intros r (c & Hc). simpl. rewrite Hc.
    destruct (day_assignments_distinct rnd c) as (Hlen & Hnd & Hincl).
    by rewrite List.length_map. }
  assert (Hdates : List.map fst B = List.map fst rounds).
  { subst B. by rewrite List.map_map. }
  assert (Hcount : NoDup (List.map fst B) <-> forall d, (shiftsOn d
            (concat (List.map (fun r => List.map (shiftOfAssignment r.1) r.2) rounds))
            <= 5)%nat).
  { rewrite Hdates, NoDup_ListNoDup, (List.NoDup_count_occ string_dec).
    split; intros Hc d; specialize (Hc d);
      rewrite (shiftsOn_rounds rnd) in * by done; lia. }
  rewrite <- Hcount. split.
  - by apply pairs_distinct_dates.
  - apply distinct_dates_pairs. eapply Forall_impl; [exact Hgood|]. by intros b (? & _).
Qed.

Lemma one_shift_per_day_iff_witness :
  oneShiftPerEmployeePerDay Fixture.utcSchedule
  <-> forall d, (shiftsOn d Fixture.utcSchedule <= 5)%nat.
Proof.
  apply (one_shift_per_day_iff JsDate.utcZone (fun n => n) 10
           "2024-02-28" "2024-03-01" Fixture.utcSchedule).
  vm_compute. reflexivity.
Defined.

End GeneratorMore.

(** ** The rest of the service *)

Module ServiceProps.

Import Service SortProps ShiftQueryProps.

Lemma find_first {A} (p : A -> bool) (l : list A) x :
  List.find p l = Some x ->
  exists l1 l2, l = (l1 ++ x :: l2)%list /\ p x = true /\ Forall (fun y => p y = false) l1.
Proof.
  induction l as [|y r IH]; simpl; [done|].
  destruct (p y) eqn:E.
  - intros Hy. injection Hy as Hy. subst y. by exists [], r.
  - intros H. destruct (IH H) as (l1 & l2 & -> & Hx & Hl1).
    exists (y :: l1), l2. repeat split; [done|]. by constructor.
Qed.





Lemma NoDup_filter_list {A} (f : A -> bool) (l : list A) : NoDup l -> NoDup (List.filter f l).
Proof.
  induction 1 as [|x l Hx Hl IH]; simpl; [constructor|].
  destruct (f x); [|done]. constructor; [|done].
  rewrite list_elem_of_In in *. intros Hin. apply Hx.
  by apply List.filter_In in Hin as [Hin _].
Qed.


Lemma users_find_id st userId :
  Js.find (fun u : User => String.eqb (user_id u) userId)
    (List.map (fun d => userOfDoc d.1 d.2) (docsById (users st)))
  = option_map (userOfDoc userId) (users st !! userId).
Proof.
  unfold Js.find.
  destruct (List.find _ _) as [u|] eqn:E.
  - apply List.find_some in E as [Hin Hid]. apply String.eqb_eq in Hid.
    apply List.in_map_iff in Hin as ([k d] & <- & Hin). simpl in *. subst k.
    apply docsById_In in Hin. by rewrite Hin.
  - destruct (users st !! userId) as [d|] eqn:Hd; [|done]. exfalso.
    apply docsById_In in Hd.
    pose proof (List.find_none _ _ E (userOfDoc userId d)) as Hn.
    simpl in Hn. rewrite String.eqb_refl in Hn.
    assert (true = false); [|done]. apply Hn.
    apply List.in_map_iff. by exists (userId, d).
Qed.

(** [getUserById] is the lookup of the document with that id: it never
    fails and never writes, returns the user built from the stored
    document, and null (here [None]) for an id without document.  A user
    added with [addUser] is returned under the id [addUser] gave back, and
    adding it changes the answer for no other id. *)
Theorem getUserById_lookup (st : Store) (userId : string) :
  getUserById userId st = (st, Done (option_map (userOfDoc userId) (users st !! userId)))
  /\ forall newId d,
       (getUserById newId (addUser newId d st).1).2 = Done (Some (userOfDoc newId d))
       /\ (userId <> newId ->
           (getUserById userId (addUser newId d st).1).2 = (getUserById userId st).2).
Proof.
  assert (H : forall st k, getUserById k st
                = (st, Done (option_map (userOfDoc k) (users st !! k)))).
  { intros st0 k. unfold getUserById, bind, getUsers, ret. simpl.
    by rewrite users_find_id. }
  split; [apply H|]. intros newId d. rewrite !H. simpl. split.
  - by rewrite lookup_insert_eq.
  - intros Hne. by rewrite lookup_insert_ne.
Qed.

Lemma sorted_app_inv {A} (R : A -> A -> Prop) (l1 l2 : list A) x :
  StronglySorted R (l1 ++ x :: l2) -> Forall (R x) l2.
Proof.
  induction l1 as [|y l1 IH]; simpl; intros H; apply StronglySorted_inv in H as [H1 H2].
  - rewrite List.Forall_forall in H2. rewrite Forall_forall. intros z Hz.
    apply H2. by apply list_elem_of_In.
  - by apply IH.
Qed.

(** [getUserByEmail] compares addresses without regard to the case of
    the letters, on both sides.  For an ASCII address, among stored
    addresses that are ASCII: it returns a stored user whose address is
    the given one up to case, the one with the least document id if there
    are several, and null exactly when no stored address is. *)
Theorem getUserByEmail_ignores_case (st : Store) (email : string) :
  Js.isAscii email = true ->
  Notions.asciiEmails st ->
  exists r,
    getUserByEmail email st = (st, Done r)
    /\ getUserByEmail (Js.toLowerCase email) st = (st, Done r)
    /\ (forall u, r = Some u ->
          Js.toLowerCase (user_email u) = Js.toLowerCase email
          /\ (exists d, users st !! user_id u = Some d /\ u = userOfDoc (user_id u) d)
          /\ forall k d, users st !! k = Some d ->
               Js.toLowerCase (u_email d) = Js.toLowerCase email ->
               byteLe (user_id u) k)
    /\ (r = None <->
        forall k d, users st !! k = Some d ->
          Js.toLowerCase (u_email d) <> Js.toLowerCase email).
Proof.
  intros _ _.
  unfold getUserByEmail, bind, getUsers, ret, Js.find. simpl.
  rewrite IdentityProps.toLowerCase_idem.
  set (p := fun u : User => String.eqb (Js.toLowerCase (user_email u)) (Js.toLowerCase email)).
  set (l := List.map (fun d => userOfDoc d.1 d.2) (docsById (users st))).
  exists (List.find p l). split; [done|]. split; [done|]. split.
  - intros u Hu. destruct (find_first _ _ _ Hu) as (l1 & l2 & Hl & Hp & Hl1).
    apply String.eqb_eq in Hp. split; [exact Hp|].
    assert (Hin : In u l) by (rewrite Hl; apply List.in_or_app; simpl; auto).
    apply List.in_map_iff in Hin as ([k d] & Hkd & Hin). simpl in Hkd.
    clear Hu. subst u. simpl.
    split; [exists d; split; [by apply docsById_In|done]|].
    intros k' d' Hd' Hmatch.
    apply docsById_In in Hd'.
    assert (Hin' : In (userOfDoc k' d') l)
      by (apply List.in_map_iff; by exists (k', d')).
    assert (Hs : StronglySorted (fun a b : User => byteLe (user_id a) (user_id b)) l).
    { apply (map_sorted (fun a b : User => byteLe (user_id a) (user_id b))
               (fun d => userOfDoc d.1 d.2)), docsById_sorted. }
    rewrite Hl in Hs, Hin'.
    apply List.in_app_or in Hin' as [Hin'|[Heq|Hin']].
    + rewrite Forall_forall in Hl1.
      apply list_elem_of_In, Hl1 in Hin'. unfold p in Hin'. simpl in Hin'.
      apply String.eqb_neq in Hin'. done.
    + assert (Hk : user_id (userOfDoc k d) = user_id (userOfDoc k' d')) by by rewrite Heq.
      simpl in Hk. subst k'. unfold byteLe. by rewrite byteCompare_refl.
    + apply sorted_app_inv in Hs. rewrite Forall_forall in Hs.
      apply list_elem_of_In, Hs in Hin'. exact Hin'.
  - split.
    + intros Hnone k d Hd Hmatch. apply docsById_In in Hd.
      pose proof (List.find_none _ _ Hnone (userOfDoc k d)) as Hn.
      unfold p in Hn. simpl in Hn. rewrite Hmatch, String.eqb_refl in Hn.
      assert (true = false); [|done]. apply Hn.
      apply List.in_map_iff. by exists (k, d).
    + intros Hno. destruct (List.find p l) as [u|] eqn:E; [|done]. exfalso.
      apply List.find_some in E as [Hin Hp]. apply String.eqb_eq in Hp.
      apply List.in_map_iff in Hin as ([k d] & <- & Hin).
      apply docsById_In in Hin. by eapply Hno.
Qed.

Lemma getUserByEmail_ignores_case_witness :
  exists r,
    getUserByEmail "SARAH@schedulo.com" Fixture.twoUsers = (Fixture.twoUsers, Done r)
    /\ getUserByEmail (Js.toLowerCase "SARAH@schedulo.com") Fixture.twoUsers
       = (Fixture.twoUsers, Done r)
    /\ (forall u, r = Some u ->
          Js.toLowerCase (user_email u) = Js.toLowerCase "SARAH@schedulo.com"
          /\ (exists d, users Fixture.twoUsers !! user_id u = Some d
                        /\ u = userOfDoc (user_id u) d)
          /\ forall k d, users Fixture.twoUsers !! k = Some d ->
               Js.toLowerCase (u_email d) = Js.toLowerCase "SARAH@schedulo.com" ->
               byteLe (user_id u) k)
    /\ (r = None <->
        forall k d, users Fixture.twoUsers !! k = Some d ->
          Js.toLowerCase (u_email d) <> Js.toLowerCase "SARAH@schedulo.com").
Proof.
  apply (getUserByEmail_ignores_case Fixture.twoUsers "SARAH@schedulo.com").
  - reflexivity.
  - intros k d Hd. simpl in Hd.
    apply lookup_insert_Some in Hd as [[_ <-]|[_ Hd]]; [reflexivity|].
    apply lookup_singleton_Some in Hd as [_ <-]. reflexivity.
Defined.

(** The shifts an employee's page shows are the same whether they come
    from the first load (the ordered query of [getShiftsByEmployee], when
    the index serves it) or from the listener ([subscribeToShifts],
    filtered on the page by the short identifier): same shifts, same
    order. *)
Theorem live_view_matches_query (localeCompare : string -> string -> Z)
    (user : User) (st : Store) :
  ShiftQuery.getShiftsByEmployee localeCompare ShiftQuery.Served
    (shortId (user_name user)) st
  = (st, Done (EmployeePage.onShifts user (subscribeToShifts (shifts st)))).
Proof.
  unfold ShiftQuery.getShiftsByEmployee. do 2 f_equal.
  set (owner := shortId (user_name user)).
  change (ShiftQuery.indexedPath (shifts st) owner
          = EmployeePage.onShifts user (subscribeToShifts (shifts st))).
  assert (Hperm : Permutation (EmployeePage.onShifts user (subscribeToShifts (shifts st)))
                    (ShiftQuery.matching (shifts st) owner)).
  { unfold EmployeePage.onShifts, subscribeToShifts, ShiftQuery.matching, inOrder.
    fold owner.
    rewrite (filter_perm _ _ _ (Permutation_map _ (sort_perm _ (map_to_list (shifts st))))).
    induction (map_to_list (shifts st)) as [|[k d] r IH]; simpl; [done|].
    destruct (String.eqb (d_employeeId d) owner); simpl; [by constructor|done]. }
  apply (sorted_perm_eq ShiftQuery.byDateThenId).
  - intros a b Ha Hb Hab Hba.
    apply (Permutation_in _ (indexedPath_perm _ _)) in Ha, Hb.
    eapply NoDup_ids_inj; eauto using matching_NoDup, byDateThenId_antisym.
  - apply indexedPath_sorted.
  - apply filter_sorted. unfold subscribeToShifts, inOrder.
    rewrite (sort_map (fun d => shiftOfDoc d.1 d.2) _
               (fun a b => signOf (ShiftQuery.shiftDateThenId a b))); [|done].
    apply ordered_sort_sorted.
  - rewrite Hperm. apply indexedPath_perm.
Qed.


End ServiceProps.

(** ** Swap requests, from the request to the answer *)

Module SwapFlowProps.

Import SwapEngine Service SortProps ShiftQueryProps ServiceProps.

Ltac run_response :=
  unfold tryCatch, bind, updateShift, updateSwapRequest, addActivityLog, ret.

Lemma insert_keeps_keys {D} (c : gmap string D) k v v' :
  c !! k = Some v -> forall k', is_Some (<[k := v']> c !! k') <-> is_Some (c !! k').
Proof.
  intros Hk k'. destruct (decide (k' = k)) as [->|Hne].
  - rewrite lookup_insert_eq, Hk. split; eauto.
  - by rewrite lookup_insert_ne.
Qed.

Lemma insert_related {D} (R : D -> D -> Prop) (c : gmap string D) k v v' :
  c !! k = Some v -> R v v' -> (forall x, R x x) ->
  forall k' d d', c !! k' = Some d -> <[k := v']> c !! k' = Some d' -> R d d'.
Proof.
  intros Hk HR Hrefl k' d d' H0 H1. destruct (decide (k' = k)) as [->|Hne].
  - rewrite lookup_insert_eq in H1. by simplify_eq.
  - rewrite lookup_insert_ne in H1 by done. by simplify_eq.
Qed.

(** The stores [handleSwapResponse] can leave behind. *)
Lemma handleSwapResponse_cases env user reqs requestId accept st :
  let st' := (handleSwapResponse env user reqs requestId accept st).1 in
  exists sh rq entries,
    st' = {| users := users st; shifts := sh; swapRequests := rq;
             activityLogs := (activityLogs st ++ entries)%list |}
    /\ (length entries <= 1)%nat
    /\ (sh = shifts st
        \/ accept = true
           /\ exists k d owner name,
                shifts st !! k = Some d
                /\ sh = <[k := mkShiftData owner name (d_date d) (d_type d)
                                  (d_startTime d) (d_endTime d)]> (shifts st))
    /\ (rq = swapRequests st
        \/ exists rd new, swapRequests st !! requestId = Some rd
                          /\ rq = <[requestId := setStatus new rd]> (swapRequests st)).
Proof.
  assert (Hself : exists sh rq entries,
    st = {| users := users st; shifts := sh; swapRequests := rq;
            activityLogs := (activityLogs st ++ entries)%list |}
    /\ (length entries <= 1)%nat
    /\ (sh = shifts st
        \/ accept = true
           /\ exists k d owner name,
                shifts st !! k = Some d
                /\ sh = <[k := mkShiftData owner name (d_date d) (d_type d)
                                  (d_startTime d) (d_endTime d)]> (shifts st))
    /\ (rq = swapRequests st
        \/ exists rd new, swapRequests st !! requestId = Some rd
                          /\ rq = <[requestId := setStatus new rd]> (swapRequests st))).
  { exists (shifts st), (swapRequests st), []. rewrite List.app_nil_r.
    split_and!; [by destruct st|simpl; lia|by left|by left]. }
  unfold handleSwapResponse.
  destruct (Js.find _ reqs) as [r|]; [|exact Hself].
  run_response.
  destruct accept; [destruct (shift r) as [s|]|].
  - destruct (shifts st !! shift_id s) as [d|] eqn:Hd; simpl; [|exact Hself].
    destruct (swapRequests st !! requestId) as [rd|] eqn:Hl; simpl.
    + eexists _, _, [_]. split_and!; [reflexivity|simpl; lia| |].
      * right. split; [done|]. by eexists _, _, _, _.
      * right. by eexists _, _.
    + eexists _, _, []. rewrite List.app_nil_r. split_and!; [reflexivity|simpl; lia| |].
      * right. split; [done|]. by eexists _, _, _, _.
      * by left.
  - simpl. destruct (swapRequests st !! requestId) as [rd|] eqn:Hl; simpl; [|exact Hself].
    eexists _, _, [_]. split_and!; [reflexivity|simpl; lia|by left|].
    right. by eexists _, _.
  - simpl. destruct (swapRequests st !! requestId) as [rd|] eqn:Hl; simpl; [|exact Hself].
    eexists _, _, [_]. split_and!; [reflexivity|simpl; lia|by left|].
    right. by eexists _, _.
Qed.

(** Whatever the outcome, [handleSwapResponse] creates and deletes no
    document.  It leaves the users alone, changes of a shift nothing but
    its owner, of a request nothing but its status and of no request but
    the answered one, leaves every shift as it is when declining, and
    appends at most one entry to the activity log. *)
Theorem respond_keeps_documents (env : Env) (user : User) (reqs : list SwapRequest)
    (requestId : string) (accept : bool) (st : Store) :
  let st' := (handleSwapResponse env user reqs requestId accept st).1 in
  users st' = users st
  /\ (forall k, is_Some (shifts st' !! k) <-> is_Some (shifts st !! k))
  /\ (forall k, is_Some (swapRequests st' !! k) <-> is_Some (swapRequests st !! k))
  /\ (forall k d d', shifts st !! k = Some d -> shifts st' !! k = Some d' ->
        d_date d' = d_date d /\ d_type d' = d_type d
        /\ d_startTime d' = d_startTime d /\ d_endTime d' = d_endTime d)
  /\ (forall k rd rd', swapRequests st !! k = Some rd -> swapRequests st' !! k = Some rd' ->
        setStatus (status rd) rd' = rd /\ (k <> requestId -> rd' = rd))
  /\ (accept = false -> shifts st' = shifts st)
  /\ exists entries, activityLogs st' = (activityLogs st ++ entries)%list
                     /\ (length entries <= 1)%nat.
Proof.
  assert (Hrd : forall rd : SwapRequestData, setStatus (status rd) rd = rd) by by intros [].
  destruct (handleSwapResponse_cases env user reqs requestId accept st)
    as (sh & rq & entries & Hst & Hlen & Hsh & Hrq).
  intros st'. subst st'. rewrite Hst. simpl. split_and!.
  - done.
  - destruct Hsh as [->|(_ & k & d & o & n & Hk & ->)]; [done|].
    by eapply insert_keeps_keys.
  - destruct Hrq as [->|(rd & new & Hk & ->)]; [done|].
    by eapply insert_keeps_keys.
  - destruct Hsh as [->|(_ & k & d & o & n & Hk & ->)].
    + intros k d d' H0 H1. by simplify_eq.
    + apply (insert_related (fun d d' => d_date d' = d_date d /\ d_type d' = d_type d
               /\ d_startTime d' = d_startTime d /\ d_endTime d' = d_endTime d)
               _ _ _ _ Hk); done.
  - destruct Hrq as [->|(rd & new & Hk & ->)].
    + intros k rd rd' H0 H1. simplify_eq. by rewrite Hrd.
    + intros k rd0 rd' H0 H1. destruct (decide (k = requestId)) as [->|Hne].
      * rewrite lookup_insert_eq in H1. simplify_eq. split; [|done].
        match goal with |- setStatus _ (setStatus _ ?x) = _ => by destruct x end.
      * rewrite lookup_insert_ne in H1 by done. simplify_eq. by rewrite Hrd.
  - intros ->. by destruct Hsh as [->|[? _]].
  - by exists entries.
Qed.



(** The three writes of an accept are not undone together: when the
    page still lists a request whose document is gone from the store, an
    accept hands the shift of the snapshot to the recipient, then fails
    on the request; the user sees the error toast, no status and no log
    entry are written, and the shift stays with its new owner. *)
Theorem failed_accept_keeps_transfer (env : Env) (user : User) (reqs : list SwapRequest)
    (requestId : string) (st : Store) (r : SwapRequest) (s : Shift) (d : ShiftData) :
  Js.find (fun r => String.eqb (request_id r) requestId) reqs = Some r ->
  shift r = Some s ->
  shifts st !! shift_id s = Some d ->
  swapRequests st !! requestId = None ->
  exists st',
    handleSwapResponse env user reqs requestId true st
    = (st', Some (errorToast "Failed to respond to swap request."))
    /\ shifts st' = <[shift_id s := mkShiftData (toEmployeeId r) (toEmployeeName r)
                                      (d_date d) (d_type d) (d_startTime d) (d_endTime d)]>
                      (shifts st)
    /\ users st' = users st
    /\ swapRequests st' = swapRequests st
    /\ activityLogs st' = activityLogs st.
Proof.
  intros Hfind Hs Hd Hl. unfold handleSwapResponse. rewrite Hfind, Hs. run_response.
  rewrite Hd. simpl. rewrite Hl. simpl. eexists. split; [reflexivity|]. done.
Qed.

Lemma failed_accept_keeps_transfer_witness :
  exists st',
    handleSwapResponse Fixture.env Fixture.sarah [Fixture.pendingRequest] "swap1" true
      Fixture.orphanStore
    = (st', Some (errorToast "Failed to respond to swap request."))
    /\ shifts st' = <[ "shift1" := mkShiftData "sarah" "Sarah Johnson"
                                     "2024-11-27" day "08:00" "16:00" ]>
                      (shifts Fixture.orphanStore)
    /\ users st' = users Fixture.orphanStore
    /\ swapRequests st' = swapRequests Fixture.orphanStore
    /\ activityLogs st' = activityLogs Fixture.orphanStore.
Proof.
  apply (failed_accept_keeps_transfer Fixture.env Fixture.sarah [Fixture.pendingRequest]
           "swap1" Fixture.orphanStore Fixture.pendingRequest Fixture.snapshot
           Fixture.johnsShift); reflexivity.
Defined.

Lemma inbox_In (c : gmap string SwapRequestData) e (r : SwapRequest) :
  In r (List.map (fun d => mkSwapRequest d.1 d.2)
          (List.filter (fun d => String.eqb (toEmployeeId d.2) e) (docsById c)))
  <-> c !! request_id r = Some (request_data r) /\ toEmployeeId r = e.
Proof.
  rewrite List.in_map_iff. split.
  - intros ([k d] & <- & Hin). apply List.filter_In in Hin as [Hin He].
    apply docsById_In in Hin. apply String.eqb_eq in He. done.
  - intros [Hl He]. exists (request_id r, request_data r). split; [by destruct r|].
    apply List.filter_In. split; [by apply docsById_In|by apply String.eqb_eq].
Qed.

(** A request made with [handleSwapConfirm] under a fresh document id
    shows up in the requests [getSwapRequestsByEmployee] returns for the
    short identifier of the chosen colleague's name, and so for every
    employee whose first name gives that identifier; the requests
    returned for any identifier are otherwise what they were. *)
Theorem request_reaches_inbox (env : Env) (user : User) (selectedShift : Shift)
    (targetEmployeeId targetEmployeeName : string) (st : Store) (e : string) :
  swapRequests st !! newId env = None ->
  exists st' t before after,
    handleSwapConfirm env user (Some selectedShift) targetEmployeeId targetEmployeeName st
    = (st', Some t)
    /\ title t = "Swap Request Sent"
    /\ getSwapRequestsByEmployee e st = (st, Done before)
    /\ getSwapRequestsByEmployee e st' = (st', Done after)
    /\ forall r,
         In r after <->
         In r before
         \/ (e = shortId targetEmployeeName
             /\ r = mkSwapRequest (newId env)
                      {| fromEmployeeId := shortId (user_name user);
                         fromEmployeeName := user_name user;
                         toEmployeeId := shortId targetEmployeeName;
                         toEmployeeName := targetEmployeeName;
                         shiftId := shift_id selectedShift;
                         shift := Some selectedShift;
                         status := pending;
                         createdAt := now env |}).
Proof.
  intros Hfresh. unfold handleSwapConfirm. run_response. unfold addSwapRequest. simpl.
  eexists _, _, _, _. split; [reflexivity|]. split; [reflexivity|].
  split; [reflexivity|]. split; [reflexivity|]. simpl.
  intros r. rewrite !inbox_In. split.
  - intros [Hl He]. apply lookup_insert_Some in Hl as [[Hk Hd]|[Hk Hl]].
    + right. destruct r as [k rd]. simpl in *. by subst.
    + by left.
  - intros [[Hl He]|[-> ->]]; simpl.
    + split; [|done]. rewrite lookup_insert_ne; [done|]. intros Hk. congruence.
    + by rewrite lookup_insert_eq.
Qed.

Lemma request_reaches_inbox_witness :
  exists st' t before after,
    handleSwapConfirm Fixture.env Fixture.john (Some Fixture.snapshot)
      (user_id Fixture.sarah) "Sarah Johnson" Fixture.orphanStore
    = (st', Some t)
    /\ title t = "Swap Request Sent"
    /\ getSwapRequestsByEmployee "sarah" Fixture.orphanStore
       = (Fixture.orphanStore, Done before)
    /\ getSwapRequestsByEmployee "sarah" st' = (st', Done after)
    /\ forall r,
         In r after <->
         In r before
         \/ ("sarah" = shortId "Sarah Johnson"
             /\ r = mkSwapRequest "swap1"
                      {| fromEmployeeId := shortId "John Smith";
                         fromEmployeeName := "John Smith";
                         toEmployeeId := shortId "Sarah Johnson";
                         toEmployeeName := "Sarah Johnson";
                         shiftId := "shift1";
                         shift := Some Fixture.snapshot;
                         status := pending;
                         createdAt := "2024-11-20T09:00:00.000Z" |}).
Proof.
  apply (request_reaches_inbox Fixture.env Fixture.john Fixture.snapshot
           (user_id Fixture.sarah) "Sarah Johnson" Fixture.orphanStore "sarah").
  reflexivity.
Defined.

Lemma onSwapRequests_subscribe getDoc e (c : gmap string SwapRequestData) init :
  EmployeePage.onSwapRequests (Subscription.subscribeToSwapRequests getDoc e c) init
  = List.map (fun d => (Subscription.enrich getDoc (mkSwapRequest d.1 d.2)).1)
      (Subscription.snapshotDocs c e).
Proof.
  unfold EmployeePage.onSwapRequests, Subscription.subscribeToSwapRequests,
    Subscription.onSnapshot.
  rewrite List.fold_left_app. simpl. by rewrite !List.map_map.
Qed.

Lemma enrich_with_snapshot getDoc (req : SwapRequest) :
  shift req <> None -> (Subscription.enrich getDoc req).1 = req.
Proof. unfold Subscription.enrich. by destruct (shift req). Qed.

(** After a snapshot the page's list of swap requests is, whatever it
    was before, the list [getSwapRequestsByEmployee] returns for the same
    identifier on the same store, request by request and in that order,
    but for the shift snapshots the listener fills in; where every
    stored request carries its snapshot the two lists are the same. *)
Theorem subscription_matches_query (getDoc : string -> Subscription.Lookup)
    (e : string) (st : Store) (init : list SwapRequest) :
  let delivered :=
    EmployeePage.onSwapRequests
      (Subscription.subscribeToSwapRequests getDoc e (swapRequests st)) init in
  exists queried,
    getSwapRequestsByEmployee e st = (st, Done queried)
    /\ Forall2 (fun q out => Subscription.sameButShift q out
                             /\ (shift q <> None -> out = q)) queried delivered
    /\ ((forall k rd, swapRequests st !! k = Some rd -> shift rd <> None) ->
        delivered = queried).
Proof.
  intros delivered. subst delivered. rewrite onSwapRequests_subscribe.
  eexists. split; [reflexivity|].
  unfold Subscription.snapshotDocs. split.
  - induction (List.filter _ _) as [|d l IH]; simpl; constructor; [|exact IH].
    split.
    + apply (SubscriptionProps.enrich_enriched getDoc (mkSwapRequest d.1 d.2)).
    + apply enrich_with_snapshot.
  - intros Hall.
    assert (Hin : forall d, In d (List.filter (fun d : string * SwapRequestData =>
                      String.eqb (toEmployeeId d.2) e) (docsById (swapRequests st))) ->
                    shift d.2 <> None).
    { intros [k rd] Hd. apply List.filter_In in Hd as [Hd _].
      apply docsById_In in Hd. by eapply Hall. }
    induction (List.filter _ _) as [|d l IH]; simpl; [done|].
    rewrite enrich_with_snapshot by (apply (Hin d); simpl; auto).
    f_equal. apply IH. intros d' Hd'. apply Hin. simpl. auto.
Qed.

Lemma subscription_matches_query_witness :
  let delivered :=
    EmployeePage.onSwapRequests
      (Subscription.subscribeToSwapRequests (fun _ => Subscription.Missing) "sarah"
         (swapRequests Fixture.pendingStore)) [] in
  exists queried,
    getSwapRequestsByEmployee "sarah" Fixture.pendingStore
    = (Fixture.pendingStore, Done queried)
    /\ Forall2 (fun q out => Subscription.sameButShift q out
                             /\ (shift q <> None -> out = q)) queried delivered
    /\ ((forall k rd, swapRequests Fixture.pendingStore !! k = Some rd -> shift rd <> None) ->
        delivered = queried).
Proof.
  exact (subscription_matches_query (fun _ => Subscription.Missing) "sarah"
           Fixture.pendingStore []).
Defined.

Lemma NoDup_fst_filter {K D} (f : K * D -> bool) (l : list (K * D)) :
  NoDup (List.map fst l) -> NoDup (List.map fst (List.filter f l)).
Proof.
  induction l as [|x r IH]; simpl; [done|].
  rewrite NoDup_cons. intros [Hx Hr]. destruct (f x); simpl; [|by apply IH].
  apply NoDup_cons. split; [|by apply IH].
  rewrite list_elem_of_In in *. intros Hin. apply Hx.
  apply List.in_map_iff in Hin as (y & Hy & Hin).
  apply List.filter_In in Hin as [Hin _]. apply List.in_map_iff. by exists y.
Qed.

Lemma find_request_by_id (g : string * SwapRequestData -> SwapRequest)
    (l : list (string * SwapRequestData)) k v :
  (forall d, request_id (g d) = d.1) ->
  NoDup (List.map fst l) -> In (k, v) l ->
  Js.find (fun r => String.eqb (request_id r) k) (List.map g l) = Some (g (k, v)).
Proof.
  intros Hg. unfold Js.find. induction l as [|x r IH]; simpl; [done|].
  rewrite NoDup_cons, list_elem_of_In. intros [Hx Hr] [->|Hin].
  - by rewrite Hg, String.eqb_refl.
  - rewrite Hg. destruct (String.eqb x.1 k) eqn:E; [|by apply IH].
    apply String.eqb_eq in E. exfalso. apply Hx. rewrite E.
    apply List.in_map_iff. by exists (k, v).
Qed.

(** From the request to the answer.  An employee asks a colleague to
    take a stored shift ([handleSwapConfirm]); the colleague's page
    receives its snapshot of the swap requests
    ([subscribeToSwapRequests]) and accepts the request
    ([handleSwapResponse]).  The accept succeeds, the stored request is
    accepted, the shift is the colleague's with its date, type and times
    as before and is among the shifts [getShiftsByEmployee] returns for
    the colleague; it is not among those of the requester, unless the two
    have the same short identifier. *)
Theorem swap_round_trip (env env' : Env) (requester recipient : User)
    (getDoc : string -> Subscription.Lookup) (localeCompare : string -> string -> Z)
    (k : string) (d : ShiftData) (st : Store) :
  shifts st !! k = Some d ->
  let moved := mkShiftData (shortId (user_name recipient)) (user_name recipient)
                 (d_date d) (d_type d) (d_startTime d) (d_endTime d) in
  let st1 := (handleSwapConfirm env requester (Some (shiftOfDoc k d))
                (user_id recipient) (user_name recipient) st).1 in
  let reqs := EmployeePage.onSwapRequests
                (Subscription.subscribeToSwapRequests getDoc
                   (shortId (user_name recipient)) (swapRequests st1)) [] in
  exists st2 t mine theirs,
    handleSwapResponse env' recipient reqs (newId env) true st1 = (st2, t)
    /\ succeeded true t
    /\ option_map status (swapRequests st2 !! newId env) = Some accepted
    /\ shifts st2 = <[k := moved]> (shifts st)
    /\ ShiftQuery.getShiftsByEmployee localeCompare ShiftQuery.Served
         (shortId (user_name recipient)) st2 = (st2, Done mine)
    /\ In (shiftOfDoc k moved) mine
    /\ ShiftQuery.getShiftsByEmployee localeCompare ShiftQuery.Served
         (shortId (user_name requester)) st2 = (st2, Done theirs)
    /\ (shortId (user_name requester) <> shortId (user_name recipient) ->
        forall s, In s theirs -> shift_id s <> k).
Proof.
  intros Hd moved st1 reqs.
  set (data := {| fromEmployeeId := shortId (user_name requester);
                  fromEmployeeName := user_name requester;
                  toEmployeeId := shortId (user_name recipient);
                  toEmployeeName := user_name recipient;
                  shiftId := k;
                  shift := Some (shiftOfDoc k d);
                  status := pending;
                  createdAt := now env |}).
  assert (Hst1 : shifts st1 = shifts st
                 /\ swapRequests st1 = <[newId env := data]> (swapRequests st)) by done.
  destruct Hst1 as [Hsh1 Hrq1].
  assert (Hfind : Js.find (fun r => String.eqb (request_id r) (newId env)) reqs
                  = Some (mkSwapRequest (newId env) data)).
  { subst reqs. rewrite onSwapRequests_subscribe.
    rewrite (find_request_by_id _ _ (newId env) data).
    - by rewrite enrich_with_snapshot.
    - intros x.
      by destruct (SubscriptionProps.enrich_enriched getDoc (mkSwapRequest x.1 x.2))
        as [(Hid & _) _].
    - apply NoDup_fst_filter, docsById_NoDup.
    - apply List.filter_In. split.
      + apply docsById_In. rewrite Hrq1. apply lookup_insert_eq.
      + simpl. apply String.eqb_refl. }
  clearbody reqs. clearbody st1.
  unfold handleSwapResponse. rewrite Hfind. run_response. simpl.
  rewrite Hsh1, Hd. simpl. rewrite Hrq1, lookup_insert_eq. simpl.
  eexists _, _, _, _. split; [reflexivity|]. simpl.
  split; [reflexivity|]. rewrite lookup_insert_eq. split; [reflexivity|].
  split; [reflexivity|]. split; [reflexivity|]. simpl. split; [|split; [reflexivity|]].
  - change (In (shiftOfDoc k moved)
              (ShiftQuery.indexedPath (<[k := moved]> (shifts st))
                 (shortId (user_name recipient)))).
    apply (Permutation_in _ (Permutation_sym (indexedPath_perm _ _))).
    apply matching_In. exists moved. simpl. by rewrite lookup_insert_eq.
  - intros Hne s Hs Hk.
    change (In s (ShiftQuery.indexedPath (<[k := moved]> (shifts st))
                    (shortId (user_name requester)))) in Hs.
    apply (Permutation_in _ (indexedPath_perm _ _)) in Hs.
    apply matching_In in Hs as (d' & Hl & _ & Ho).
    rewrite Hk, lookup_insert_eq in Hl. by simplify_eq.
Qed.

Lemma swap_round_trip_witness :
  let moved := mkShiftData (shortId "Sarah Johnson") "Sarah Johnson"
                 "2024-11-27" day "08:00" "16:00" in
  let st1 := (handleSwapConfirm Fixture.env Fixture.john (Some Fixture.snapshot)
                (user_id Fixture.sarah) "Sarah Johnson" Fixture.orphanStore).1 in
  let reqs := EmployeePage.onSwapRequests
                (Subscription.subscribeToSwapRequests (fun _ => Subscription.Missing)
                   (shortId "Sarah Johnson") (swapRequests st1)) [] in
  exists st2 t mine theirs,
    handleSwapResponse Fixture.laterEnv Fixture.sarah reqs "swap1" true st1 = (st2, t)
    /\ succeeded true t
    /\ option_map status (swapRequests st2 !! "swap1") = Some accepted
    /\ shifts st2 = <[ "shift1" := moved ]> (shifts Fixture.orphanStore)
    /\ ShiftQuery.getShiftsByEmployee Fixture.bytewiseLocale ShiftQuery.Served
         (shortId "Sarah Johnson") st2 = (st2, Done mine)
    /\ In (shiftOfDoc "shift1" moved) mine
    /\ ShiftQuery.getShiftsByEmployee Fixture.bytewiseLocale ShiftQuery.Served
         (shortId "John Smith") st2 = (st2, Done theirs)
    /\ (shortId "John Smith" <> shortId "Sarah Johnson" ->
        forall s, In s theirs -> shift_id s <> "shift1").
Proof.
  apply (swap_round_trip Fixture.env Fixture.laterEnv Fixture.john Fixture.sarah
           (fun _ => Subscription.Missing) Fixture.bytewiseLocale
           "shift1" Fixture.johnsShift Fixture.orphanStore).
  reflexivity.
Defined.

End SwapFlowProps.

(** ** The manager's page *)

Module ManagerPageProps.

Import SwapEngine Service ManagerPage SortProps ShiftQueryProps ServiceProps SwapFlowProps.

Lemma find_shift_by_id (l : list (string * ShiftData)) k v :
  NoDup (List.map fst l) -> In (k, v) l ->
  Js.find (fun s => String.eqb (shift_id s) k) (List.map (fun d => shiftOfDoc d.1 d.2) l)
  = Some (shiftOfDoc k v).
Proof.
  unfold Js.find. induction l as [|x r IH]; simpl; [done|].
  rewrite NoDup_cons, list_elem_of_In. intros [Hx Hr] [->|Hin].
  - simpl. by rewrite String.eqb_refl.
  - destruct (String.eqb x.1 k) eqn:E; [|by apply IH].
    apply String.eqb_eq in E. exfalso. apply Hx. rewrite E.
    apply List.in_map_iff. by exists (k, v).
Qed.

(** Dropping a dragged shift on an employee of the page's list, when
    the shift document exists: the shift gets the short identifier and
    the name of that employee and the date of the cell, keeps its type
    and times, and the drag is over.  The employee's page lists the shift
    from then on, and the page of nobody with another short identifier
    does. *)
Theorem drop_moves_shift (env : Env) (user : User) (employees : list User)
    (dragged : Shift) (employeeId date : string) (st : Store)
    (localeCompare : string -> string -> Z) (e : User) (d : ShiftData) :
  Js.find (fun e : User => String.eqb (user_id e) employeeId) employees = Some e ->
  shifts st !! shift_id dragged = Some d ->
  let moved := mkShiftData (shortId (user_name e)) (user_name e) date
                 (d_type d) (d_startTime d) (d_endTime d) in
  exists st' t,
    handleDrop env user employees (Some dragged) employeeId date st = (st', Some t, None)
    /\ title t = "Shift Moved"
    /\ shifts st' = <[shift_id dragged := moved]> (shifts st)
    /\ users st' = users st /\ swapRequests st' = swapRequests st
    /\ (forall owner mine,
          ShiftQuery.getShiftsByEmployee localeCompare ShiftQuery.Served owner st'
          = (st', Done mine) ->
          (owner = shortId (user_name e) -> In (shiftOfDoc (shift_id dragged) moved) mine)
          /\ (owner <> shortId (user_name e) ->
              forall s, In s mine -> shift_id s <> shift_id dragged)).
Proof.
  intros Hfind Hd moved. unfold handleDrop. rewrite Hfind. run_response.
  rewrite Hd. simpl. eexists _, _. split; [reflexivity|]. simpl.
  split_and!; try done.
  intros owner mine Hq. injection Hq as <-.
  change (List.map _ (ShiftQuery.queryWhereOrderByDate ?c owner))
    with (ShiftQuery.indexedPath c owner).
  split.
  - intros ->.
    apply (Permutation_in _ (Permutation_sym (indexedPath_perm _ _))).
    apply matching_In. exists moved. simpl. by rewrite lookup_insert_eq.
  - intros Hne s Hs Hk.
    apply (Permutation_in _ (indexedPath_perm _ _)) in Hs.
    apply matching_In in Hs as (d' & Hl & _ & Ho).
    rewrite Hk, lookup_insert_eq in Hl. by simplify_eq.
Qed.

Lemma drop_moves_shift_witness :
  let moved := mkShiftData (shortId "Sarah Johnson") "Sarah Johnson" "2024-11-30"
                 day "08:00" "16:00" in
  exists st' t,
    handleDrop Fixture.env Fixture.john [Fixture.john; Fixture.sarah]
      (Some Fixture.snapshot) (user_id Fixture.sarah) "2024-11-30" Fixture.orphanStore
    = (st', Some t, None)
    /\ title t = "Shift Moved"
    /\ shifts st' = <[ "shift1" := moved ]> (shifts Fixture.orphanStore)
    /\ users st' = users Fixture.orphanStore
    /\ swapRequests st' = swapRequests Fixture.orphanStore
    /\ (forall owner mine,
          ShiftQuery.getShiftsByEmployee Fixture.bytewiseLocale ShiftQuery.Served owner st'
          = (st', Done mine) ->
          (owner = shortId "Sarah Johnson" -> In (shiftOfDoc "shift1" moved) mine)
          /\ (owner <> shortId "Sarah Johnson" ->
              forall s, In s mine -> shift_id s <> "shift1")).
Proof.
  apply (drop_moves_shift Fixture.env Fixture.john [Fixture.john; Fixture.sarah]
           Fixture.snapshot (user_id Fixture.sarah) "2024-11-30" Fixture.orphanStore
           Fixture.bytewiseLocale Fixture.sarah Fixture.johnsShift); reflexivity.
Defined.


Lemma delete_shift_outcome_aux env user pageShifts shiftId st :
  shifts (handleDeleteShift env user pageShifts shiftId st).1 = delete shiftId (shifts st)
  /\ swapRequests (handleDeleteShift env user pageShifts shiftId st).1 = swapRequests st.
Proof.
  unfold handleDeleteShift. run_response. unfold deleteShift. simpl.
  by destruct (Js.find _ pageShifts).
Qed.

(** [handleDeleteShift] always announces the deletion, whether or not
    a document of that id was stored.  The shift is gone from the store,
    every other shift and every swap request is as it was (a request
    made for the shift is kept), and the log gets an entry exactly when
    the page's own list held a shift of that id. *)
Theorem delete_shift_outcome (env : Env) (user : User) (pageShifts : list Shift)
    (shiftId : string) (st : Store) :
  exists st' t entries,
    handleDeleteShift env user pageShifts shiftId st = (st', Some t)
    /\ title t = "Shift Deleted"
    /\ shifts st' = delete shiftId (shifts st)
    /\ users st' = users st
    /\ swapRequests st' = swapRequests st
    /\ activityLogs st' = (activityLogs st ++ entries)%list
    /\ Forall (fun l => log_type l = shift_deleted) entries
    /\ length entries
       = match Js.find (fun s => String.eqb (shift_id s) shiftId) pageShifts with
         | Some _ => 1%nat
         | None => 0%nat
         end.
Proof.
  unfold handleDeleteShift. run_response. unfold deleteShift. simpl.
  destruct (Js.find _ pageShifts) as [sh|]; simpl.
  - eexists _, _, [_]. split; [reflexivity|]. simpl. split_and!; try done.
    by repeat constructor.
  - eexists _, _, []. split; [reflexivity|]. simpl. rewrite List.app_nil_r.
    split_and!; try done.
Qed.

(** A shift the manager creates under a fresh document id and deletes
    again, from a page that has received the shifts in between: the
    shifts of the store are what they were, and the log has grown by the
    entry of the creation and the entry of the deletion. *)
Theorem create_then_delete (env env' : Env) (user : User) (shiftData : ShiftData)
    (st : Store) :
  shifts st !! newId env = None ->
  exists st1 t1 st2 t2 created deleted,
    handleCreateShift env user shiftData st = (st1, Some t1)
    /\ title t1 = "Shift Created"
    /\ shifts st1 !! newId env = Some shiftData
    /\ handleDeleteShift env' user (subscribeToShifts (shifts st1)) (newId env) st1
       = (st2, Some t2)
    /\ title t2 = "Shift Deleted"
    /\ shifts st2 = shifts st
    /\ users st2 = users st /\ swapRequests st2 = swapRequests st
    /\ activityLogs st2 = (activityLogs st ++ [created; deleted])%list
    /\ log_type created = shift_created /\ log_type deleted = shift_deleted.
Proof.
  intros Hfresh.
  assert (Hfind : Js.find (fun s => String.eqb (shift_id s) (newId env))
                    (subscribeToShifts (<[newId env := shiftData]> (shifts st)))
                  = Some (shiftOfDoc (newId env) shiftData)).
  { unfold subscribeToShifts. apply find_shift_by_id.
    - unfold inOrder.
      rewrite (Permutation_map fst (sort_perm _ _)). apply NoDup_fst_map_to_list.
    - unfold inOrder. apply (Permutation_in _ (Permutation_sym (sort_perm _ _))).
      apply list_elem_of_In, elem_of_map_to_list, lookup_insert_eq. }
  unfold handleCreateShift. run_response. unfold addShift. simpl.
  eexists _, _, _, _, _, _. split; [reflexivity|]. split; [reflexivity|]. simpl.
  split; [apply lookup_insert_eq|].
  unfold handleDeleteShift. run_response. unfold deleteShift. simpl.
  rewrite Hfind. simpl. split; [reflexivity|]. simpl.
  rewrite delete_insert_id by done. rewrite <- List.app_assoc. simpl. done.
Qed.

Lemma create_then_delete_witness :
  exists st1 t1 st2 t2 created deleted,
    handleCreateShift Fixture.managerEnv Fixture.john Fixture.sarahsShift
      Fixture.orphanStore
    = (st1, Some t1)
    /\ title t1 = "Shift Created"
    /\ shifts st1 !! "shift9" = Some Fixture.sarahsShift
    /\ handleDeleteShift Fixture.laterEnv Fixture.john (subscribeToShifts (shifts st1))
         "shift9" st1 = (st2, Some t2)
    /\ title t2 = "Shift Deleted"
    /\ shifts st2 = shifts Fixture.orphanStore
    /\ users st2 = users Fixture.orphanStore
    /\ swapRequests st2 = swapRequests Fixture.orphanStore
    /\ activityLogs st2 = (activityLogs Fixture.orphanStore ++ [created; deleted])%list
    /\ log_type created = shift_created /\ log_type deleted = shift_deleted.
Proof.
  apply (create_then_delete Fixture.managerEnv Fixture.laterEnv Fixture.john
           Fixture.sarahsShift Fixture.orphanStore).
  reflexivity.
Defined.

(** After the manager has deleted a shift, an employee who accepts a
    swap request made for it (the request still carries its snapshot) is
    shown the error toast, and nothing is written: the request stays as
    it was, pending if it was, and no shift comes back. *)
Theorem accept_after_delete_fails (env env' : Env) (manager user : User)
    (pageShifts : list Shift) (reqs : list SwapRequest) (requestId : string)
    (st : Store) (r : SwapRequest) (s : Shift) :
  Js.find (fun r => String.eqb (request_id r) requestId) reqs = Some r ->
  shift r = Some s ->
  let st1 := (handleDeleteShift env manager pageShifts (shift_id s) st).1 in
  handleSwapResponse env' user reqs requestId true st1
  = (st1, Some (errorToast "Failed to respond to swap request."))
  /\ swapRequests st1 = swapRequests st
  /\ shifts st1 !! shift_id s = None.
Proof.
  intros Hfind Hs st1.
  destruct (delete_shift_outcome_aux env manager pageShifts (shift_id s) st)
    as (Hsh & Hrq).
  fold st1 in Hsh, Hrq. clearbody st1.
  split; [|split; [exact Hrq|by rewrite Hsh, lookup_delete_eq]].
  unfold handleSwapResponse. rewrite Hfind, Hs. run_response.
  by rewrite Hsh, lookup_delete_eq.
Qed.

(** The form of the create dialog submits nothing without an employee
    of the list or without a date.  What it submits, with the times the
    dialog sets for the chosen type, carries the short identifier and the
    name of the employee and the times the generator gives that type;
    once [handleCreateShift] has stored it, the employee's page lists
    it. *)
Theorem modal_shift_reaches_employee (env : Env) (user : User) (employees : list User)
    (employeeId date : string) (type : ShiftType) (st : Store)
    (localeCompare : string -> string -> Z) (shiftData : ShiftData) :
  handleSubmit employees employeeId date type
    (handleTypeChange type).1 (handleTypeChange type).2 = Some shiftData ->
  exists e st' t mine,
    Js.find (fun e : User => String.eqb (user_id e) employeeId) employees = Some e
    /\ date <> ""
    /\ shiftData = mkShiftData (shortId (user_name e)) (user_name e) date type
                     (Generator.SHIFT_TIMES type).1 (Generator.SHIFT_TIMES type).2
    /\ handleCreateShift env user shiftData st = (st', Some t)
    /\ title t = "Shift Created"
    /\ ShiftQuery.getShiftsByEmployee localeCompare ShiftQuery.Served
         (shortId (user_name e)) st' = (st', Done mine)
    /\ In (shiftOfDoc (newId env) shiftData) mine.
Proof.
  unfold handleSubmit. intros Hsub.
  destruct (Js.find _ employees) as [e|] eqn:Hfind; [|done].
  destruct (Js.truthy date) eqn:Hdate; [|done]. injection Hsub as <-.
  exists e. unfold handleCreateShift. run_response. unfold addShift. simpl.
  eexists _, _, _. split; [done|]. split; [by intros ->|].
  split; [by destruct type|]. split; [reflexivity|]. split; [reflexivity|].
  split; [reflexivity|]. simpl.
  change (List.map _ (ShiftQuery.queryWhereOrderByDate ?c ?o))
    with (ShiftQuery.indexedPath c o).
  apply (Permutation_in _ (Permutation_sym (indexedPath_perm _ _))).
  apply matching_In. eexists. simpl. split; [apply lookup_insert_eq|]. done.
Qed.

Lemma modal_shift_reaches_employee_witness :
  exists e st' t mine,
    Js.find (fun e : User => String.eqb (user_id e) (user_id Fixture.sarah))
      [Fixture.john; Fixture.sarah] = Some e
    /\ "2024-11-28" <> ""
    /\ Fixture.sarahsShift
       = mkShiftData (shortId (user_name e)) (user_name e) "2024-11-28" afternoon
           (Generator.SHIFT_TIMES afternoon).1 (Generator.SHIFT_TIMES afternoon).2
    /\ handleCreateShift Fixture.managerEnv Fixture.john Fixture.sarahsShift
         Fixture.orphanStore = (st', Some t)
    /\ title t = "Shift Created"
    /\ ShiftQuery.getShiftsByEmployee Fixture.bytewiseLocale ShiftQuery.Served
         (shortId (user_name e)) st' = (st', Done mine)
    /\ In (shiftOfDoc "shift9" Fixture.sarahsShift) mine.
Proof.
  apply (modal_shift_reaches_employee Fixture.managerEnv Fixture.john
           [Fixture.john; Fixture.sarah] (user_id Fixture.sarah) "2024-11-28" afternoon
           Fixture.orphanStore Fixture.bytewiseLocale Fixture.sarahsShift).
  reflexivity.
Defined.

Lemma accept_after_delete_fails_witness :
  let st1 := (handleDeleteShift Fixture.managerEnv Fixture.john [Fixture.snapshot]
                "shift1" Fixture.pendingStore).1 in
  handleSwapResponse Fixture.laterEnv Fixture.sarah [Fixture.pendingRequest] "swap1" true st1
  = (st1, Some (errorToast "Failed to respond to swap request."))
  /\ swapRequests st1 = swapRequests Fixture.pendingStore
  /\ shifts st1 !! "shift1" = None.
Proof.
  apply (accept_after_delete_fails Fixture.managerEnv Fixture.laterEnv Fixture.john
           Fixture.sarah [Fixture.snapshot] [Fixture.pendingRequest] "swap1"
           Fixture.pendingStore Fixture.pendingRequest Fixture.snapshot); reflexivity.
Defined.

End ManagerPageProps.

(** ** Diagnostics: what the reports say and when *)

Module DiagnosticsMore.

Import Diagnostics DiagnosticsProps.

(** The duplicate scan is exact for its key: a group is reported if and
    only if it is the list of all shifts with one key
    [`${date}-${type}-${employeeId}`] and has two members or more.  The
    report is the all-clear if and only if there is a shift and no two
    shifts of the list have the same key; without any shift nothing is
    reported, for the handler has returned before. *)
Theorem duplicate_scan_exact (shifts : list Shift) :
  (forall dupe,
     In dupe (dupesFound shifts)
     <-> exists k,
           dupe = List.filter
                    (fun s => String.eqb
                                (date s +:+ "-" +:+ SwapEngine.shiftTypeName (type s)
                                 +:+ "-" +:+ employeeId s) k) shifts
           /\ (1 < length dupe)%nat)
  /\ (duplicateReport shifts = ["✅ No duplicate shifts found"]
      <-> shifts <> []
          /\ NoDup (List.map (fun s => date s +:+ "-" +:+ SwapEngine.shiftTypeName (type s)
                                       +:+ "-" +:+ employeeId s) shifts))
  /\ (shifts = [] -> duplicateReport shifts = []).
Proof.
  change (fun s => date s +:+ "-" +:+ SwapEngine.shiftTypeName (type s)
                   +:+ "-" +:+ employeeId s) with dupeKey.
  split; [apply dupesFound_In|]. split; [|by intros ->].
  rewrite NoDup_ListNoDup, (List.NoDup_count_occ string_dec).
  unfold duplicateReport.
  destruct shifts as [|x shifts']; [split; [done|by intros [? _]]|].
  cbn [length Nat.eqb]. set (shifts := x :: shifts').
  destruct (dupesFound shifts) as [|g gs] eqn:E; cbn [length Nat.ltb Nat.leb].
  - split; [|done]. intros _. split; [done|]. intros k. rewrite <- count_keys.
    destruct (le_lt_dec (length (List.filter (fun s => String.eqb (dupeKey s) k) shifts)) 1)
      as [Hle|Hlt]; [done|]. exfalso.
    assert (Hin : In (List.filter (fun s => String.eqb (dupeKey s) k) shifts)
                    (dupesFound shifts)) by (apply dupesFound_In; eauto).
    by rewrite E in Hin.
  - split; [discriminate|]. intros [_ Hnd]. exfalso.
    assert (Hin : In g (dupesFound shifts)) by (rewrite E; simpl; auto).
    apply dupesFound_In in Hin as (k & -> & Hlen).
    specialize (Hnd k). rewrite <- count_keys in Hnd. lia.
Qed.

Lemma newSet_NoDup xs : forall seen, NoDup (newSet seen xs).
Proof.
  induction xs as [|x r IH]; intros seen; simpl; [constructor|].
  destruct (existsb (String.eqb x) seen); [apply IH|].
  constructor; [|apply IH].
  rewrite list_elem_of_In, newSet_In. intros [_ H]. apply H. simpl. auto.
Qed.

Lemma mismatched_exact (field : SwapRequest -> string) shifts (swaps : list SwapRequest) :
  let l := List.filter (fun id => negb (setHas (shiftEmployeeIds shifts) id))
             (newSet [] (List.map field swaps)) in
  (forall id, In id l <->
     (exists r, In r swaps /\ field r = id) /\ ~ In id (List.map employeeId shifts))
  /\ NoDup l
  /\ (l = [] <-> forall r, In r swaps -> In (field r) (List.map employeeId shifts)).
Proof.
  intros l.
  assert (Hin : forall id, In id l <->
     (exists r, In r swaps /\ field r = id) /\ ~ In id (List.map employeeId shifts)).
  { intros id. subst l. rewrite List.filter_In, newSet_In, List.in_map_iff.
    rewrite negb_true_iff. unfold shiftEmployeeIds.
    rewrite <- not_true_iff_false, setHas_newSet. simpl.
    split; [intros [[(r & E & Hr) _] Hno]|intros [(r & Hr & E) Hno]]; eauto 6. }
  split; [exact Hin|]. split.
  - apply ServiceProps.NoDup_filter_list, newSet_NoDup.
  - split.
    + intros Hnil r Hr.
      destruct (List.in_dec string_dec (field r) (List.map employeeId shifts)) as [H|H];
        [done|]. exfalso.
      assert (Hl : In (field r) l) by (apply Hin; eauto).
      by rewrite Hnil in Hl.
    + intros Hall. destruct l as [|id l'] eqn:El; [done|]. exfalso.
      assert (Hl : In id (id :: l')) by (simpl; auto).
      apply Hin in Hl as [(r & Hr & <-) Hno]. by apply Hno, Hall.
Qed.

(** The swap-request analysis is exact.  The identifiers it lists as
    mismatched are the requester (recipient) identifiers of the given
    requests that no given shift has as its owner, each listed once; and
    it prints the all-clear exactly when there is a request and every
    requester and every recipient owns a shift. *)
Theorem swap_analysis_exact (shifts : list Shift) (swaps : list SwapRequest) :
  (forall id, In id (mismatchedFrom shifts swaps) <->
     (exists r, In r swaps /\ fromEmployeeId r = id)
     /\ ~ In id (List.map employeeId shifts))
  /\ (forall id, In id (mismatchedTo shifts swaps) <->
        (exists r, In r swaps /\ toEmployeeId r = id)
        /\ ~ In id (List.map employeeId shifts))
  /\ NoDup (mismatchedFrom shifts swaps)
  /\ NoDup (mismatchedTo shifts swaps)
  /\ (In "✅ All employee IDs in swap requests match shift employee IDs"
         (analysisLines shifts swaps)
      <-> swaps <> []
          /\ forall r, In r swaps ->
               In (fromEmployeeId r) (List.map employeeId shifts)
               /\ In (toEmployeeId r) (List.map employeeId shifts)).
Proof.
  destruct (mismatched_exact (fun s : SwapRequest => fromEmployeeId s) shifts swaps)
    as (Hf1 & Hf2 & Hf3).
  destruct (mismatched_exact (fun s : SwapRequest => toEmployeeId s) shifts swaps)
    as (Ht1 & Ht2 & Ht3).
  fold (mismatchedFrom shifts swaps) in Hf1, Hf2, Hf3.
  fold (mismatchedTo shifts swaps) in Ht1, Ht2, Ht3.
  split_and!; try done.
  unfold analysisLines. destruct swaps as [|r0 rs] eqn:Esw.
  { simpl. split; [|by intros [? _]].
    intros [H|[H|[H|[]]]]; exfalso; revert H; unfold nl; simpl; discriminate. }
  rewrite <- Esw in *. assert (Hlen : (0 <? length swaps)%nat = true) by by rewrite Esw.
  rewrite Hlen. clear Hlen.
  set (mf := mismatchedFrom shifts swaps) in *.
  set (mt := mismatchedTo shifts swaps) in *.
  split.
  - intros Hin. split; [by rewrite Esw|].
    rewrite !List.in_app_iff in Hin.
    destruct Hin as [Hin|[Hin|[Hin|[Hin|Hin]]]].
    + exfalso. destruct Hin as [H|[H|[H|[]]]]; revert H; unfold nl; simpl; discriminate.
    + exfalso. destruct Hin as [H|[H|[H|[]]]]; revert H; simpl; discriminate.
    + exfalso. destruct (0 <? length mf)%nat; [|done].
      destruct Hin as [H|[]]. revert H. unfold fromWarning. simpl. discriminate.
    + exfalso. destruct (0 <? length mt)%nat; [|done].
      destruct Hin as [H|[]]. revert H. unfold toWarning. simpl. discriminate.
    + destruct mf as [|? ?]; [|done]. destruct mt as [|? ?]; [|done].
      intros r Hr. split; [by apply Hf3|by apply Ht3].
  - intros [_ Hall].
    assert (Hmf : mf = []) by (apply Hf3; intros r Hr; by apply Hall).
    assert (Hmt : mt = []) by (apply Ht3; intros r Hr; by apply Hall).
    rewrite Hmf, Hmt. simpl. do 6 right. by left.
Qed.

End DiagnosticsMore.

(** ** Sign-up and login, continued *)

Module AuthMore.

Import Auth AuthProps Notions SortProps.

(** [handleSignup] keeps the addresses of the stored users distinct up
    to case, for ASCII addresses.  It refuses exactly when a stored user
    has the address entered, up to case, and then changes neither the
    store nor the credentials; otherwise it creates the account. *)
Theorem signup_keeps_emails_distinct (newId name email password : string)
    (creds : TestCredentials) (st : Store) :
  Js.isAscii email = true ->
  asciiEmails st ->
  users st !! newId = None ->
  distinctEmails st ->
  let '(st', creds', r) := handleSignup newId name email password creds st in
  distinctEmails st'
  /\ asciiEmails st'
  /\ (r = EmailTaken <->
      exists k d, users st !! k = Some d
                  /\ Js.toLowerCase (u_email d) = Js.toLowerCase email)
  /\ (r = EmailTaken -> st' = st /\ creds' = creds)
  /\ (r <> EmailTaken -> r = AccountCreated).
Proof.
  intros Hemail Hascii Hfresh Hdist.
  unfold handleSignup, tryCatch, bind, getUsers, addUser, ret.
  destruct (Js.find _ _) as [u|] eqn:Hfind.
  - simpl. split_and!; try done.
    split; [intros _|done].
    apply find_some_of in Hfind as [Hin Hp]. apply String.eqb_eq in Hp.
    apply List.in_map_iff in Hin as ([k d] & <- & Hin).
    apply docsById_In in Hin. eauto.
  - simpl. pose proof (proj1 (find_email_None st email) Hfind) as Hno.
    split_and!; try done.
    + intros k1 k2 d1 d2 H1 H2 He. simpl in H1, H2.
      apply lookup_insert_Some in H1 as [[<- <-]|[Hk1 H1]];
        apply lookup_insert_Some in H2 as [[<- <-]|[Hk2 H2]]; simpl in He.
      * done.
      * exfalso. by apply (Hno _ _ H2).
      * exfalso. by apply (Hno _ _ H1).
      * by eapply Hdist.
    + intros k d Hd. simpl in Hd.
      apply lookup_insert_Some in Hd as [[_ <-]|[_ Hd]]; [exact Hemail|by eapply Hascii].
    + split; [done|]. intros (k & d & Hd & He). exfalso. by apply (Hno _ _ Hd).
Qed.

Lemma signup_keeps_emails_distinct_witness :
  let '(st', creds', r) :=
    handleSignup "Nr7wNoraAccount00004" "Nora Quinn" "nora@schedulo.com" "s3cret"
      initialTestCredentials Fixture.twoUsers in
  distinctEmails st'
  /\ asciiEmails st'
  /\ (r = EmailTaken <->
      exists k d, users Fixture.twoUsers !! k = Some d
                  /\ Js.toLowerCase (u_email d) = Js.toLowerCase "nora@schedulo.com")
  /\ (r = EmailTaken -> st' = Fixture.twoUsers /\ creds' = initialTestCredentials)
  /\ (r <> EmailTaken -> r = AccountCreated).
Proof.
  apply (signup_keeps_emails_distinct "Nr7wNoraAccount00004" "Nora Quinn"
           "nora@schedulo.com" "s3cret" initialTestCredentials Fixture.twoUsers).
  - reflexivity.
  - intros k d Hd. simpl in Hd.
    apply lookup_insert_Some in Hd as [[_ <-]|[_ Hd]]; [reflexivity|].
    apply lookup_singleton_Some in Hd as [_ <-]. reflexivity.
  - reflexivity.
  - intros k1 k2 d1 d2 H1 H2 He. simpl in H1, H2.
    apply lookup_insert_Some in H1 as [[<- <-]|[Hk1 H1]];
      apply lookup_insert_Some in H2 as [[<- <-]|[Hk2 H2]]; try done.
    + apply lookup_singleton_Some in H2 as [_ <-]. discriminate He.
    + apply lookup_singleton_Some in H1 as [_ <-]. discriminate He.
    + apply lookup_singleton_Some in H1 as [<- _].
      by apply lookup_singleton_Some in H2 as [<- _].
Defined.

(** Whoever [handleLogin] lets in is a manager or has the email
    entered. *)
Lemma login_sound_aux creds users email password u :
  handleLogin creds users email password = Navigate u ->
  user_role u = manager \/ user_email u = email.
Proof.
  intros Hlogin. unfold handleLogin in Hlogin.
  destruct (if String.eqb email (c_email (tc_manager creds))
               && String.eqb password (c_password (tc_manager creds))
            then Js.find (fun u : User => bool_decide (user_role u = manager)) users
            else None) as [m|] eqn:Hm.
  { injection Hlogin as ->. destruct (_ && _); [|discriminate].
    apply find_some_of in Hm as [_ Hm]. apply bool_decide_eq_true in Hm. by left. }
  right.
  assert (Hdb : forall x, Js.find (dbUserMatch email password) users = Some x ->
                  user_email x = email).
  { intros x Hx. apply find_some_of in Hx as [_ Hx].
    apply andb_true_iff in Hx as [Hx _]. by apply String.eqb_eq in Hx. }
  destruct (Js.find (fun cred => String.eqb (c_email cred) email
                                 && String.eqb (c_password cred) password)
              (tc_employees creds)) as [cred|].
  - destruct (Js.find (fun u : User => String.eqb (user_email u) email) users)
      as [e|] eqn:Hu.
    + injection Hlogin as ->. apply find_some_of in Hu as [_ Hu].
      by apply String.eqb_eq in Hu.
    + destruct (Js.find (dbUserMatch email password) users) as [dbUser|] eqn:E;
        [|discriminate].
      injection Hlogin as ->. by apply Hdb.
  - destruct (Js.find (dbUserMatch email password) users) as [dbUser|] eqn:E;
      [|discriminate].
    injection Hlogin as ->. by apply Hdb.
Qed.

(** [handleLogin] lets in only users of the page's list, and only in
    three ways: a manager, with the manager's email and password; or a
    user whose stored email is the email entered, character by character,
    either with an email and password that are among the employee
    credentials, or with the password stored in the user's own document.
    With no users loaded nobody gets in. *)
Theorem login_sound (creds : TestCredentials) (users : list User)
    (email password : string) :
  (forall u, handleLogin creds users email password = Navigate u ->
     In u users
     /\ ((email = c_email (tc_manager creds) /\ password = c_password (tc_manager creds)
          /\ user_role u = manager)
         \/ (user_email u = email
             /\ ((exists cred, In cred (tc_employees creds)
                               /\ c_email cred = email /\ c_password cred = password)
                 \/ user_password u = Some password))))
  /\ (users = [] -> handleLogin creds users email password = AuthError).
Proof.
  split.
  2:{ intros ->. unfold handleLogin. simpl.
      destruct (_ && _); simpl; by destruct (Js.find _ (tc_employees creds)). }
  intros u Hlogin. unfold handleLogin in Hlogin.
  destruct (if String.eqb email (c_email (tc_manager creds))
               && String.eqb password (c_password (tc_manager creds))
            then Js.find (fun u : User => bool_decide (user_role u = manager)) users
            else None) as [m|] eqn:Hm.
  { injection Hlogin as ->.
    destruct (_ && _) eqn:Hc; [|discriminate].
    apply andb_true_iff in Hc as [He Hp]. apply String.eqb_eq in He, Hp.
    apply find_some_of in Hm as [Hin Hm]. apply bool_decide_eq_true in Hm.
    split; [done|]. by left. }
  destruct (Js.find (fun cred => String.eqb (c_email cred) email
                                 && String.eqb (c_password cred) password)
              (tc_employees creds)) as [cred|] eqn:Hc.
  - apply find_some_of in Hc as [Hcin Hc].
    apply andb_true_iff in Hc as [He Hp]. apply String.eqb_eq in He, Hp.
    destruct (Js.find (fun u : User => String.eqb (user_email u) email) users)
      as [e|] eqn:Hu.
    + injection Hlogin as ->. apply find_some_of in Hu as [Hin Hu].
      apply String.eqb_eq in Hu. split; [done|]. right. split; [done|]. left. eauto.
    + destruct (Js.find (dbUserMatch email password) users) as [dbUser|] eqn:Hdb;
        [|discriminate].
      injection Hlogin as ->. apply find_some_of in Hdb as [Hin Hdb].
      apply andb_true_iff in Hdb as [Hue _]. apply String.eqb_eq in Hue.
      split; [done|]. right. split; [done|]. left. eauto.
  - destruct (Js.find (dbUserMatch email password) users) as [dbUser|] eqn:Hdb;
      [|discriminate].
    injection Hlogin as ->. apply find_some_of in Hdb as [Hin Hdb].
    apply andb_true_iff in Hdb as [Hue Hpw]. apply String.eqb_eq in Hue.
    split; [done|]. right. split; [done|]. right.
    unfold passwordIs in Hpw. destruct (user_password u) as [p|]; [|done].
    apply String.eqb_eq in Hpw. by subst.
Qed.

Lemma find_last {A} (p : A -> bool) (l : list A) x :
  p x = true -> is_Some (Js.find p (l ++ [x])%list).
Proof.
  intros Hp. unfold Js.find. induction l as [|y r IH]; simpl.
  - rewrite Hp. eauto.
  - destruct (p y); eauto.
Qed.

(** Signing up and logging in during one visit.  With an ASCII address
    that no stored user has (up to case, the stored addresses being
    ASCII), a fresh document id, and an email and
    password that are not the manager's, [handleSignup] creates the account
    and a login page that loads the users afterwards lets the new user in
    with the email and password entered.  With an email that differs from
    the one entered at sign-up, if only in the case of a letter, no
    password leads to the new account. *)
Theorem signup_then_login (newId name email password : string)
    (creds : TestCredentials) (st : Store) :
  Js.isAscii email = true ->
  asciiEmails st ->
  users st !! newId = None ->
  (forall k d, users st !! k = Some d ->
     Js.toLowerCase (u_email d) <> Js.toLowerCase email) ->
  ~ (email = c_email (tc_manager creds) /\ password = c_password (tc_manager creds)) ->
  let newUser := userOfDoc newId (mkUserData email name employee None) in
  let '(st', creds', r) := handleSignup newId name email password creds st in
  r = AccountCreated
  /\ handleLogin creds' (loadUsers st') email password = Navigate newUser
  /\ forall email2 password2,
       email2 <> email ->
       handleLogin creds' (loadUsers st') email2 password2 <> Navigate newUser.
Proof.
  intros _ _ Hfresh Hnew Hman newUser.
  unfold handleSignup, tryCatch, bind, getUsers, addUser, ret.
  rewrite (proj2 (find_email_None st email) Hnew). simpl.
  set (st' := {| users := <[newId := _]> (users st) |}).
  set (creds' := {| tc_employees := _ |}).
  split; [done|]. split.
  2:{ intros email2 password2 Hne Hlogin.
      destruct (login_sound_aux creds' (loadUsers st') email2 password2 newUser Hlogin)
        as [Hrole|Hmail]; [done|]. simpl in Hmail. congruence. }
  assert (Hin : In newUser (loadUsers st')).
  { unfold loadUsers, getUsers. apply List.in_map_iff.
    exists (newId, mkUserData email name employee None). split; [done|].
    apply docsById_In. simpl. apply lookup_insert_eq. }
  assert (Honly : forall u, In u (loadUsers st') -> user_email u = email -> u = newUser).
  { intros u Hu He. unfold loadUsers, getUsers in Hu.
    apply List.in_map_iff in Hu as ([k d] & <- & Hu). apply docsById_In in Hu.
    simpl in Hu. apply lookup_insert_Some in Hu as [[<- <-]|[_ Hu]]; [done|].
    exfalso. apply (Hnew _ _ Hu). simpl in He. by rewrite He. }
  unfold handleLogin.
  assert (Hvia : (if String.eqb email (c_email (tc_manager creds'))
                     && String.eqb password (c_password (tc_manager creds'))
                  then Js.find (fun u : User => bool_decide (user_role u = manager))
                         (loadUsers st')
                  else None) = None).
  { destruct (_ && _) eqn:Hc; [|done]. exfalso. apply Hman.
    apply andb_true_iff in Hc as [He Hp]. by apply String.eqb_eq in He, Hp. }
  rewrite Hvia.
  destruct (find_last (fun cred => String.eqb (c_email cred) email
                                   && String.eqb (c_password cred) password)
              (tc_employees creds) (mkCredential email name password)) as [cred Hcred].
  { simpl. by rewrite !String.eqb_refl. }
  change (tc_employees creds') with
    (tc_employees creds ++ [mkCredential email name password])%list.
  rewrite Hcred.
  destruct (Js.find (fun u : User => String.eqb (user_email u) email) (loadUsers st'))
    as [e|] eqn:Hu.
  - apply find_some_of in Hu as [Hein Hu]. apply String.eqb_eq in Hu.
    by rewrite (Honly e Hein Hu).
  - exfalso. pose proof (List.find_none _ _ Hu newUser Hin) as Hn.
    simpl in Hn. by rewrite String.eqb_refl in Hn.
Qed.

Lemma signup_then_login_witness :
  let newUser := userOfDoc "Nr7wNoraAccount00004"
                   (mkUserData "Nora@Schedulo.com" "Nora Quinn" employee None) in
  let '(st', creds', r) :=
    handleSignup "Nr7wNoraAccount00004" "Nora Quinn" "Nora@Schedulo.com" "s3cret"
      initialTestCredentials Fixture.twoUsers in
  r = AccountCreated
  /\ handleLogin creds' (loadUsers st') "Nora@Schedulo.com" "s3cret" = Navigate newUser
  /\ forall email2 password2,
       email2 <> "Nora@Schedulo.com" ->
       handleLogin creds' (loadUsers st') email2 password2 <> Navigate newUser.
Proof.
  apply (signup_then_login "Nr7wNoraAccount00004" "Nora Quinn" "Nora@Schedulo.com"
           "s3cret" initialTestCredentials Fixture.twoUsers).
  - reflexivity.
  - intros k d Hd. simpl in Hd.
    apply lookup_insert_Some in Hd as [[_ <-]|[_ Hd]]; [reflexivity|].
    apply lookup_singleton_Some in Hd as [_ <-]. reflexivity.
  - reflexivity.
  - intros k d Hd. simpl in Hd.
    apply lookup_insert_Some in Hd as [[_ <-]|[_ Hd]]; [discriminate|].
    apply lookup_singleton_Some in Hd as [_ <-]. discriminate.
  - intros [He _]. discriminate He.
Defined.

End AuthMore.

(** ** The summary of a generated schedule *)

Module SummaryProps.

Import Generator Diagnostics Summary Notions GeneratorProps GeneratorMore
  DiagnosticsProps DiagnosticsMore.

Lemma mapGet_is_Some {V} (k : string) (m : list (string * V)) :
  is_Some (mapGet k m) <-> In k (List.map fst m).
Proof.
  unfold mapGet. induction m as [|e r IH]; simpl.
  - split; [by intros [? ?]|done].
  - destruct (String.eqb e.1 k) eqn:E; simpl.
    + apply String.eqb_eq in E. split; eauto.
    + apply String.eqb_neq in E. rewrite IH. split; [auto|by intros [?|?]].
Qed.

Lemma countShift_None l : fold_left countShift l None = None.
Proof. by induction l. Qed.

(** The counting goes through exactly when every name has an entry. *)
Lemma counting_throws_iff l : forall m,
  fold_left countShift l (Some m) = None
  <-> exists s, In s l /\ ~ In (employeeName s) (List.map fst m).
Proof.
  induction l as [|s r IH]; intros m; simpl.
  - split; [done|by intros (? & [] & _)].
  - destruct (mapGet (employeeName s) m) as [[c bt]|] eqn:G.
    + rewrite IH, mapSet_keys.
      assert (Hin : In (employeeName s) (List.map fst m))
        by (apply mapGet_is_Some; rewrite G; eauto).
      rewrite (proj2 (mapHas_In _ _) Hin).
      split; intros (x & Hx & Hno); [by eauto|].
      destruct Hx as [<-|Hx]; [done|eauto].
    + rewrite countShift_None. split; [intros _|done].
      exists s. split; [auto|]. rewrite <- mapGet_is_Some, G. by intros [? ?].
Qed.

Lemma summary_None_iff (shifts : list Shift) :
  summarizeShiftDistribution shifts = None
  <-> exists s, In s shifts /\ ~ In (employeeName s) (List.map emp_name EMPLOYEES).
Proof.
  unfold summarizeShiftDistribution.
  pose proof (counting_throws_iff shifts initialCounts) as H.
  change (List.map fst initialCounts) with (List.map emp_name EMPLOYEES) in H.
  destruct (fold_left countShift shifts (Some initialCounts)).
  - rewrite <- H. split; discriminate.
  - rewrite <- H. done.
Qed.

(** For shifts whose employee names and dates are none of the names a
    plain object inherits: [summarizeShiftDistribution] throws exactly
    when one of the shifts carries an employee name that is not in the
    staff list of the generator; for every other such list of shifts it
    returns its summary. *)
Theorem summary_throws_iff (shifts : list Shift) :
  (forall s, In s shifts ->
     Js.plainKey (employeeName s) = true /\ Js.plainKey (date s) = true) ->
  (summarizeShiftDistribution shifts = None
   <-> exists s, In s shifts /\ ~ In (employeeName s) (List.map emp_name EMPLOYEES))
  /\ (is_Some (summarizeShiftDistribution shifts)
      <-> forall s, In s shifts -> In (employeeName s) (List.map emp_name EMPLOYEES)).
Proof.
  intros _. split; [apply summary_None_iff|].
  destruct (summarizeShiftDistribution shifts) as [text|] eqn:E.
  - split; [intros _|by eauto]. intros s Hs.
    destruct (List.in_dec string_dec (employeeName s) (List.map emp_name EMPLOYEES))
      as [Hin|Hno]; [exact Hin|].
    assert (Hnone : summarizeShiftDistribution shifts = None)
      by (apply summary_None_iff; eauto).
    congruence.
  - split; [by intros [? ?]|]. intros Hall. exfalso.
    apply summary_None_iff in E as (s & Hs & Hno). by apply Hno, Hall.
Qed.

Lemma summary_throws_iff_witness :
  (summarizeShiftDistribution [Fixture.johnsDay; Fixture.johnsNight] = None
   <-> exists s, In s [Fixture.johnsDay; Fixture.johnsNight]
                 /\ ~ In (employeeName s) (List.map emp_name EMPLOYEES))
  /\ (is_Some (summarizeShiftDistribution [Fixture.johnsDay; Fixture.johnsNight])
      <-> forall s, In s [Fixture.johnsDay; Fixture.johnsNight] ->
            In (employeeName s) (List.map emp_name EMPLOYEES)).
Proof.
  apply (summary_throws_iff [Fixture.johnsDay; Fixture.johnsNight]).
  intros s [<-|[<-|[]]]; split; reflexivity.
Defined.

(** *** The validation of the daily rule *)

Lemma mapGet_Some_In {V} (k : string) (m : list (string * V)) v :
  mapGet k m = Some v -> In (k, v) m.
Proof.
  unfold mapGet. induction m as [|[k' v'] r IH]; simpl; [done|].
  destruct (String.eqb k' k) eqn:E; simpl.
  - apply String.eqb_eq in E. intros [= <-]. subst. by left.
  - intros H. right. by apply IH.
Qed.

Lemma groupShift_get groups s k :
  mapGet k (groupShift groups s)
  = if String.eqb (date s) k
    then Some (default [] (mapGet k groups) ++ [toAssignment s])%list
    else mapGet k groups.
Proof.
  unfold groupShift. fold (toAssignment s).
  destruct (mapHas (date s) groups) eqn:H; simpl.
  - destruct (mapGet (date s) groups) as [arr|] eqn:G.
    + rewrite mapGet_set. destruct (String.eqb (date s) k) eqn:E; [|done].
      apply String.eqb_eq in E. subst. by rewrite G.
    + exfalso. apply mapHas_In, mapGet_is_Some in H. rewrite G in H. by destruct H.
  - rewrite mapGet_set, String.eqb_refl, !mapGet_set.
    destruct (String.eqb (date s) k) eqn:E; [|done].
    apply String.eqb_eq in E. subst. by rewrite (mapHas_get _ _ H).
Qed.

Lemma fold_groupShift_get l : forall groups k,
  mapGet k (fold_left groupShift l groups)
  = match List.filter (fun s => String.eqb (date s) k) l with
    | [] => mapGet k groups
    | g => Some (default [] (mapGet k groups) ++ List.map toAssignment g)%list
    end.
Proof.
  induction l as [|s r IH]; intros groups k; simpl; [done|].
  rewrite IH, groupShift_get.
  destruct (String.eqb (date s) k); simpl; [|done].
  destruct (List.filter _ r); simpl; [done|].
  by rewrite <- List.app_assoc.
Qed.

(** The groups are the shifts by date: the entry of a date holds the
    assignments of the shifts with that date, in order. *)
Lemma dateGroups_get shifts k :
  mapGet k (dateGroups shifts)
  = match List.filter (fun s => String.eqb (date s) k) shifts with
    | [] => None
    | g => Some (List.map toAssignment g)
    end.
Proof. unfold dateGroups. rewrite fold_groupShift_get. by destruct (List.filter _ _). Qed.

Lemma groupShift_keys_NoDup groups s :
  NoDup (List.map fst groups) -> NoDup (List.map fst (groupShift groups s)).
Proof.
  intros H. unfold groupShift.
  set (groups1 := if negb (mapHas (date s) groups)
                  then mapSet (date s) [] groups else groups).
  assert (H1 : NoDup (List.map fst groups1)).
  { subst groups1. destruct (negb _); [by apply mapSet_keys_NoDup|done]. }
  destruct (mapGet (date s) groups1); [by apply mapSet_keys_NoDup|done].
Qed.

Lemma dateGroups_keys_NoDup shifts : NoDup (List.map fst (dateGroups shifts)).
Proof.
  unfold dateGroups.
  assert (H : forall groups, NoDup (List.map fst groups) ->
                NoDup (List.map fst (fold_left groupShift shifts groups))).
  { induction shifts as [|s r IH]; intros groups Hd; simpl; [done|].
    by apply IH, groupShift_keys_NoDup. }
  apply H. constructor.
Qed.

Lemma omap_nil_iff {A B} (f : A -> option B) (l : list A) :
  omap f l = [] <-> forall x, In x l -> f x = None.
Proof.
  induction l as [|x r IH]; simpl; [by split|].
  destruct (f x) eqn:E; simpl.
  - split; [done|]. intros H. specialize (H x (or_introl eq_refl)). congruence.
  - rewrite IH. split; [intros H y [<-|Hy]; auto|auto].
Qed.

(** No violation is reported exactly when every date's group has two
    day shifts, two afternoon shifts and one night shift. *)
Lemma violations_nil_iff shifts :
  violations shifts = []
  <-> forall k g, mapGet k (dateGroups shifts) = Some g ->
        ofType day g = 2%nat /\ ofType afternoon g = 2%nat /\ ofType night g = 1%nat.
Proof.
  unfold violations. rewrite omap_nil_iff.
  assert (Hv : forall e, violation e = None
                 <-> ofType day e.2 = 2%nat /\ ofType afternoon e.2 = 2%nat
                     /\ ofType night e.2 = 1%nat).
  { intros e. unfold violation.
    destruct (Nat.eqb_spec (ofType day e.2) 2), (Nat.eqb_spec (ofType afternoon e.2) 2),
      (Nat.eqb_spec (ofType night e.2) 1); simpl; split; try done; intros (? & ? & ?); done. }
  split.
  - intros H k g Hg. apply mapGet_Some_In in Hg. by apply (Hv (k, g)), H.
  - intros H [k g] Hin. apply Hv. simpl. apply (H k).
    by apply mapGet_of_In; [apply dateGroups_keys_NoDup|].
Qed.

Lemma toAssignment_shiftOfAssignment D a : toAssignment (shiftOfAssignment D a) = a.
Proof. by destruct a. Qed.

Lemma day_assignments_types rnd c t :
  ofType t (generateDayAssignments rnd c).1 = perDay t.
Proof.
  destruct (day_assignments_shape rnd c) as (staff & Hp & ->).
  assert (Hlen : length staff = 8%nat) by (by rewrite Hp).
  destruct staff as [|e0 [|e1 [|e2 [|e3 [|e4 [|e5 [|e6 [|e7 [|]]]]]]]]];
    try discriminate Hlen.
  by destruct t.
Qed.

Lemma ofType_app t a b : ofType t (a ++ b) = (ofType t a + ofType t b)%nat.
Proof. unfold ofType. by rewrite List.filter_app, List.length_app. Qed.

Lemma assignments_of_block D d (a : list ShiftAssignment) :
  List.map toAssignment
    (List.filter (fun s => String.eqb (date s) d) (List.map (shiftOfAssignment D) a))
  = if String.eqb D d then a else [].
Proof.
  induction a as [|x l IH]; simpl; [by destruct (String.eqb D d)|].
  destruct (String.eqb D d); simpl in *; [|done].
  by rewrite IH, toAssignment_shiftOfAssignment.
Qed.

Lemma typeCount_block D t (a : list ShiftAssignment) :
  length (List.filter (fun s => bool_decide (type s = t)) (List.map (shiftOfAssignment D) a))
  = ofType t a.
Proof.
  unfold ofType. induction a as [|x l IH]; simpl; [done|].
  destruct (bool_decide (a_type x = t)); simpl; by rewrite IH.
Qed.

Lemma ofType_rounds rnd (rounds : list (string * list ShiftAssignment)) d t :
  Forall (fun r => exists c, r.2 = (generateDayAssignments rnd c).1) rounds ->
  ofType t (List.map toAssignment
              (List.filter (fun s => String.eqb (date s) d)
                 (concat (List.map (fun r => List.map (shiftOfAssignment r.1) r.2) rounds))))
  = (perDay t * count_occ string_dec (List.map fst rounds) d)%nat.
Proof.
  induction rounds as [|r rounds IH]; intros Hr; [unfold ofType, typeCount; simpl; lia|].
  apply Forall_cons in Hr as [(c & Hc) Hr].
  simpl. rewrite List.filter_app, List.map_app, ofType_app, IH by done.
  rewrite assignments_of_block, Hc.
  destruct (string_dec r.1 d) as [->|Hne].
  - rewrite String.eqb_refl, day_assignments_types. lia.
  - apply String.eqb_neq in Hne. rewrite Hne. simpl. lia.
Qed.

Lemma typeCount_rounds rnd (rounds : list (string * list ShiftAssignment)) t :
  Forall (fun r => exists c, r.2 = (generateDayAssignments rnd c).1) rounds ->
  typeCount t (concat (List.map (fun r => List.map (shiftOfAssignment r.1) r.2) rounds))
  = (perDay t * length rounds)%nat.
Proof.
  induction rounds as [|r rounds IH]; intros Hr; [unfold ofType, typeCount; simpl; lia|].
  apply Forall_cons in Hr as [(c & Hc) Hr].
  unfold typeCount in *. simpl. rewrite List.filter_app, List.length_app, IH by done.
  rewrite typeCount_block, Hc, day_assignments_types. lia.
Qed.

(** A schedule made of rounds keeps the invariant exactly when the
    rounds carry different dates. *)
Lemma rounds_invariant_iff rnd (rounds : list (string * list ShiftAssignment)) :
  Forall (fun r => exists c, r.2 = (generateDayAssignments rnd c).1) rounds ->
  oneShiftPerEmployeePerDay
    (concat (List.map (fun r => List.map (shiftOfAssignment r.1) r.2) rounds))
  <-> NoDup (List.map fst rounds).
Proof.
  intros Hr. unfold oneShiftPerEmployeePerDay. rewrite pairs_of_rounds.
  set (B := List.map (fun r => (r.1, List.map a_employeeId r.2)) rounds).
  assert (Hgood : Forall (fun b => NoDup b.2 /\ length b.2 = 5%nat
                                   /\ incl b.2 (List.map emp_id EMPLOYEES)) B).
  { subst B. apply Forall_fmap. eapply Forall_impl; [exact Hr|].
    intros r (c & Hc). simpl. rewrite Hc.
    destruct (day_assignments_distinct rnd c) as (Hlen & Hnd & Hincl).
    by rewrite List.length_map. }
  assert (Hdates : List.map fst B = List.map fst rounds).
  { subst B. by rewrite List.map_map. }
  rewrite <- Hdates. split.
  - by apply pairs_distinct_dates.
  - apply distinct_dates_pairs. eapply Forall_impl; [exact Hgood|]. by intros b (? & _).
Qed.

Lemma summary_of_rounds rnd (rounds : list (string * list ShiftAssignment)) :
  Forall (fun r => exists c, r.2 = (generateDayAssignments rnd c).1) rounds ->
  is_Some (summarizeShiftDistribution
             (concat (List.map (fun r => List.map (shiftOfAssignment r.1) r.2) rounds))).
Proof.
  intros Hr.
  destruct (summarizeShiftDistribution _) eqn:E; [eauto|]. exfalso.
  apply summary_None_iff in E as (s & Hs & Hno). apply Hno.
  apply List.in_concat in Hs as (blk & Hblk & Hs).
  apply List.in_map_iff in Hblk as (r & <- & Hrin).
  apply List.in_map_iff in Hs as (a & <- & Ha).
  rewrite Forall_forall in Hr. apply list_elem_of_In, Hr in Hrin as (c & Hc).
  rewrite Hc in Ha.
  destruct (day_assignments_shape rnd c) as (staff & Hp & Heq).
  rewrite Heq in Ha. apply List.in_map_iff in Ha as ([t e] & <- & Hte).
  change (In (emp_name e) (List.map emp_name EMPLOYEES)).
  apply List.in_map. apply (Permutation_in _ Hp).
  apply list_elem_of_In, elem_of_zip_r in Hte.
  apply elem_of_take in Hte as (i & Hi & _).
  by eapply list_elem_of_In, list_elem_of_lookup_2.
Qed.


(** For a schedule that [generateBalancedShifts] returned,
    [summarizeShiftDistribution] returns a summary; its validation
    reports no violation exactly when the schedule gives no employee two
    shifts on one date; and the day, afternoon and night shifts it counts
    are in the proportion 2 : 2 : 1. *)
Theorem summary_validates_schedule (zone : JsDate.Zone) (rnd : Random) (fuel : nat)
    (startDate endDate : string) (l : list Shift) :
  generateBalancedShifts zone rnd fuel startDate endDate = Some l ->
  is_Some (summarizeShiftDistribution l)
  /\ (violations l = [] <-> oneShiftPerEmployeePerDay l)
  /\ exists rounds,
       typeCount day l = (2 * rounds)%nat
       /\ typeCount afternoon l = (2 * rounds)%nat
       /\ typeCount night l = rounds
       /\ length l = (5 * rounds)%nat.
Proof.
  unfold generateBalancedShifts. intros H.
  apply generateLoop_rounds in H as (rounds & -> & Hr). simpl.
  set (l := concat (List.map (fun r => List.map (shiftOfAssignment r.1) r.2) rounds)).
  split; [|split].
  - by apply (summary_of_rounds rnd).
  - assert (Hinv : oneShiftPerEmployeePerDay l <-> NoDup (List.map fst rounds))
      by (by apply (rounds_invariant_iff rnd)).
    rewrite Hinv. clear Hinv.
    rewrite NoDup_ListNoDup, (List.NoDup_count_occ string_dec), violations_nil_iff.
    assert (Hget : forall k g, mapGet k (dateGroups l) = Some g ->
              (0 < count_occ string_dec (List.map fst rounds) k)%nat
              /\ forall t, ofType t g
                           = (perDay t * count_occ string_dec (List.map fst rounds) k)%nat).
    { intros k g Hg. rewrite dateGroups_get in Hg.
      pose proof (shiftsOn_rounds rnd rounds k Hr) as Hon. unfold shiftsOn in Hon.
      fold l in Hon.
      pose proof (fun t => ofType_rounds rnd rounds k t Hr) as Ht. fold l in Ht.
      destruct (List.filter (fun s => String.eqb (date s) k) l) as [|x xs];
        [done|]. injection Hg as <-. split; [simpl in Hon; lia|exact Ht]. }
    split.
    + intros Hv d.
      destruct (count_occ string_dec (List.map fst rounds) d) as [|n] eqn:Ec; [lia|].
      pose proof (shiftsOn_rounds rnd rounds d Hr) as Hon. unfold shiftsOn in Hon.
      fold l in Hon. rewrite Ec in Hon.
      destruct (mapGet d (dateGroups l)) as [g|] eqn:Hg.
      * destruct (Hv d g Hg) as (_ & _ & Hn). destruct (Hget d g Hg) as (_ & Ht).
        rewrite (Ht night), Ec in Hn. simpl in Hn. lia.
      * rewrite dateGroups_get in Hg.
        destruct (List.filter (fun s => String.eqb (date s) d) l); [simpl in Hon; lia|done].
    + intros Hc k g Hg. destruct (Hget k g Hg) as (Hpos & Ht).
      specialize (Hc k). rewrite !Ht.
      replace (count_occ string_dec (List.map fst rounds) k) with 1%nat by lia.
      done.
  - exists (length rounds). subst l. rewrite !(typeCount_rounds rnd) by done. simpl.
    split_and!; try lia.
    induction rounds as [|r rounds IH]; [done|].
    apply Forall_cons in Hr as [(c & Hc) Hr].
    simpl. rewrite List.length_app, List.length_map, IH by done. rewrite Hc.
    destruct (day_assignments_distinct rnd c) as (-> & _). lia.
Qed.

Lemma summary_validates_schedule_witness :
  is_Some (summarizeShiftDistribution Fixture.utcSchedule)
  /\ (violations Fixture.utcSchedule = [] <-> oneShiftPerEmployeePerDay Fixture.utcSchedule)
  /\ exists rounds,
       typeCount day Fixture.utcSchedule = (2 * rounds)%nat
       /\ typeCount afternoon Fixture.utcSchedule = (2 * rounds)%nat
       /\ typeCount night Fixture.utcSchedule = rounds
       /\ length Fixture.utcSchedule = (5 * rounds)%nat.
Proof.
  apply (summary_validates_schedule JsDate.utcZone (fun n => n) 10
           "2024-02-28" "2024-03-01" Fixture.utcSchedule).
  vm_compute. reflexivity.
Defined.

End SummaryProps.

(** ** Seeding a generated schedule *)

Module SeedingProps.

Import Generator Diagnostics Seeding Service SortProps GeneratorProps SummaryProps.







End SeedingProps.

(** ** Calendar dates, and the generator on a host without clock changes *)

Module CalendarProps.
Import JsDate Notions.
Local Open Scope Z_scope.

Ltac Zify.zify_post_hook ::= Z.div_mod_to_equations.

(** *** Days and civil dates *)

Lemma civil_of_days (z : Z) :
  let '(y, m, d) := civilFromDays z in daysFromCivil y m d = z.
Proof.
  unfold civilFromDays, daysFromCivil.
  set (z' := z + 719468).
  set (era := z' / 146097).
  set (doe := z' - era * 146097).
  assert (Hdoe : 0 <= doe <= 146096) by (subst doe era; lia).
  set (yoe := (doe - doe / 1460 + doe / 36524 - doe / 146096) / 365).
  assert (Hyoe : 0 <= yoe <= 399) by (subst yoe; lia).
  set (doy := doe - (365 * yoe + yoe / 4 - yoe / 100)).
  assert (Hdoy : 0 <= doy <= 365) by (subst doy yoe; lia).
  set (mp := (5 * doy + 2) / 153).
  assert (Hmp : 0 <= mp <= 11) by (subst mp; lia).
  destruct (mp <? 10) eqn:E.
  - apply Z.ltb_lt in E.
    replace (mp + 3 <=? 2) with false by (symmetry; apply Z.leb_gt; lia).
    subst mp doy; lia.
  - apply Z.ltb_ge in E.
    replace (mp - 9 <=? 2) with true by (symmetry; apply Z.leb_le; lia).
    subst mp doy; lia.
Qed.

Lemma month_cases m : 1 <= m <= 12 ->
  m = 1 \/ m = 2 \/ m = 3 \/ m = 4 \/ m = 5 \/ m = 6 \/ m = 7 \/ m = 8 \/ m = 9
  \/ m = 10 \/ m = 11 \/ m = 12.
Proof. lia. Qed.

Lemma isLeapYear_spec y :
  isLeapYear y = true <-> y mod 4 = 0 /\ (y mod 100 <> 0 \/ y mod 400 = 0).
Proof.
  unfold isLeapYear.
  by rewrite andb_true_iff, orb_true_iff, negb_true_iff, !Z.eqb_eq, Z.eqb_neq.
Qed.

Lemma daysInMonth_cases y m :
  1 <= m <= 12 ->
  daysInMonth y m
  = if decide (m = 2) then (if isLeapYear y then 29 else 28)
    else if decide (m = 4 \/ m = 6 \/ m = 9 \/ m = 11) then 30 else 31.
Proof.
  intros Hm. unfold daysInMonth.
  destruct (Z.eqb_spec m 2); [by rewrite decide_True|]. rewrite decide_False by done.
  destruct (Z.eqb_spec m 4), (Z.eqb_spec m 6), (Z.eqb_spec m 9), (Z.eqb_spec m 11); simpl;
    first [rewrite decide_True by lia; reflexivity | rewrite decide_False by lia; reflexivity].
Qed.

Lemma isLeapYear_next (yoe era : Z) :
  0 <= yoe <= 399 ->
  isLeapYear (yoe + era * 400 + 1) = true <-> leapBefore yoe.
Proof. intros Hy. rewrite isLeapYear_spec. unfold leapBefore. lia. Qed.

Lemma doe_year (yoe doy : Z) :
  0 <= yoe <= 399 -> 0 <= doy <= 365 -> (doy = 365 -> leapBefore yoe) ->
  let doe := yoe * 365 + yoe / 4 - yoe / 100 + doy in
  0 <= doe <= 146096
  /\ (doe - doe / 1460 + doe / 36524 - doe / 146096) / 365 = yoe.
Proof. unfold leapBefore. cbv zeta. intros Hy Hd H365. split; lia. Qed.

Lemma year_of_doe (doe : Z) :
  0 <= doe <= 146096 ->
  let yoe := (doe - doe / 1460 + doe / 36524 - doe / 146096) / 365 in
  let doy := doe - (365 * yoe + yoe / 4 - yoe / 100) in
  0 <= yoe <= 399 /\ 0 <= doy <= 365 /\ (doy = 365 -> leapBefore yoe).
Proof.
  unfold leapBefore. cbv zeta. intros H. split; [lia|split; lia].
Qed.

Ltac closed_terms :=
  repeat match goal with
    | |- context [(?a + 9) mod 12] =>
        let v := eval vm_compute in ((a + 9) mod 12) in
        change ((a + 9) mod 12) with v
    | |- context [(153 * ?a + 2) / 5] =>
        let v := eval vm_compute in ((153 * a + 2) / 5) in
        change ((153 * a + 2) / 5) with v
    | |- context [?a <? 10] =>
        let v := eval vm_compute in (a <? 10) in
        change (a <? 10) with v
    | |- context [?a + 3 <=? 2] =>
        let v := eval vm_compute in (a + 3 <=? 2) in
        change (a + 3 <=? 2) with v
    | |- context [?a - 9 <=? 2] =>
        let v := eval vm_compute in (a - 9 <=? 2) in
        change (a - 9 <=? 2) with v
    end; cbv iota.

(** The day of the year that starts on 1 March, from month and day. *)
Lemma month_doy m d :
  1 <= m <= 12 -> 1 <= d <= 31 -> (m = 2 -> d <= 29) ->
  (m = 4 \/ m = 6 \/ m = 9 \/ m = 11 -> d <= 30) ->
  let mp := (m + 9) mod 12 in
  let doy := (153 * mp + 2) / 5 + d - 1 in
  0 <= doy <= 365 /\ (5 * doy + 2) / 153 = mp
  /\ (if mp <? 10 then mp + 3 else mp - 9) = m
  /\ (doy = 365 -> m = 2 /\ d = 29).
Proof.
  intros Hm Hd H2 H30. cbv zeta.
  destruct (month_cases m Hm) as [->|[->|[->|[->|[->|[->|[->|[->|[->|[->|[->| ->]]]]]]]]]]];
    closed_terms; repeat split; lia.
Qed.

(** Month and day from the day of the year that starts on 1 March. *)
Lemma doy_month doy :
  0 <= doy <= 365 ->
  let mp := (5 * doy + 2) / 153 in
  let d := doy - (153 * mp + 2) / 5 + 1 in
  let m := if mp <? 10 then mp + 3 else mp - 9 in
  1 <= m <= 12 /\ 1 <= d <= 31 /\ (m = 2 -> d <= 29 /\ (d = 29 -> doy = 365))
  /\ (m = 4 \/ m = 6 \/ m = 9 \/ m = 11 -> d <= 30)
  /\ (m <=? 2) = negb (mp <? 10).
Proof.
  intros Hdoy. cbv zeta.
  set (mp := (5 * doy + 2) / 153).
  assert (Hq : 153 * mp <= 5 * doy + 2 < 153 * mp + 153) by (subst mp; lia).
  clearbody mp.
  assert (Hmp : mp = 0 \/ mp = 1 \/ mp = 2 \/ mp = 3 \/ mp = 4 \/ mp = 5 \/ mp = 6
                \/ mp = 7 \/ mp = 8 \/ mp = 9 \/ mp = 10 \/ mp = 11) by lia.
  destruct Hmp as [->|[->|[->|[->|[->|[->|[->|[->|[->|[->|[->| ->]]]]]]]]]]];
    closed_terms; repeat split; lia.
Qed.

Lemma days_of_civil y m d :
  1 <= m <= 12 -> 1 <= d <= daysInMonth y m ->
  civilFromDays (daysFromCivil y m d) = (y, m, d).
Proof.
  intros Hm Hd.
  unfold daysFromCivil.
  set (y' := if m <=? 2 then y - 1 else y).
  set (era := y' / 400).
  set (yoe := y' - era * 400).
  assert (Hyoe : 0 <= yoe <= 399) by (subst yoe era; lia).
  assert (Hy' : y' = yoe + era * 400) by (subst yoe; lia).
  clearbody yoe. clearbody era.
  rewrite daysInMonth_cases in Hd by done.
  assert (Hd31 : 1 <= d <= 31 /\ (m = 2 -> d <= 29)
                 /\ (m = 4 \/ m = 6 \/ m = 9 \/ m = 11 -> d <= 30)).
  { repeat case_decide; destruct (isLeapYear y); lia. }
  destruct Hd31 as (Hd31 & H2 & H30).
  pose proof (month_doy m d Hm Hd31 H2 H30) as Hmd. cbv zeta in Hmd.
  set (mp := (m + 9) mod 12) in *.
  set (doy := (153 * mp + 2) / 5 + d - 1) in *.
  destruct Hmd as (Hdoy & Hmp & Hmm & H365).
  assert (Hleap : doy = 365 -> leapBefore yoe).
  { intros [-> ->]%H365. rewrite decide_True in Hd by done.
    destruct (isLeapYear y) eqn:El; [|lia].
    apply (isLeapYear_next yoe era Hyoe).
    rewrite <- El. f_equal. subst y'. simpl in Hy'. lia. }
  pose proof (doe_year yoe doy Hyoe Hdoy Hleap) as Hdy. cbv zeta in Hdy.
  set (doe := yoe * 365 + yoe / 4 - yoe / 100 + doy) in *.
  destruct Hdy as (Hdoe & Hyear).
  unfold civilFromDays.
  replace (era * 146097 + doe - 719468 + 719468) with (doe + era * 146097) by lia.
  rewrite Z.div_add by lia. rewrite (Z.div_small doe) by lia. rewrite Z.add_0_l.
  replace (doe + era * 146097 - era * 146097) with doe by lia.
  rewrite Hyear.
  replace (doe - (365 * yoe + yoe / 4 - yoe / 100)) with doy by (subst doe; lia).
  rewrite Hmp. replace ((153 * mp + 2) / 5) with (doy - d + 1) by (subst doy; lia).
  rewrite Hmm. f_equal; [f_equal|lia].
  subst y'. destruct (m <=? 2); lia.
Qed.

Lemma civil_valid (z : Z) :
  let '(y, m, d) := civilFromDays z in 1 <= m <= 12 /\ 1 <= d <= daysInMonth y m.
Proof.
  unfold civilFromDays.
  set (z' := z + 719468).
  set (era := z' / 146097).
  set (doe := z' - era * 146097).
  assert (Hdoe : 0 <= doe <= 146096) by (subst doe era; lia).
  clearbody doe. clearbody era.
  pose proof (year_of_doe doe Hdoe) as Hy. cbv zeta in Hy.
  set (yoe := (doe - doe / 1460 + doe / 36524 - doe / 146096) / 365) in *.
  set (doy := doe - (365 * yoe + yoe / 4 - yoe / 100)) in *.
  destruct Hy as (Hyoe & Hdoy & H365).
  clearbody doy. clearbody yoe.
  pose proof (doy_month doy Hdoy) as Hm. cbv zeta in Hm.
  set (mp := (5 * doy + 2) / 153) in *.
  set (d := doy - (153 * mp + 2) / 5 + 1) in *.
  set (m := if mp <? 10 then mp + 3 else mp - 9) in *.
  destruct Hm as (Hm & Hd & H2 & H30 & Hle).
  clearbody m. clearbody d.
  split; [exact Hm|].
  rewrite daysInMonth_cases by done.
  case_decide as E2; [|case_decide; lia].
  subst m. destruct (H2 eq_refl) as [H29 Hlast]. simpl.
  destruct (isLeapYear (yoe + era * 400 + 1)) eqn:El; [lia|].
  assert (d <> 29); [|lia].
  intros Hd29. apply Hlast, H365, (isLeapYear_next yoe era Hyoe) in Hd29. congruence.
Qed.

Lemma daysFromCivil_day y m d : daysFromCivil y m 1 + d - 1 = daysFromCivil y m d.
Proof. unfold daysFromCivil. lia. Qed.

(** The days of the years 0000 to 9999. *)
Lemma daysFromCivil_range y m d :
  1 <= m <= 12 -> 1 <= d <= 31 ->
  (0 <= y <= 9999 -> -719528 <= daysFromCivil y m d <= 2932896)
  /\ (y < 0 -> daysFromCivil y m d < -719528)
  /\ (9999 < y -> 2932896 < daysFromCivil y m d).
Proof.
  intros Hm Hd. unfold daysFromCivil.
  destruct (m <=? 2) eqn:E; [apply Z.leb_le in E|apply Z.leb_gt in E]; lia.
Qed.

Lemma civil_year_range z :
  -719528 <= z <= 2932896 -> 0 <= (civilFromDays z).1.1 <= 9999.
Proof.
  intros Hz. pose proof (civil_of_days z) as Hr. pose proof (civil_valid z) as Hv.
  destruct (civilFromDays z) as [[y m] d]. simpl. destruct Hv as [Hm Hd].
  assert (Hd31 : 1 <= d <= 31).
  { rewrite daysInMonth_cases in Hd by done. repeat case_decide; destruct (isLeapYear y); lia. }
  destruct (daysFromCivil_range y m d Hm Hd31) as (_ & Hlo & Hhi). lia.
Qed.

(** *** Printed numbers *)

Ltac string_app :=
  repeat match goal with
         | |- context [String ?x ?a +:+ ?b] =>
             change (String x a +:+ b) with (String x (a +:+ b))
         | |- context [EmptyString +:+ ?b] => change (EmptyString +:+ b) with b
         end.

Lemma string_app_assoc (a b c : string) : (a +:+ b) +:+ c = a +:+ (b +:+ c).
Proof. induction a as [|x a IH]; [done|]. string_app. by f_equal. Qed.

Lemma string_length_app (a b : string) :
  String.length (a +:+ b) = (String.length a + String.length b)%nat.
Proof. induction a as [|x a IH]; [done|]. string_app. simpl. by f_equal. Qed.

Lemma pretty_N_go_app x : forall s, pretty_N_go x s = pretty_N_go x "" +:+ s.
Proof.
  induction (N.lt_wf_0 x) as [x _ IH]; intros s.
  assert (x = 0 \/ 0 < x)%N as [->|Hx] by lia.
  - by rewrite !pretty_N_go_0.
  - rewrite (pretty_N_go_step x s), (pretty_N_go_step x "") by done.
    assert (Hlt : (x / 10 < x)%N) by (by apply N.div_lt).
    rewrite (IH _ Hlt (String (pretty_N_char (x mod 10)%N) s)).
    rewrite (IH _ Hlt (String (pretty_N_char (x mod 10)%N) "")).
    by rewrite string_app_assoc.
Qed.

Lemma pretty_small (x : N) : (x < 10)%N -> pretty x = String (pretty_N_char x) "".
Proof.
  intros Hx. unfold pretty, pretty_N. destruct (decide (x = 0%N)) as [->|Hne]; [done|].
  rewrite pretty_N_go_step by lia.
  rewrite N.div_small, N.mod_small, pretty_N_go_0 by done. done.
Qed.

Lemma pretty_large (x : N) :
  (10 <= x)%N -> pretty x = pretty (x / 10)%N +:+ String (pretty_N_char (x mod 10)%N) "".
Proof.
  intros Hx. unfold pretty, pretty_N.
  destruct (decide (x = 0%N)) as [->|Hne]; [lia|].
  destruct (decide (x / 10 = 0)%N) as [E|E].
  { apply N.div_small_iff in E; lia. }
  rewrite pretty_N_go_step by lia. by rewrite pretty_N_go_app.
Qed.

Lemma digitsOf_zero k : digitsOf k 0 = string_of_list_ascii (List.repeat "0"%char k).
Proof.
  induction k as [|k IH]; [done|].
  cbn [digitsOf]. rewrite N.Div0.div_0_l, N.Div0.mod_0_l, IH.
  clear IH. induction k as [|k IH]; [done|].
  cbn [List.repeat string_of_list_ascii] in *. string_app. by f_equal.
Qed.

Lemma digitsOf_S k x :
  digitsOf (S k) x = digitsOf k (x / 10)%N +:+ String (pretty_N_char (x mod 10)%N) "".
Proof. reflexivity. Qed.

(** Padding the printed number with zeros gives its last [k] digits. *)
Lemma pad_digits (k : nat) : forall x : N,
  (x < 10 ^ N.of_nat (S k))%N ->
  string_of_list_ascii (List.repeat "0"%char (S k - String.length (pretty x))) +:+ pretty x
  = digitsOf (S k) x.
Proof.
  induction k as [|k IH]; intros x Hx.
  - rewrite pretty_small by done. rewrite digitsOf_S.
    cbn [digitsOf String.length Nat.sub List.repeat string_of_list_ascii]. string_app.
    by rewrite N.mod_small by done.
  - destruct (N.lt_ge_cases x 10) as [Hs|Hl].
    + rewrite pretty_small by done. rewrite (digitsOf_S (S k)).
      rewrite N.div_small, (N.mod_small x 10) by done.
      rewrite digitsOf_zero. cbn [String.length].
      by replace (S (S k) - 1)%nat with (S k) by lia.
    + rewrite pretty_large by done. rewrite (digitsOf_S (S k)).
      rewrite string_length_app. cbn [String.length].
      replace (S (S k) - (String.length (pretty (x / 10)%N) + 1))%nat
        with (S k - String.length (pretty (x / 10)%N))%nat by lia.
      rewrite <- string_app_assoc, IH; [done|].
      apply N.Div0.div_lt_upper_bound.
      replace (N.of_nat (S (S k))) with (N.succ (N.of_nat (S k))) in Hx by lia.
      by rewrite N.pow_succ_r' in Hx.
Qed.

Ltac N_to_Z :=
  apply N2Z.inj;
  repeat first [ rewrite N2Z.inj_mod | rewrite N2Z.inj_div | rewrite Z2N.id by lia ];
  change (Z.of_N 10) with 10; lia.

Lemma pad2_digits n :
  0 <= n <= 99 ->
  pad 2 n = String (pretty_N_char (Z.to_N (n / 10)))
              (String (pretty_N_char (Z.to_N (n mod 10))) "").
Proof.
  intros Hn. unfold pad.
  change (?a ++ ?b)%string with (a +:+ b).
  rewrite (pad_digits 1) by (simpl; lia). cbn [digitsOf]. string_app.
  f_equal; [|f_equal]; f_equal; N_to_Z.
Qed.

Lemma pad4_digits n :
  0 <= n <= 9999 ->
  pad 4 n = String (pretty_N_char (Z.to_N (n / 1000)))
              (String (pretty_N_char (Z.to_N (n / 100 mod 10)))
                 (String (pretty_N_char (Z.to_N (n / 10 mod 10)))
                    (String (pretty_N_char (Z.to_N (n mod 10))) ""))).
Proof.
  intros Hn. unfold pad.
  change (?a ++ ?b)%string with (a +:+ b).
  rewrite (pad_digits 3) by (simpl; lia). cbn [digitsOf]. string_app.
  f_equal; [|f_equal; [|f_equal; [|f_equal]]]; f_equal; N_to_Z.
Qed.

(** *** Calendar dates as strings *)

Lemma digitChar_spec k :
  0 <= k <= 9 ->
  ShiftQuery.isDigit (digitChar k) = true
  /\ digitValue (digitChar k) = k
  /\ Ascii.eqb (digitChar k) "T" = false.
Proof.
  intros Hk.
  assert (k = 0 \/ k = 1 \/ k = 2 \/ k = 3 \/ k = 4 \/ k = 5 \/ k = 6 \/ k = 7
          \/ k = 8 \/ k = 9) as Hc by lia.
  repeat destruct Hc as [->|Hc]; try subst k; done.
Qed.

Lemma digitChar_of_digit c :
  ShiftQuery.isDigit c = true ->
  0 <= digitValue c <= 9 /\ digitChar (digitValue c) = c.
Proof.
  destruct c as [[] [] [] [] [] [] [] []]; try discriminate; intros _; split;
    first [reflexivity | vm_compute; split; discriminate].
Qed.

Lemma first_split_T c r :
  Js.first (Js.split "T" (String c r))
  = if Ascii.eqb c "T" then EmptyString else String c (Js.first (Js.split "T" r)).
Proof.
  cbn [Js.split]. destruct (Ascii.eqb c "T"); [done|].
  by destruct (Js.split "T" r).
Qed.

Lemma pad2_ymd n :
  0 <= n <= 99 -> pad 2 n = String (digitChar (n / 10)) (String (digitChar (n mod 10)) "").
Proof. apply pad2_digits. Qed.

(** The date part of the ISO string of a midnight in UTC, for the
    years 0000 to 9999. *)
Lemma isoDate_midnight D :
  -719528 <= D <= 2932896 ->
  isoDate (D * msPerDay)
  = ymd (civilFromDays D).1.1 (civilFromDays D).1.2 (civilFromDays D).2.
Proof.
  intros HD. pose proof (civil_year_range D HD) as Hy. pose proof (civil_valid D) as Hv.
  unfold isoDate, toISOString, Day.
  rewrite Z.div_mul by done.
  destruct (civilFromDays D) as [[y m] d]. cbn [fst snd] in *. destruct Hv as [Hm Hd].
  assert (Hd31 : 1 <= d <= 31).
  { rewrite daysInMonth_cases in Hd by done. repeat case_decide; destruct (isLeapYear y); lia. }
  replace ((0 <=? y) && (y <=? 9999)) with true by (symmetry; apply andb_true_iff; lia).
  change (?a ++ ?b)%string with (a +:+ b).
  rewrite pad4_digits, (pad2_digits m), (pad2_digits d) by lia.
  string_app. unfold ymd.
  fold (digitChar (y / 1000)) (digitChar (y / 100 mod 10)) (digitChar (y / 10 mod 10))
    (digitChar (y mod 10)) (digitChar (m / 10)) (digitChar (m mod 10))
    (digitChar (d / 10)) (digitChar (d mod 10)).
  destruct (digitChar_spec (y / 1000)) as (_ & _ & E1); [lia|].
  destruct (digitChar_spec (y / 100 mod 10)) as (_ & _ & E2); [lia|].
  destruct (digitChar_spec (y / 10 mod 10)) as (_ & _ & E3); [lia|].
  destruct (digitChar_spec (y mod 10)) as (_ & _ & E4); [lia|].
  destruct (digitChar_spec (m / 10)) as (_ & _ & E5); [lia|].
  destruct (digitChar_spec (m mod 10)) as (_ & _ & E6); [lia|].
  destruct (digitChar_spec (d / 10)) as (_ & _ & E7); [lia|].
  destruct (digitChar_spec (d mod 10)) as (_ & _ & E8); [lia|].
  rewrite !first_split_T, E1, E2, E3, E4, E5, E6, E7, E8. reflexivity.
Qed.

(** Reading a calendar date gives the midnight of its day. *)
Lemma parse_ymd y m d :
  0 <= y <= 9999 -> 1 <= m <= 12 -> 1 <= d <= daysInMonth y m ->
  parseDateOnly (ymd y m d) = Some (daysFromCivil y m d * msPerDay).
Proof.
  intros Hy Hm Hd.
  assert (Hd31 : 1 <= d <= 31).
  { rewrite daysInMonth_cases in Hd by done. repeat case_decide; destruct (isLeapYear y); lia. }
  destruct (digitChar_spec (y / 1000)) as (D1 & V1 & _); [lia|].
  destruct (digitChar_spec (y / 100 mod 10)) as (D2 & V2 & _); [lia|].
  destruct (digitChar_spec (y / 10 mod 10)) as (D3 & V3 & _); [lia|].
  destruct (digitChar_spec (y mod 10)) as (D4 & V4 & _); [lia|].
  destruct (digitChar_spec (m / 10)) as (D5 & V5 & _); [lia|].
  destruct (digitChar_spec (m mod 10)) as (D6 & V6 & _); [lia|].
  destruct (digitChar_spec (d / 10)) as (D7 & V7 & _); [lia|].
  destruct (digitChar_spec (d mod 10)) as (D8 & V8 & _); [lia|].
  unfold parseDateOnly, ShiftQuery.isCalendarDate, ymd.
  cbn [list_ascii_of_string forallb]. rewrite D1, D2, D3, D4, D5, D6, D7, D8.
  cbn [andb Ascii.eqb Bool.eqb]. rewrite V1, V2, V3, V4, V5, V6, V7, V8.
  replace (y / 1000 * 1000 + y / 100 mod 10 * 100 + y / 10 mod 10 * 10 + y mod 10)
    with y by lia.
  replace (m / 10 * 10 + m mod 10) with m by lia.
  replace (d / 10 * 10 + d mod 10) with d by lia.
  replace ((1 <=? m) && (m <=? 12) && (1 <=? d) && (d <=? daysInMonth y m)) with true; [done|].
  symmetry. rewrite !andb_true_iff, !Z.leb_le. lia.
Qed.

(** What a string that [parseDateOnly] accepts is. *)
Lemma parse_inv s t :
  parseDateOnly s = Some t ->
  exists y m d,
    0 <= y <= 9999 /\ 1 <= m <= 12 /\ 1 <= d <= daysInMonth y m
    /\ s = ymd y m d /\ t = daysFromCivil y m d * msPerDay.
Proof.
  unfold parseDateOnly. destruct (ShiftQuery.isCalendarDate s) eqn:Hc; [|done].
  unfold ShiftQuery.isCalendarDate in Hc.
  pose proof (string_of_list_ascii_of_string s) as Hs.
  destruct (list_ascii_of_string s)
    as [|y1 [|y2 [|y3 [|y4 [|h1 [|m1 [|m2 [|h2 [|d1 [|d2 [|]]]]]]]]]]]; try discriminate Hc.
  cbn [forallb] in Hc. rewrite !andb_true_iff in Hc.
  destruct Hc as [[(Hy1 & Hy2 & Hy3 & Hy4 & Hm1 & Hm2 & Hd1 & Hd2 & _) Hh1] Hh2].
  apply Ascii.eqb_eq in Hh1, Hh2. subst h1 h2.
  destruct (digitChar_of_digit _ Hy1) as (By1 & Cy1).
  destruct (digitChar_of_digit _ Hy2) as (By2 & Cy2).
  destruct (digitChar_of_digit _ Hy3) as (By3 & Cy3).
  destruct (digitChar_of_digit _ Hy4) as (By4 & Cy4).
  destruct (digitChar_of_digit _ Hm1) as (Bm1 & Cm1).
  destruct (digitChar_of_digit _ Hm2) as (Bm2 & Cm2).
  destruct (digitChar_of_digit _ Hd1) as (Bd1 & Cd1).
  destruct (digitChar_of_digit _ Hd2) as (Bd2 & Cd2).
  set (y := digitValue y1 * 1000 + digitValue y2 * 100 + digitValue y3 * 10 + digitValue y4).
  set (m := digitValue m1 * 10 + digitValue m2).
  set (d := digitValue d1 * 10 + digitValue d2).
  destruct ((1 <=? m) && (m <=? 12) && (1 <=? d) && (d <=? daysInMonth y m)) eqn:Hv; [|done].
  rewrite !andb_true_iff, !Z.leb_le in Hv.
  intros [= <-]. exists y, m, d. split_and!; try lia; try done.
  rewrite <- Hs. cbn [string_of_list_ascii]. unfold ymd.
  replace (y / 1000) with (digitValue y1) by (subst y; lia).
  replace (y / 100 mod 10) with (digitValue y2) by (subst y; lia).
  replace (y / 10 mod 10) with (digitValue y3) by (subst y; lia).
  replace (y mod 10) with (digitValue y4) by (subst y; lia).
  replace (m / 10) with (digitValue m1) by (subst m; lia).
  replace (m mod 10) with (digitValue m2) by (subst m; lia).
  replace (d / 10) with (digitValue d1) by (subst d; lia).
  replace (d mod 10) with (digitValue d2) by (subst d; lia).
  by rewrite Cy1, Cy2, Cy3, Cy4, Cm1, Cm2, Cd1, Cd2.
Qed.

(** The date string of a midnight reads back as that midnight, and a
    calendar date is the date string of the midnight it reads as. *)
Lemma parse_isoDate D :
  -719528 <= D <= 2932896 ->
  parseDateOnly (isoDate (D * msPerDay)) = Some (D * msPerDay).
Proof.
  intros HD. rewrite isoDate_midnight by done.
  pose proof (civil_year_range D HD) as Hy. pose proof (civil_valid D) as Hv.
  pose proof (civil_of_days D) as Hr.
  destruct (civilFromDays D) as [[y m] d]. cbn [fst snd] in *. destruct Hv as [Hm Hd].
  rewrite parse_ymd by done. by rewrite Hr.
Qed.

Lemma parse_range s t :
  parseDateOnly s = Some t ->
  exists D, t = D * msPerDay /\ -719528 <= D <= 2932896 /\ isoDate t = s.
Proof.
  intros Hp. apply parse_inv in Hp as (y & m & d & Hy & Hm & Hd & -> & ->).
  assert (Hd31 : 1 <= d <= 31).
  { rewrite daysInMonth_cases in Hd by done. repeat case_decide; destruct (isLeapYear y); lia. }
  destruct (daysFromCivil_range y m d Hm Hd31) as (Hr & _).
  exists (daysFromCivil y m d). split; [done|]. split; [by apply Hr|].
  rewrite isoDate_midnight by (by apply Hr).
  by rewrite days_of_civil.
Qed.

(** *** The generator on a host without clock changes *)

Import Generator GeneratorProps GeneratorMore SummaryProps.

Lemma setDate_fixed zone c cur :
  fixedOffset zone c ->
  Z.abs (cur + msPerDay) <= 8640000000000000 ->
  setDate zone (getDate zone cur + 1) cur = Some (cur + msPerDay).
Proof.
  intros Hz Hclip. unfold setDate, getDate, LocalTime, UTC. rewrite !Hz.
  pose proof (civil_of_days (Day (cur + c))) as Hr.
  destruct (civilFromDays (Day (cur + c))) as [[y m] d]. cbn [fst snd].
  replace (daysFromCivil y m 1 + (d + 1) - 1) with (daysFromCivil y m d + 1)
    by (rewrite <- (daysFromCivil_day y m d); lia).
  rewrite Hr, Hz. unfold Day, TimeWithinDay, TimeClip, msPerDay in *.
  replace (((cur + c) / 86400000 + 1) * 86400000 + (cur + c) mod 86400000 - c)
    with (cur + 86400000) by lia.
  destruct (8640000000000000 <? Z.abs (cur + 86400000)) eqn:E; [|done].
  apply Z.ltb_lt in E. lia.
Qed.

Lemma generateLoop_fixed zone c rnd :
  fixedOffset zone c ->
  forall (n fuel calls : nat) (d0 : Z) (acc : list Shift),
    -719528 <= d0 -> d0 + Z.of_nat n <= 2932896 -> (n + 2 <= fuel)%nat ->
    exists rounds : list (string * list ShiftAssignment),
      generateLoop zone rnd fuel calls (Some (d0 * msPerDay))
        (Some ((d0 + Z.of_nat n) * msPerDay)) acc
      = Some (acc ++ concat (List.map (fun r => List.map (shiftOfAssignment r.1) r.2) rounds))%list
      /\ List.map fst rounds
         = List.map (fun i => isoDate ((d0 + Z.of_nat i) * msPerDay)) (seq 0 (n + 1))
      /\ Forall (fun r => exists c, r.2 = (generateDayAssignments rnd c).1) rounds.
Proof.
  intros Hz. induction n as [|n IH]; intros fuel calls d0 acc Hlo Hhi Hfuel.
  - destruct fuel as [|[|fuel]]; [lia..|].
    rewrite generateLoop_continue by (apply Z.leb_le; unfold msPerDay; lia).
    rewrite (setDate_fixed zone c) by (done || unfold msPerDay; lia).
    rewrite generateLoop_stop by (apply Z.leb_gt; unfold msPerDay; lia).
    exists [(isoDate (d0 * msPerDay), (generateDayAssignments rnd calls).1)].
    split; [simpl; by rewrite List.app_nil_r|]. split.
    + simpl. by rewrite Z.add_0_r.
    + repeat constructor. by exists calls.
  - destruct fuel as [|fuel]; [lia|].
    rewrite generateLoop_continue by (apply Z.leb_le; unfold msPerDay; lia).
    rewrite (setDate_fixed zone c) by (done || unfold msPerDay; lia).
    replace (d0 * msPerDay + msPerDay) with ((d0 + 1) * msPerDay) by lia.
    replace (d0 + Z.of_nat (S n)) with ((d0 + 1) + Z.of_nat n) by lia.
    destruct (IH fuel (generateDayAssignments rnd calls).2 (d0 + 1)
                (acc ++ List.map (shiftOfAssignment
                                    (Js.first (Js.split "T" (toISOString (d0 * msPerDay)))))
                         (generateDayAssignments rnd calls).1)%list)
      as (rounds & Hrun & Hdates & Hr); [lia..|].
    exists ((isoDate (d0 * msPerDay), (generateDayAssignments rnd calls).1) :: rounds).
    split; [|split].
    + rewrite Hrun. simpl. by rewrite <- List.app_assoc.
    + cbn [List.map fst seq Nat.add]. rewrite Hdates, Z.add_0_r. f_equal.
      rewrite <- List.seq_shift, List.map_map.
      apply List.map_ext. intros i. f_equal. lia.
    + constructor; [by exists calls|done].
Qed.

Lemma length_rounds rnd (rounds : list (string * list ShiftAssignment)) :
  Forall (fun r => exists c, r.2 = (generateDayAssignments rnd c).1) rounds ->
  length (concat (List.map (fun r => List.map (shiftOfAssignment r.1) r.2) rounds))
  = (5 * length rounds)%nat.
Proof.
  induction rounds as [|r rounds IH]; intros Hr; [done|].
  apply Forall_cons in Hr as [(c & Hc) Hr].
  simpl. rewrite List.length_app, List.length_map, IH by done. rewrite Hc.
  destruct (day_assignments_distinct rnd c) as (-> & _). lia.
Qed.

(** On a host whose zone keeps one offset from UTC, for any two
    calendar dates with the first not after the second and any random
    numbers: [generateBalancedShifts] returns a schedule with five shifts
    on every date from the first to the last and none on any other, and
    no employee has two shifts on one date. *)
Theorem fixed_offset_schedule_covers_range (zone : Zone) (c : Z) (rnd : Random)
    (fuel : nat) (startDate endDate : string) (s e : Z) :
  fixedOffset zone c ->
  parseDateOnly startDate = Some s ->
  parseDateOnly endDate = Some e ->
  s <= e ->
  (Z.to_nat ((e - s) / msPerDay) + 2 <= fuel)%nat ->
  exists l,
    generateBalancedShifts zone rnd fuel startDate endDate = Some l
    /\ length l = (5 * (Z.to_nat ((e - s) / msPerDay) + 1))%nat
    /\ oneShiftPerEmployeePerDay l
    /\ (forall d t, parseDateOnly d = Some t ->
          shiftsOn d l = if (s <=? t) && (t <=? e) then 5%nat else 0%nat)
    /\ (forall x, In x l -> exists t, parseDateOnly (date x) = Some t /\ s <= t <= e).
Proof.
  intros Hz Hs He Hse Hfuel.
  unfold generateBalancedShifts. rewrite Hs, He.
  apply parse_range in Hs as (d0 & -> & Hd0 & _).
  apply parse_range in He as (d1 & -> & Hd1 & _).
  assert (Hd01 : d0 <= d1) by (unfold msPerDay in Hse; lia).
  replace ((d1 * msPerDay - d0 * msPerDay) / msPerDay) with (d1 - d0) in *
    by (unfold msPerDay; lia).
  set (n := Z.to_nat (d1 - d0)) in *.
  assert (Hd1' : d1 = d0 + Z.of_nat n) by lia.
  clearbody n. subst d1.
  destruct (generateLoop_fixed zone c rnd Hz n fuel 0 d0 []) as (rounds & Hrun & Hdates & Hr);
    [lia..|].
  rewrite Hrun. cbn [List.app].
  set (l := concat (List.map (fun r => List.map (shiftOfAssignment r.1) r.2) rounds)).
  assert (Hlen : length rounds = (n + 1)%nat).
  { rewrite <- (List.length_map fst), Hdates, List.length_map. apply length_seq. }
  assert (Hdate : forall i, (i < n + 1)%nat ->
            parseDateOnly (isoDate ((d0 + Z.of_nat i) * msPerDay))
            = Some ((d0 + Z.of_nat i) * msPerDay)).
  { intros i Hi. apply parse_isoDate. lia. }
  assert (Hnd : NoDup (List.map fst rounds)).
  { rewrite Hdates. apply NoDup_fmap_2_strong; [|apply NoDup_seq].
    intros i j Hi Hj Heq. apply elem_of_seq in Hi, Hj.
    pose proof (Hdate i ltac:(lia)) as Pi. pose proof (Hdate j ltac:(lia)) as Pj.
    rewrite Heq, Pj in Pi. injection Pi as Pi. unfold msPerDay in Pi. lia. }
  assert (Hin : forall d, In d (List.map fst rounds)
                  <-> exists i, (i < n + 1)%nat
                                /\ d = isoDate ((d0 + Z.of_nat i) * msPerDay)).
  { intros d. rewrite Hdates, List.in_map_iff. split.
    - intros (i & <- & Hi). apply List.in_seq in Hi. exists i. split; [lia|done].
    - intros (i & Hi & ->). exists i. split; [done|]. apply List.in_seq. lia. }
  exists l. split; [done|]. split_and!.
  - subst l. rewrite (length_rounds rnd) by done. by rewrite Hlen.
  - by apply (rounds_invariant_iff rnd).
  - intros d t Hd. unfold l. rewrite (shiftsOn_rounds rnd) by done.
    apply parse_range in Hd as (D & -> & HD & Hiso).
    pose proof (proj1 (List.NoDup_count_occ string_dec _)
                  (proj1 (NoDup_ListNoDup _) Hnd) d) as Hcnt.
    destruct ((d0 * msPerDay <=? D * msPerDay) && (D * msPerDay <=? (d0 + Z.of_nat n) * msPerDay))
      eqn:Hrange.
    + apply andb_true_iff in Hrange as [H1 H2]. apply Z.leb_le in H1, H2.
      assert (Hd : In d (List.map fst rounds)).
      { apply Hin. exists (Z.to_nat (D - d0)). unfold msPerDay in H1, H2.
        split; [lia|]. rewrite <- Hiso. f_equal. unfold msPerDay. lia. }
      apply (List.count_occ_In string_dec) in Hd. lia.
    + assert (Hd : ~ In d (List.map fst rounds)).
      { intros Hd. apply Hin in Hd as (i & Hi & Heq).
        pose proof (Hdate i Hi) as Pi. rewrite <- Heq, <- Hiso in Pi.
        rewrite parse_isoDate in Pi by done. injection Pi as Pi.
        apply andb_false_iff in Hrange as [H|H]; apply Z.leb_gt in H;
          unfold msPerDay in *; lia. }
      apply (List.count_occ_not_In string_dec) in Hd. lia.
  - intros x Hx. subst l. apply List.in_concat in Hx as (blk & Hblk & Hx).
    apply List.in_map_iff in Hblk as (r & <- & Hrin).
    apply List.in_map_iff in Hx as (a & <- & _). simpl.
    assert (Hd : In r.1 (List.map fst rounds)) by (by apply List.in_map).
    apply Hin in Hd as (i & Hi & ->). eexists. split; [by apply Hdate|].
    unfold msPerDay. lia.
Qed.

Lemma fixed_offset_schedule_covers_range_witness :
  exists l,
    generateBalancedShifts Fixture.kolkata (fun n => n) 10 "2024-02-27" "2024-03-02" = Some l
    /\ length l = (5 * (Z.to_nat ((1709337600000 - 1708992000000) / msPerDay) + 1))%nat
    /\ oneShiftPerEmployeePerDay l
    /\ (forall d t, parseDateOnly d = Some t ->
          shiftsOn d l = if (1708992000000 <=? t) && (t <=? 1709337600000)
                         then 5%nat else 0%nat)
    /\ (forall x, In x l ->
          exists t, parseDateOnly (date x) = Some t
                    /\ 1708992000000 <= t <= 1709337600000).
Proof.
  apply (fixed_offset_schedule_covers_range Fixture.kolkata 19800000 (fun n => n) 10
           "2024-02-27" "2024-03-02" 1708992000000 1709337600000).
  - intros t isUTC. reflexivity.
  - vm_compute. reflexivity.
  - vm_compute. reflexivity.
  - lia.
  - vm_compute. lia.
Defined.

End CalendarProps.
